(** * Arrow-key control system: controller registry, control server,
      wire validation and the target's reconnect schedule.

    A shallow embedding of
      - src/shared/constants.ts, src/shared/types.ts, src/shared/utils.ts,
      - src/controller/deviceRegistry.ts (class DeviceRegistry),
      - src/controller/controlServer.ts (class ControlServer),
      - the simplified control client (class SimplifiedControlClient),
    followed by the properties established about them.

    Conventions.  JavaScript [Map]s are finite maps ([gmap]); a JavaScript
    object that is mutated in place is a value that the operation writes
    back into the map that holds it.  [Date.now()] and the bytes returned
    by [crypto.randomBytes] are inputs of the operation that reads them.
    Logging and [EventEmitter.emit] calls have no effect on the state the
    properties talk about and are left out, except for the client's log,
    which is the only place where it reports that it gave up. *)

From stdpp Require Import base gmap strings list fin_maps.
From Stdlib Require Import ZArith Lia.
From Stdlib.Strings Require Import Ascii Byte.

Local Open Scope string_scope.
Local Open Scope Z_scope.
Local Open Scope list_scope.

(** ** JavaScript truthiness of the values the code tests *)

Module Js.

(** [!!s] for a string: every string but the empty one. *)
Definition truthy_str (s : string) : bool := negb (String.eqb s "").

(** [!!n] for a (non-NaN) number. *)
Definition truthy_num (n : Z) : bool := negb (Z.eqb n 0).

(** [!!x] for an optional string property ([undefined] when absent). *)
Definition truthy_opt_str (o : option string) : bool :=
  match o with
  | Some s => truthy_str s
  | None => false
  end.

End Js.

(** ** src/shared/constants.ts *)

Definition DEFAULT_WEBSOCKET_PORT : Z := 8080.
Definition PROTOCOL_VERSION : string := "1.0.0".

Module MESSAGE_TYPES.
Definition ANNOUNCE := "announce".
Definition REGISTER := "register".
Definition REGISTERED := "registered".
Definition COMMAND := "command".
Definition COMMAND_RESULT := "command_result".
Definition HEARTBEAT := "heartbeat".
Definition HEARTBEAT_ACK := "heartbeat_ack".
Definition PAIRING_REQUEST := "pairing_request".
Definition PAIRING_RESPONSE := "pairing_response".
Definition ERROR := "error".
End MESSAGE_TYPES.

Module COMMAND_TYPES.
Definition ARROW_LEFT := "arrow_left".
Definition ARROW_RIGHT := "arrow_right".
End COMMAND_TYPES.

Module ERROR_CODES.
Definition INVALID_MESSAGE : Z := 100.
Definition AUTHENTICATION_FAILED : Z := 101.
Definition INVALID_COMMAND : Z := 102.
Definition INTERNAL_ERROR : Z := 103.
Definition NOT_PAIRED : Z := 104.
End ERROR_CODES.

Definition DEFAULT_AUTH_TOKEN_LENGTH : nat := 32.
Definition WS_PING_INTERVAL : Z := 30000.

(** ** src/shared/types.ts *)

Inductive DeviceType := CONTROLLER | TARGET.

Inductive ConnectionStatus :=
  DISCONNECTED | CONNECTING | CONNECTED | PAIRED | ERROR.

#[global] Instance DeviceType_eq_dec : EqDecision DeviceType.
Proof. solve_decision. Defined.

#[global] Instance ConnectionStatus_eq_dec : EqDecision ConnectionStatus.
Proof. solve_decision. Defined.

(** The string value of the enum member. *)
Definition DeviceType_value (t : DeviceType) : string :=
  match t with
  | CONTROLLER => "controller"
  | TARGET => "target"
  end.

Record DeviceInfo := mkDeviceInfo {
  id : string;
  name : string;
  ip : string;
  mac : option string;
  type : DeviceType;
  supportedCommands : list string
}.

#[global] Instance DeviceInfo_eq_dec : EqDecision DeviceInfo.
Proof. solve_decision. Defined.

(** [{ ...old, ...new }] on two [DeviceInfo]s: every property of [new]
    wins; [mac], the one optional property, is kept from [old] when [new]
    does not carry it. *)
Definition spreadDeviceInfo (old new : DeviceInfo) : DeviceInfo :=
  {| id := id new;
     name := name new;
     ip := ip new;
     mac := match mac new with
            | Some m => Some m
            | None => mac old
            end;
     type := type new;
     supportedCommands := supportedCommands new |}.

Inductive Direction := left | right.

(** The payloads the controller writes ([data] of a [ProtocolMessage]). *)
Inductive MessageData :=
  | RegisteredData (deviceId : string) (pairingRequired : bool)
      (pairingToken : option string)
  | PairingResponseData (accepted : bool) (authToken : option string)
      (error : option string)
  | CommandData (commandType : string) (direction : Direction)
      (repeat : Z) (holdTime : Z)
  | ErrorData (code : Z) (message : string)
  | EmptyData.

Record ProtocolMessage := mkMessage {
  msg_type : string;
  version : string;
  timestamp : Z;
  sender_id : string;
  sender_type : DeviceType;
  data : MessageData
}.

(** ** src/shared/utils.ts *)

(** The source of randomness behind [crypto.randomBytes]: the i-th byte
    it hands out during one call. *)
Definition Entropy := nat → byte.

Definition randomBytes (ent : Entropy) (length : nat) : list byte :=
  map ent (seq 0 length).

Definition hexDigit (n : N) : ascii :=
  (match n with
   | 0 => "0" | 1 => "1" | 2 => "2" | 3 => "3"
   | 4 => "4" | 5 => "5" | 6 => "6" | 7 => "7"
   | 8 => "8" | 9 => "9" | 10 => "a" | 11 => "b"
   | 12 => "c" | 13 => "d" | 14 => "e" | _ => "f"
   end%char)%N.

(** [Buffer.toString("hex")] *)
Fixpoint toHex (bs : list byte) : string :=
  match bs with
  | [] => ""
  | b :: rest =>
      let n := Byte.to_N b in
      String (hexDigit (n / 16)%N) (String (hexDigit (n mod 16)%N) (toHex rest))
  end.

Definition generateToken (ent : Entropy) : string :=
  toHex (randomBytes ent DEFAULT_AUTH_TOKEN_LENGTH).

Definition createBaseMessage (now : Z) (type : string) (senderId : string)
    (senderType : DeviceType) (d : MessageData) : ProtocolMessage :=
  {| msg_type := type;
     version := PROTOCOL_VERSION;
     timestamp := now;
     sender_id := senderId;
     sender_type := senderType;
     data := d |}.

Definition createErrorMessage (now : Z) (senderId : string)
    (senderType : DeviceType) (code : Z) (message : string) : ProtocolMessage :=
  createBaseMessage now MESSAGE_TYPES.ERROR senderId senderType
    (ErrorData code message).

(** *** Values handed to [validateMessage]

    [validateMessage(message: any)] takes whatever [JSON.parse] produced,
    so the message is an arbitrary JavaScript value.  A number is NaN, an
    infinity or m * 2^e. *)

Inductive JsNumber :=
  | NaN
  | Infinity (negative : bool)
  | Finite (m : Z) (e : Z).

#[local] Unset Elimination Schemes.

Inductive JsValue :=
  | JsUndefined
  | JsNull
  | JsBool (b : bool)
  | JsNum (n : JsNumber)
  | JsStr (s : string)
  | JsArr (items : list JsValue)
  | JsObj (props : list (string * JsValue)).

#[local] Set Elimination Schemes.

(** [!!v] *)
Definition truthy (v : JsValue) : bool :=
  match v with
  | JsUndefined | JsNull => false
  | JsBool b => b
  | JsNum NaN => false
  | JsNum (Infinity _) => true
  | JsNum (Finite m _) => negb (Z.eqb m 0)
  | JsStr s => Js.truthy_str s
  | JsArr _ | JsObj _ => true
  end.

(** [typeof v] *)
Definition typeof (v : JsValue) : string :=
  match v with
  | JsUndefined => "undefined"
  | JsNull | JsArr _ | JsObj _ => "object"
  | JsBool _ => "boolean"
  | JsNum _ => "number"
  | JsStr _ => "string"
  end.

(** The own property [k] of an object, first binding of the name. *)
Fixpoint own_prop (props : list (string * JsValue)) (k : string) : JsValue :=
  match props with
  | [] => JsUndefined
  | (k', v) :: rest => if String.eqb k' k then v else own_prop rest k
  end.

(** [v.k] for the property names the validator reads ([type], [version],
    [timestamp], [sender], [id]): none of them is an array index or a
    property that a prototype provides, so only own properties answer.
    [None] is the TypeError of reading a property of [null] or
    [undefined]. *)
Definition get_prop (v : JsValue) (k : string) : option JsValue :=
  match v with
  | JsUndefined | JsNull => None
  | JsObj props => Some (own_prop props k)
  | JsBool _ | JsNum _ | JsStr _ | JsArr _ => Some JsUndefined
  end.

(** [names.includes(v)] for an array of strings. *)
Definition includes (names : list string) (v : JsValue) : bool :=
  match v with
  | JsStr s => bool_decide (s ∈ names)
  | _ => false
  end.

Record ValidationResult := mkValidation {
  valid : bool;
  error : option string
}.

Definition rejected (reason : string) : ValidationResult :=
  {| valid := false; error := Some reason |}.

Definition accepted : ValidationResult :=
  {| valid := true; error := None |}.

(** [validateMessage]; the result is [None] when the call throws. *)
Definition validateMessage (message : JsValue) : option ValidationResult :=
  if negb (truthy message) || negb (String.eqb (typeof message) "object") then
    Some (rejected "Message must be an object")
  else
    ty ← get_prop message "type";
    ver ← get_prop message "version";
    ts ← get_prop message "timestamp";
    sender ← get_prop message "sender";
    if negb (truthy ty) || negb (truthy ver) || negb (truthy ts)
       || negb (truthy sender) then
      Some (rejected "Message missing required fields")
    else
      sid ← get_prop sender "id";
      sty ← get_prop sender "type";
      if negb (truthy sid) || negb (truthy sty) then
        Some (rejected "Sender missing required fields")
      else if negb (includes [DeviceType_value CONTROLLER;
                              DeviceType_value TARGET] sty) then
        Some (rejected "Invalid sender type")
      else
        Some accepted.

(** ** src/controller/deviceRegistry.ts *)

Module Registry.

Record RegisteredDevice := mkDevice {
  deviceInfo : DeviceInfo;
  status : ConnectionStatus;
  lastSeen : Z;
  firstSeen : Z;
  connectionId : option string;
  authToken : option string;
  paired : bool;
  pairingToken : option string;
  pairingExpiration : option Z
}.

(** The three private maps of the class. *)
Record DeviceRegistry := mkRegistry {
  devices : gmap string RegisteredDevice;
  ipToIdMap : gmap string string;
  macToIdMap : gmap string string
}.

Definition empty : DeviceRegistry :=
  {| devices := ∅; ipToIdMap := ∅; macToIdMap := ∅ |}.

Definition with_devices (r : DeviceRegistry)
    (ds : gmap string RegisteredDevice) : DeviceRegistry :=
  {| devices := ds; ipToIdMap := ipToIdMap r; macToIdMap := macToIdMap r |}.

(** [if (key) map.delete(key)] and [if (key) map.set(key, v)] on an index. *)
Definition index_delete (key : option string) (m : gmap string string)
    : gmap string string :=
  match key with
  | Some k => if Js.truthy_str k then delete k m else m
  | None => m
  end.

Definition index_set (key : option string) (v : string)
    (m : gmap string string) : gmap string string :=
  match key with
  | Some k => if Js.truthy_str k then <[k := v]> m else m
  | None => m
  end.

(** The [existingId] that [registerDevice] computes: the ip index is
    asked first, the mac index only when the ip is empty or not indexed. *)
Definition lookupExistingId (r : DeviceRegistry) (info : DeviceInfo)
    : option string :=
  if Js.truthy_str (ip info) && bool_decide (is_Some (ipToIdMap r !! ip info))
  then ipToIdMap r !! ip info
  else
    match mac info with
    | Some m =>
        if Js.truthy_str m && bool_decide (is_Some (macToIdMap r !! m))
        then macToIdMap r !! m
        else None
    | None => None
    end.

(** The record behind [existingId], when
    [existingId && this.devices.has(existingId)]. *)
Definition lookupExisting (r : DeviceRegistry) (info : DeviceInfo)
    : option (string * RegisteredDevice) :=
  match lookupExistingId r info with
  | Some existingId =>
      if Js.truthy_str existingId then
        match devices r !! existingId with
        | Some device => Some (existingId, device)
        | None => None
        end
      else None
  | None => None
  end.

Definition registerDevice (now : Z) (ent : Entropy) (r : DeviceRegistry)
    (info : DeviceInfo) (requirePairing : bool)
    : DeviceRegistry * RegisteredDevice :=
  match devices r !! id info with
  | Some device =>
      (* known id: refresh the info and lastSeen in place *)
      let device' :=
        {| deviceInfo := spreadDeviceInfo (deviceInfo device) info;
           status := status device;
           lastSeen := now;
           firstSeen := firstSeen device;
           connectionId := connectionId device;
           authToken := authToken device;
           paired := paired device;
           pairingToken := pairingToken device;
           pairingExpiration := pairingExpiration device |} in
      (with_devices r (<[id info := device']> (devices r)), device')
  | None =>
      match lookupExisting r info with
      | Some (existingId, device) =>
          (* known ip or mac: move the record under the new id *)
          let updatedDevice :=
            {| deviceInfo := spreadDeviceInfo (deviceInfo device) info;
               status := status device;
               lastSeen := now;
               firstSeen := firstSeen device;
               connectionId := connectionId device;
               authToken := authToken device;
               paired := paired device;
               pairingToken := pairingToken device;
               pairingExpiration := pairingExpiration device |} in
          ({| devices := <[id info := updatedDevice]> (delete existingId (devices r));
              ipToIdMap :=
                index_set (Some (ip info)) (id info)
                  (index_delete (Some (ip (deviceInfo device))) (ipToIdMap r));
              macToIdMap :=
                index_set (mac info) (id info)
                  (index_delete (mac (deviceInfo device)) (macToIdMap r)) |},
           updatedDevice)
      | None =>
          let newDevice :=
            {| deviceInfo := info;
               status := DISCONNECTED;
               lastSeen := now;
               firstSeen := now;
               connectionId := None;
               authToken := None;
               paired := false;
               pairingToken :=
                 if requirePairing then Some (generateToken ent) else None;
               pairingExpiration :=
                 if requirePairing then Some (now + 5 * 60 * 1000) else None |} in
          ({| devices := <[id info := newDevice]> (devices r);
              ipToIdMap := index_set (Some (ip info)) (id info) (ipToIdMap r);
              macToIdMap := index_set (mac info) (id info) (macToIdMap r) |},
           newDevice)
      end
  end.

Definition connectDevice (now : Z) (r : DeviceRegistry)
    (deviceId : string) (connId : string)
    : DeviceRegistry * option RegisteredDevice :=
  match devices r !! deviceId with
  | None => (r, None)
  | Some device =>
      let device' :=
        {| deviceInfo := deviceInfo device;
           status := if paired device then PAIRED else CONNECTED;
           lastSeen := now;
           firstSeen := firstSeen device;
           connectionId := Some connId;
           authToken := authToken device;
           paired := paired device;
           pairingToken := pairingToken device;
           pairingExpiration := pairingExpiration device |} in
      (with_devices r (<[deviceId := device']> (devices r)), Some device')
  end.

Definition disconnectDevice (now : Z) (r : DeviceRegistry)
    (deviceId : string) : DeviceRegistry * option RegisteredDevice :=
  match devices r !! deviceId with
  | None => (r, None)
  | Some device =>
      let device' :=
        {| deviceInfo := deviceInfo device;
           status := DISCONNECTED;
           lastSeen := now;
           firstSeen := firstSeen device;
           connectionId := None;
           authToken := authToken device;
           paired := paired device;
           pairingToken := pairingToken device;
           pairingExpiration := pairingExpiration device |} in
      (with_devices r (<[deviceId := device']> (devices r)), Some device')
  end.

(** [{ success, device?, error? }] *)
Record PairResult := mkPairResult {
  success : bool;
  device : option RegisteredDevice;
  error : option string
}.

Definition failure (reason : string) : PairResult :=
  {| success := false; device := None; error := Some reason |}.

Definition pairDevice (now : Z) (ent : Entropy) (r : DeviceRegistry)
    (deviceId : string) (token : string) : DeviceRegistry * PairResult :=
  match devices r !! deviceId with
  | None => (r, failure "Device not found")
  | Some dev =>
      if negb (Js.truthy_opt_str (pairingToken dev)) then
        (r, failure "Device does not support pairing")
      else if negb (bool_decide (pairingToken dev = Some token)) then
        (r, failure "Invalid pairing token")
      else if match pairingExpiration dev with
              | Some e => Js.truthy_num e && Z.ltb e now
              | None => false
              end then
        (r, failure "Pairing token expired")
      else
        let dev' :=
          {| deviceInfo := deviceInfo dev;
             status := if bool_decide (status dev = CONNECTED)
                       then PAIRED else status dev;
             lastSeen := lastSeen dev;
             firstSeen := firstSeen dev;
             connectionId := connectionId dev;
             authToken := Some (generateToken ent);
             paired := true;
             pairingToken := None;
             pairingExpiration := None |} in
        (with_devices r (<[deviceId := dev']> (devices r)),
         {| success := true; device := Some dev'; error := None |})
  end.

Definition unpairDevice (now : Z) (ent : Entropy) (r : DeviceRegistry)
    (deviceId : string) : DeviceRegistry * PairResult :=
  match devices r !! deviceId with
  | None => (r, failure "Device not found")
  | Some dev =>
      let dev' :=
        {| deviceInfo := deviceInfo dev;
           status := if bool_decide (status dev = PAIRED)
                     then CONNECTED else status dev;
           lastSeen := lastSeen dev;
           firstSeen := firstSeen dev;
           connectionId := connectionId dev;
           authToken := None;
           paired := false;
           pairingToken := Some (generateToken ent);
           pairingExpiration := Some (now + 5 * 60 * 1000) |} in
      (with_devices r (<[deviceId := dev']> (devices r)),
       {| success := true; device := Some dev'; error := None |})
  end.

Definition getDeviceById (r : DeviceRegistry) (deviceId : string)
    : option RegisteredDevice :=
  devices r !! deviceId.

(** [Array.from(this.devices.values())].  A JavaScript Map hands out
    its values in the order in which its keys were inserted, which the
    finite map [devices] does not record: [keys] is that order, the ids
    now in the map, each once and oldest first. *)
Definition getAllDevices (keys : list string) (r : DeviceRegistry)
    : list RegisteredDevice :=
  omap (λ deviceId, devices r !! deviceId) keys.

Definition getConnectedDevices (keys : list string) (r : DeviceRegistry)
    : list RegisteredDevice :=
  filter (λ d, status d = CONNECTED ∨ status d = PAIRED)
    (getAllDevices keys r).

Definition getPairedDevices (keys : list string) (r : DeviceRegistry)
    : list RegisteredDevice :=
  filter (λ d, paired d = true ∧ status d = PAIRED) (getAllDevices keys r).

Definition removeDevice (r : DeviceRegistry) (deviceId : string)
    : DeviceRegistry * bool :=
  match devices r !! deviceId with
  | None => (r, false)
  | Some dev =>
      ({| devices := delete deviceId (devices r);
          ipToIdMap := index_delete (Some (ip (deviceInfo dev))) (ipToIdMap r);
          macToIdMap := index_delete (mac (deviceInfo dev)) (macToIdMap r) |},
       true)
  end.

Definition updateDeviceLastSeen (now : Z) (r : DeviceRegistry)
    (deviceId : string) : DeviceRegistry * bool :=
  match devices r !! deviceId with
  | None => (r, false)
  | Some dev =>
      let dev' :=
        {| deviceInfo := deviceInfo dev;
           status := status dev;
           lastSeen := now;
           firstSeen := firstSeen dev;
           connectionId := connectionId dev;
           authToken := authToken dev;
           paired := paired dev;
           pairingToken := pairingToken dev;
           pairingExpiration := pairingExpiration dev |} in
      (with_devices r (<[deviceId := dev']> (devices r)), true)
  end.

Definition getDeviceByIp (r : DeviceRegistry) (ipAddr : string)
    : option RegisteredDevice :=
  match ipToIdMap r !! ipAddr with
  | Some deviceId =>
      if Js.truthy_str deviceId then getDeviceById r deviceId else None
  | None => None
  end.

Definition getDeviceByMac (r : DeviceRegistry) (macAddr : string)
    : option RegisteredDevice :=
  match macToIdMap r !! macAddr with
  | Some deviceId =>
      if Js.truthy_str deviceId then getDeviceById r deviceId else None
  | None => None
  end.

(** One turn of the loop of [cleanupOldDevices]. *)
Definition cleanupStep (cutoffTime : Z) (acc : DeviceRegistry * Z)
    (entry : string * RegisteredDevice) : DeviceRegistry * Z :=
  if Z.ltb (lastSeen entry.2) cutoffTime then
    let '(r', removed) := removeDevice acc.1 entry.1 in
    (r', if removed then acc.2 + 1 else acc.2)
  else acc.

(** The loop visits every entry of the map once; removing the visited
    entry does not disturb the visit of the others. *)
Definition cleanupOldDevices (now : Z) (r : DeviceRegistry) (maxAge : Z)
    : DeviceRegistry * Z :=
  let cutoffTime := now - maxAge in
  foldl (cleanupStep cutoffTime) (r, 0) (map_to_list (devices r)).

End Registry.

(** ** src/controller/controlServer.ts *)

Module Server.

(** [WebSocketWithId]: the fields the server adds to a socket. *)
Record WebSocketWithId := mkConnection {
  connectionId : string;
  deviceId : option string;
  isAlive : bool;
  lastActivity : Z
}.

(** The server: [options.controllerId], the [connections] map listed in
    insertion order (the order of [connections.values()]), the registry,
    and, oldest first, every frame handed to some [connection.send]
    together with the [connectionId] of that connection. *)
Record ControlServer := mkServer {
  controllerId : string;
  connections : list WebSocketWithId;
  deviceRegistry : Registry.DeviceRegistry;
  sent : list (string * ProtocolMessage)
}.

(** How the promise returned by [sendArrowCommand] settles. *)
Inductive Outcome :=
  | Resolved (value : bool)
  | Rejected (reason : string).

Definition with_registry (s : ControlServer) (r : Registry.DeviceRegistry)
    : ControlServer :=
  {| controllerId := controllerId s;
     connections := connections s;
     deviceRegistry := r;
     sent := sent s |}.

(** [this.sendMessage(connection, message)] *)
Definition sendMessage (s : ControlServer) (connection : WebSocketWithId)
    (message : ProtocolMessage) : ControlServer :=
  {| controllerId := controllerId s;
     connections := connections s;
     deviceRegistry := deviceRegistry s;
     sent := sent s ++ [(connectionId connection, message)] |}.

(** A write to a field of [connection]: the connection is an object, so
    the entry of the map that is this very socket sees the write. *)
Definition writeBack (s : ControlServer) (connection : WebSocketWithId)
    : ControlServer :=
  {| controllerId := controllerId s;
     connections :=
       map (λ c, if String.eqb (connectionId c) (connectionId connection)
                 then connection else c) (connections s);
     deviceRegistry := deviceRegistry s;
     sent := sent s |}.

(** [this.connections.set(connectionId, connection)] *)
Fixpoint connections_set (cs : list WebSocketWithId)
    (connection : WebSocketWithId) : list WebSocketWithId :=
  match cs with
  | [] => [connection]
  | c :: rest =>
      if String.eqb (connectionId c) (connectionId connection)
      then connection :: rest
      else c :: connections_set rest connection
  end.

(** [this.connections.delete(connectionId)] *)
Definition connections_delete (cs : list WebSocketWithId) (cid : string)
    : list WebSocketWithId :=
  filter (λ c, connectionId c ≠ cid) cs.

Definition getConnectionByDeviceId (s : ControlServer) (devId : string)
    : option WebSocketWithId :=
  List.find (λ c, bool_decide (deviceId c = Some devId)) (connections s).

(** [handleConnection]; [cid] is the id the handler draws from the clock
    and [Math.random]. *)
Definition handleConnection (now : Z) (cid : string) (s : ControlServer)
    : ControlServer :=
  let connection :=
    {| connectionId := cid; deviceId := None;
       isAlive := true; lastActivity := now |} in
  {| controllerId := controllerId s;
     connections := connections_set (connections s) connection;
     deviceRegistry := deviceRegistry s;
     sent := sent s |}.

Definition handleClose (now : Z) (s : ControlServer)
    (connection : WebSocketWithId) : ControlServer :=
  let r :=
    match deviceId connection with
    | Some d =>
        if Js.truthy_str d
        then (Registry.disconnectDevice now (deviceRegistry s) d).1
        else deviceRegistry s
    | None => deviceRegistry s
    end in
  {| controllerId := controllerId s;
     connections := connections_delete (connections s) (connectionId connection);
     deviceRegistry := r;
     sent := sent s |}.

(** [handleRegisterMessage]; [info] is [message.data.deviceInfo], and
    the three clock readings are those of [registerDevice],
    [connectDevice] and [createBaseMessage].  A [DeviceInfo] always has a
    [type], so the test [!deviceInfo.type] never fires. *)
Definition handleRegisterMessage (tRegister tConnect tMessage : Z)
    (ent : Entropy) (s : ControlServer) (connection : WebSocketWithId)
    (info : option DeviceInfo) : ControlServer :=
  match info with
  | None =>
      sendMessage s connection
        (createErrorMessage tMessage (controllerId s) CONTROLLER
           ERROR_CODES.INVALID_MESSAGE "Invalid device info")
  | Some deviceInfo =>
      if negb (Js.truthy_str (id deviceInfo)) then
        sendMessage s connection
          (createErrorMessage tMessage (controllerId s) CONTROLLER
             ERROR_CODES.INVALID_MESSAGE "Invalid device info")
      else if negb (bool_decide (type deviceInfo = TARGET)) then
        sendMessage s connection
          (createErrorMessage tMessage (controllerId s) CONTROLLER
             ERROR_CODES.INVALID_MESSAGE "Only target devices can register")
      else
        let '(r1, device) :=
          Registry.registerDevice tRegister ent (deviceRegistry s)
            deviceInfo true in
        let devId := id (Registry.deviceInfo device) in
        let connection' :=
          {| connectionId := connectionId connection;
             deviceId := Some devId;
             isAlive := isAlive connection;
             lastActivity := lastActivity connection |} in
        let s1 := writeBack (with_registry s r1) connection' in
        let r2 :=
          (Registry.connectDevice tConnect r1 devId
             (connectionId connection')).1 in
        sendMessage (with_registry s1 r2) connection'
          (createBaseMessage tMessage MESSAGE_TYPES.REGISTERED
             (controllerId s) CONTROLLER
             (RegisteredData devId (negb (Registry.paired device))
                (Registry.pairingToken device)))
  end.

(** [result.error || "Pairing failed"] *)
Definition errorOrDefault (e : option string) (fallback : string) : string :=
  match e with
  | Some reason => if Js.truthy_str reason then reason else fallback
  | None => fallback
  end.

(** [handlePairingRequestMessage]; [token] is
    [message.data.pairingToken]. *)
Definition handlePairingRequestMessage (tPair tMessage : Z) (ent : Entropy)
    (s : ControlServer) (connection : WebSocketWithId)
    (token : option string) : ControlServer :=
  match deviceId connection with
  | Some devId =>
      if negb (Js.truthy_str devId) then
        sendMessage s connection
          (createErrorMessage tMessage (controllerId s) CONTROLLER
             ERROR_CODES.INVALID_MESSAGE "Device not registered")
      else
        match token with
        | Some pairingToken =>
            if negb (Js.truthy_str pairingToken) then
              sendMessage s connection
                (createErrorMessage tMessage (controllerId s) CONTROLLER
                   ERROR_CODES.INVALID_MESSAGE "Missing pairing token")
            else
              let '(r', result) :=
                Registry.pairDevice tPair ent (deviceRegistry s)
                  devId pairingToken in
              if negb (Registry.success result) then
                sendMessage (with_registry s r') connection
                  (createErrorMessage tMessage (controllerId s) CONTROLLER
                     ERROR_CODES.AUTHENTICATION_FAILED
                     (errorOrDefault (Registry.error result) "Pairing failed"))
              else
                sendMessage (with_registry s r') connection
                  (createBaseMessage tMessage MESSAGE_TYPES.PAIRING_RESPONSE
                     (controllerId s) CONTROLLER
                     (PairingResponseData true
                        (Registry.device result ≫= Registry.authToken)
                        None))
        | None =>
            sendMessage s connection
              (createErrorMessage tMessage (controllerId s) CONTROLLER
                 ERROR_CODES.INVALID_MESSAGE "Missing pairing token")
        end
  | None =>
      sendMessage s connection
        (createErrorMessage tMessage (controllerId s) CONTROLLER
           ERROR_CODES.INVALID_MESSAGE "Device not registered")
  end.

(** [options.repeat || 1], [options.holdTime || 0] *)
Definition numberOr (o : option Z) (fallback : Z) : Z :=
  match o with
  | Some n => if Js.truthy_num n then n else fallback
  | None => fallback
  end.

Definition commandTypeOf (direction : Direction) : string :=
  match direction with
  | left => COMMAND_TYPES.ARROW_LEFT
  | right => COMMAND_TYPES.ARROW_RIGHT
  end.

(** [sendArrowCommand]; [transportError] is the error, if any, that the
    socket reports for the write. *)
Definition sendArrowCommand (now : Z) (s : ControlServer) (devId : string)
    (direction : Direction) (repeat holdTime : option Z)
    (transportError : option string) : ControlServer * Outcome :=
  match Registry.getDeviceById (deviceRegistry s) devId with
  | None => (s, Rejected "Device not found")
  | Some device =>
      if bool_decide (Registry.status device ≠ CONNECTED)
         && bool_decide (Registry.status device ≠ PAIRED) then
        (s, Rejected "Device not connected")
      else if negb (Registry.paired device) then
        (s, Rejected "Device not paired")
      else
        let commandType := commandTypeOf direction in
        if negb (bool_decide
                   (commandType ∈ supportedCommands (Registry.deviceInfo device)))
        then
          (s, Rejected (String.append "Device does not support command: "
                          commandType))
        else
          match getConnectionByDeviceId s devId with
          | None => (s, Rejected "No active connection for device")
          | Some connection =>
              let commandMessage :=
                createBaseMessage now MESSAGE_TYPES.COMMAND
                  (controllerId s) CONTROLLER
                  (CommandData commandType direction
                     (numberOr repeat 1) (numberOr holdTime 0)) in
              (sendMessage s connection commandMessage,
               match transportError with
               | Some e => Rejected e
               | None => Resolved true
               end)
          end
  end.

(** [handleHeartbeatMessage]; the clock readings are those of the
    handler, of [updateDeviceLastSeen] and of [createBaseMessage]. *)
Definition handleHeartbeatMessage (tActivity tSeen tMessage : Z)
    (s : ControlServer) (connection : WebSocketWithId) : ControlServer :=
  let connection' :=
    {| connectionId := connectionId connection;
       deviceId := deviceId connection;
       isAlive := true;
       lastActivity := tActivity |} in
  let s1 := writeBack s connection' in
  let r :=
    match deviceId connection' with
    | Some d =>
        if Js.truthy_str d
        then (Registry.updateDeviceLastSeen tSeen (deviceRegistry s1) d).1
        else deviceRegistry s1
    | None => deviceRegistry s1
    end in
  sendMessage (with_registry s1 r) connection'
    (createBaseMessage tMessage MESSAGE_TYPES.HEARTBEAT_ACK
       (controllerId s) CONTROLLER EmptyData).

(** What a liveness sweep did to the sockets: the connections it
    terminated and the connections it pinged, by connection id, in the
    order of the sweep. *)
Record Sweep := mkSweep {
  swept : list WebSocketWithId;
  terminated : list string;
  pinged : list string
}.

(** One turn of the loop of [pingConnections]; [pingThrows] tells for
    which connections [connection.ping()] throws. *)
Definition pingStep (pingThrows : string → bool) (acc : Sweep)
    (connection : WebSocketWithId) : Sweep :=
  if negb (isAlive connection) then
    {| swept := swept acc ++ [connection];
       terminated := terminated acc ++ [connectionId connection];
       pinged := pinged acc |}
  else
    let connection' :=
      {| connectionId := connectionId connection;
         deviceId := deviceId connection;
         isAlive := false;
         lastActivity := lastActivity connection |} in
    if pingThrows (connectionId connection) then
      {| swept := swept acc ++ [connection'];
         terminated := terminated acc ++ [connectionId connection];
         pinged := pinged acc |}
    else
      {| swept := swept acc ++ [connection'];
         terminated := terminated acc;
         pinged := pinged acc ++ [connectionId connection] |}.

(** [pingConnections]: the server afterwards, and what happened to the
    sockets.  A terminated socket stays in the table until its close
    event runs [handleClose]. *)
Definition pingConnections (pingThrows : string → bool) (s : ControlServer)
    : ControlServer * Sweep :=
  let sweep :=
    foldl (pingStep pingThrows)
      {| swept := []; terminated := []; pinged := [] |} (connections s) in
  ({| controllerId := controllerId s;
      connections := swept sweep;
      deviceRegistry := deviceRegistry s;
      sent := sent s |},
   sweep).

(** The [pong] handler of a connection. *)
Definition handlePong (now : Z) (s : ControlServer)
    (connection : WebSocketWithId) : ControlServer :=
  writeBack s
    {| connectionId := connectionId connection;
       deviceId := deviceId connection;
       isAlive := true;
       lastActivity := now |}.

(** The message handlers that [handleMessage] dispatches to. *)
Inductive Handler :=
  | RegisterMessage
  | PairingRequestMessage
  | CommandResultMessage
  | HeartbeatMessage.

Section Dispatch.

(** The handlers as [handleMessage] sees them: given the server, the
    connection and the validated message, a handler returns the server it
    leaves and whether it threw.  [templateString] is the text that a
    template literal produces for a value. *)
Variable handlers :
  Handler → ControlServer → WebSocketWithId → JsValue → ControlServer * bool.
Variable templateString : JsValue → string.

(** The [switch] of [handleMessage]. *)
Definition handlerFor (type : JsValue) : option Handler :=
  match type with
  | JsStr t =>
      if String.eqb t MESSAGE_TYPES.REGISTER then Some RegisterMessage
      else if String.eqb t MESSAGE_TYPES.PAIRING_REQUEST
      then Some PairingRequestMessage
      else if String.eqb t MESSAGE_TYPES.COMMAND_RESULT
      then Some CommandResultMessage
      else if String.eqb t MESSAGE_TYPES.HEARTBEAT then Some HeartbeatMessage
      else None
  | _ => None
  end.

(** [handleMessage]; [parsed] is what [JSON.parse] made of the frame,
    [None] when it threw. *)
Definition handleMessage (tMessage : Z) (s : ControlServer)
    (connection : WebSocketWithId) (parsed : option JsValue) : ControlServer :=
  let invalidFormat :=
    sendMessage s connection
      (createErrorMessage tMessage (controllerId s) CONTROLLER
         ERROR_CODES.INVALID_MESSAGE "Invalid message format") in
  match parsed with
  | None => invalidFormat
  | Some message =>
      if negb (truthy message) then invalidFormat
      else
        match validateMessage message with
        | None =>
            sendMessage s connection
              (createErrorMessage tMessage (controllerId s) CONTROLLER
                 ERROR_CODES.INTERNAL_ERROR "Internal server error")
        | Some validation =>
            if negb (valid validation) then
              sendMessage s connection
                (createErrorMessage tMessage (controllerId s) CONTROLLER
                   ERROR_CODES.INVALID_MESSAGE
                   (default "Internal error" (error validation)))
            else
              match get_prop message "type" ≫= handlerFor with
              | Some h =>
                  let '(s', threw) := handlers h s connection message in
                  if threw then
                    sendMessage s' connection
                      (createErrorMessage tMessage (controllerId s') CONTROLLER
                         ERROR_CODES.INTERNAL_ERROR "Internal server error")
                  else s'
              | None =>
                  sendMessage s connection
                    (createErrorMessage tMessage (controllerId s) CONTROLLER
                       ERROR_CODES.INVALID_MESSAGE
                       (String.append "Unsupported message type: "
                          (templateString
                             (default JsUndefined (get_prop message "type")))))
              end
        end
  end.

End Dispatch.

End Server.

(** ** The simplified control client (class SimplifiedControlClient)

    The client runs on an event loop.  Its timers ([setTimeout],
    [setInterval]) and the sockets it has opened are part of the state;
    the events of the loop (a timer fires, a socket opens, fails or
    closes) are the functions [fireTimer], [onOpen], [onError] and
    [onClose].  The frames the client writes are not recorded. *)

Module Client.

Inductive LogEntry :=
  | AlreadyConnected         (* warn: Already connected to a controller *)
  | Connecting               (* info: Connecting to controller at ip:port *)
  | Connected                (* info: Connected to controller *)
  | Disconnected             (* info: Disconnected from controller *)
  | WebSocketError           (* error: WebSocket error *)
  | ErrorConnecting          (* error: Error connecting to controller *)
  | ErrorAutoConnecting      (* error: Error auto-connecting *)
  | SchedulingReconnect (backoffTime : Z)
                             (* info: Scheduling reconnect attempt in ..ms *)
  | MaxReconnectReached      (* warn: Max reconnect attempts reached, giving up *)
  | ReconnectAttempt (n : Z) (* info: Reconnect attempt n *)
  | ReconnectFailed.         (* error: Reconnect attempt failed *)

Inductive TimerTask :=
  | ReconnectTask    (* the callback of scheduleReconnect, run once *)
  | HeartbeatTask.   (* sendHeartbeat, run at every interval *)

#[global] Instance TimerTask_eq_dec : EqDecision TimerTask.
Proof. solve_decision. Defined.

(** A pending timer of the event loop. *)
Record Timer := mkTimer {
  handle : nat;
  task : TimerTask;
  delay : Z
}.

(** Who holds the promise returned by a [connect] call: the reconnect
    callback, whose [catch] schedules the next attempt, or anyone else
    (the constructor, the application), whose [catch] does not. *)
Inductive Caller := ByReconnect | ByOther.

(** A socket created by [connect], with the promise of that call. *)
Record Socket := mkSocket {
  sock : nat;
  caller : Caller;
  settled : bool
}.

Record ControlClient := mkClient {
  (* options *)
  autoConnect : bool;
  heartbeatInterval : Z;
  (* fields *)
  controllerInfo : option (string * Z);
  ws : option nat;
  heartbeatIntervalId : option nat;
  reconnectTimeoutId : option nat;
  reconnectAttempts : Z;
  maxReconnectAttempts : Z;
  status : ConnectionStatus;
  (* event loop *)
  timers : list Timer;
  nextHandle : nat;
  sockets : list Socket;
  log : list LogEntry
}.

(** The state the constructor leaves before it auto-connects. *)
Definition initial (autoConnect : bool) (controllerIp : string)
    (controllerPort : Z) : ControlClient :=
  {| autoConnect := autoConnect;
     heartbeatInterval := WS_PING_INTERVAL;
     controllerInfo := Some (controllerIp, controllerPort);
     ws := None;
     heartbeatIntervalId := None;
     reconnectTimeoutId := None;
     reconnectAttempts := 0;
     maxReconnectAttempts := 10;
     status := DISCONNECTED;
     timers := [];
     nextHandle := 0%nat;
     sockets := [];
     log := [] |}.

Definition logged (e : LogEntry) (c : ControlClient) : ControlClient :=
  {| autoConnect := autoConnect c;
     heartbeatInterval := heartbeatInterval c;
     controllerInfo := controllerInfo c;
     ws := ws c;
     heartbeatIntervalId := heartbeatIntervalId c;
     reconnectTimeoutId := reconnectTimeoutId c;
     reconnectAttempts := reconnectAttempts c;
     maxReconnectAttempts := maxReconnectAttempts c;
     status := status c;
     timers := timers c;
     nextHandle := nextHandle c;
     sockets := sockets c;
     log := log c ++ [e] |}.

(** [clearTimeout(h)] / [clearInterval(h)] *)
Definition clearTimer (h : nat) (ts : list Timer) : list Timer :=
  filter (λ t, handle t ≠ h) ts.

(** The promise of socket [k] settles (a settled promise stays as it is). *)
Definition settle (k : nat) (ss : list Socket) : list Socket :=
  map (λ s, if Nat.eqb (sock s) k
            then {| sock := sock s; caller := caller s; settled := true |}
            else s) ss.

Definition stopHeartbeat (c : ControlClient) : ControlClient :=
  match heartbeatIntervalId c with
  | Some h =>
      {| autoConnect := autoConnect c;
         heartbeatInterval := heartbeatInterval c;
         controllerInfo := controllerInfo c;
         ws := ws c;
         heartbeatIntervalId := None;
         reconnectTimeoutId := reconnectTimeoutId c;
         reconnectAttempts := reconnectAttempts c;
         maxReconnectAttempts := maxReconnectAttempts c;
         status := status c;
         timers := clearTimer h (timers c);
         nextHandle := nextHandle c;
         sockets := sockets c;
         log := log c |}
  | None => c
  end.

Definition startHeartbeat (c : ControlClient) : ControlClient :=
  let cleared :=
    match heartbeatIntervalId c with
    | Some h => clearTimer h (timers c)
    | None => timers c
    end in
  {| autoConnect := autoConnect c;
     heartbeatInterval := heartbeatInterval c;
     controllerInfo := controllerInfo c;
     ws := ws c;
     heartbeatIntervalId := Some (nextHandle c);
     reconnectTimeoutId := reconnectTimeoutId c;
     reconnectAttempts := reconnectAttempts c;
     maxReconnectAttempts := maxReconnectAttempts c;
     status := status c;
     timers := cleared ++ [ {| handle := nextHandle c; task := HeartbeatTask;
                               delay := heartbeatInterval c |} ];
     nextHandle := S (nextHandle c);
     sockets := sockets c;
     log := log c |}.

(** [Math.min(1000 * Math.pow(2, this.reconnectAttempts), 30000)] *)
Definition backoffTime (attempts : Z) : Z :=
  Z.min (1000 * 2 ^ attempts) 30000.

Definition scheduleReconnect (c : ControlClient) : ControlClient :=
  let cleared :=
    match reconnectTimeoutId c with
    | Some h => clearTimer h (timers c)
    | None => timers c
    end in
  let backoff := backoffTime (reconnectAttempts c) in
  {| autoConnect := autoConnect c;
     heartbeatInterval := heartbeatInterval c;
     controllerInfo := controllerInfo c;
     ws := ws c;
     heartbeatIntervalId := heartbeatIntervalId c;
     reconnectTimeoutId := Some (nextHandle c);
     reconnectAttempts := reconnectAttempts c;
     maxReconnectAttempts := maxReconnectAttempts c;
     status := status c;
     timers := cleared ++ [ {| handle := nextHandle c; task := ReconnectTask;
                               delay := backoff |} ];
     nextHandle := S (nextHandle c);
     sockets := sockets c;
     log := log c ++ [SchedulingReconnect backoff] |}.

Definition handleDisconnection (c : ControlClient) : ControlClient :=
  let c1 := stopHeartbeat c in
  let c2 :=
    {| autoConnect := autoConnect c1;
       heartbeatInterval := heartbeatInterval c1;
       controllerInfo := controllerInfo c1;
       ws := None;
       heartbeatIntervalId := heartbeatIntervalId c1;
       reconnectTimeoutId := reconnectTimeoutId c1;
       reconnectAttempts := reconnectAttempts c1;
       maxReconnectAttempts := maxReconnectAttempts c1;
       status := DISCONNECTED;
       timers := timers c1;
       nextHandle := nextHandle c1;
       sockets := sockets c1;
       log := log c1 |} in
  if autoConnect c2 && bool_decide (is_Some (controllerInfo c2))
  then scheduleReconnect c2
  else c2.

(** What the holder of a rejected [connect] promise does. *)
Definition onRejected (who : Caller) (c : ControlClient) : ControlClient :=
  match who with
  | ByReconnect => scheduleReconnect (logged ReconnectFailed c)
  | ByOther => logged ErrorAutoConnecting c
  end.

(** [connect(ip, port)] called by [who]; [throws] tells whether
    [new WebSocket(..)] throws. *)
Definition connect (who : Caller) (throws : bool) (ipAddr : string)
    (port : Z) (c : ControlClient) : ControlClient :=
  match ws c with
  | Some _ => logged AlreadyConnected c
  | None =>
      let c1 :=
        {| autoConnect := autoConnect c;
           heartbeatInterval := heartbeatInterval c;
           controllerInfo := Some (ipAddr, port);
           ws := ws c;
           heartbeatIntervalId := heartbeatIntervalId c;
           reconnectTimeoutId := reconnectTimeoutId c;
           reconnectAttempts := reconnectAttempts c;
           maxReconnectAttempts := maxReconnectAttempts c;
           status := CONNECTING;
           timers := timers c;
           nextHandle := nextHandle c;
           sockets := sockets c;
           log := log c ++ [Connecting] |} in
      if throws then
        onRejected who (handleDisconnection (logged ErrorConnecting c1))
      else
        {| autoConnect := autoConnect c1;
           heartbeatInterval := heartbeatInterval c1;
           controllerInfo := controllerInfo c1;
           ws := Some (length (sockets c1));
           heartbeatIntervalId := heartbeatIntervalId c1;
           reconnectTimeoutId := reconnectTimeoutId c1;
           reconnectAttempts := reconnectAttempts c1;
           maxReconnectAttempts := maxReconnectAttempts c1;
           status := status c1;
           timers := timers c1;
           nextHandle := nextHandle c1;
           sockets := sockets c1 ++ [ {| sock := length (sockets c1);
                                         caller := who; settled := false |} ];
           log := log c1 |}
  end.

(** The callback that [scheduleReconnect] hands to [setTimeout]. *)
Definition reconnectCallback (throws : bool) (c : ControlClient)
    : ControlClient :=
  let attempts := reconnectAttempts c + 1 in
  let c1 :=
    {| autoConnect := autoConnect c;
       heartbeatInterval := heartbeatInterval c;
       controllerInfo := controllerInfo c;
       ws := ws c;
       heartbeatIntervalId := heartbeatIntervalId c;
       reconnectTimeoutId := reconnectTimeoutId c;
       reconnectAttempts := attempts;
       maxReconnectAttempts := maxReconnectAttempts c;
       status := status c;
       timers := timers c;
       nextHandle := nextHandle c;
       sockets := sockets c;
       log := log c |} in
  if Z.ltb (maxReconnectAttempts c1) attempts then
    logged MaxReconnectReached c1
  else
    let c2 := logged (ReconnectAttempt attempts) c1 in
    match controllerInfo c2 with
    | Some (ipAddr, port) => connect ByReconnect throws ipAddr port c2
    | None => c2
    end.

(** Event: the pending timer [h] fires.  A timeout leaves the loop
    before its callback runs; an interval stays. *)
Definition fireTimer (h : nat) (throws : bool) (c : ControlClient)
    : ControlClient :=
  match List.find (λ t, Nat.eqb (handle t) h) (timers c) with
  | Some t =>
      match task t with
      | ReconnectTask =>
          reconnectCallback throws
            {| autoConnect := autoConnect c;
               heartbeatInterval := heartbeatInterval c;
               controllerInfo := controllerInfo c;
               ws := ws c;
               heartbeatIntervalId := heartbeatIntervalId c;
               reconnectTimeoutId := reconnectTimeoutId c;
               reconnectAttempts := reconnectAttempts c;
               maxReconnectAttempts := maxReconnectAttempts c;
               status := status c;
               timers := clearTimer h (timers c);
               nextHandle := nextHandle c;
               sockets := sockets c;
               log := log c |}
      | HeartbeatTask => c
      end
  | None => c
  end.

(** Event: socket [k] opens. *)
Definition onOpen (k : nat) (c : ControlClient) : ControlClient :=
  let c1 := logged Connected c in
  let c2 :=
    startHeartbeat
      {| autoConnect := autoConnect c1;
         heartbeatInterval := heartbeatInterval c1;
         controllerInfo := controllerInfo c1;
         ws := ws c1;
         heartbeatIntervalId := heartbeatIntervalId c1;
         reconnectTimeoutId := reconnectTimeoutId c1;
         reconnectAttempts := reconnectAttempts c1;
         maxReconnectAttempts := maxReconnectAttempts c1;
         status := CONNECTED;
         timers := timers c1;
         nextHandle := nextHandle c1;
         sockets := sockets c1;
         log := log c1 |} in
  {| autoConnect := autoConnect c2;
     heartbeatInterval := heartbeatInterval c2;
     controllerInfo := controllerInfo c2;
     ws := ws c2;
     heartbeatIntervalId := heartbeatIntervalId c2;
     reconnectTimeoutId := reconnectTimeoutId c2;
     reconnectAttempts := 0;
     maxReconnectAttempts := maxReconnectAttempts c2;
     status := status c2;
     timers := timers c2;
     nextHandle := nextHandle c2;
     sockets := settle k (sockets c2);
     log := log c2 |}.

Definition withSockets (ss : list Socket) (c : ControlClient)
    : ControlClient :=
  {| autoConnect := autoConnect c;
     heartbeatInterval := heartbeatInterval c;
     controllerInfo := controllerInfo c;
     ws := ws c;
     heartbeatIntervalId := heartbeatIntervalId c;
     reconnectTimeoutId := reconnectTimeoutId c;
     reconnectAttempts := reconnectAttempts c;
     maxReconnectAttempts := maxReconnectAttempts c;
     status := status c;
     timers := timers c;
     nextHandle := nextHandle c;
     sockets := ss;
     log := log c |}.

(** Event: socket [k] closes ([resolve(false)] after the handler). *)
Definition onClose (k : nat) (c : ControlClient) : ControlClient :=
  let c1 := handleDisconnection (logged Disconnected c) in
  withSockets (settle k (sockets c1)) c1.

(** Event: socket [k] reports an error; [reject(error)] wakes the holder
    of the promise when the promise is not settled yet. *)
Definition onError (k : nat) (c : ControlClient) : ControlClient :=
  let c1 := handleDisconnection (logged WebSocketError c) in
  match List.find (λ s, Nat.eqb (sock s) k) (sockets c1) with
  | Some s =>
      if settled s then c1
      else onRejected (caller s) (withSockets (settle k (sockets c1)) c1)
  | None => c1
  end.

(** One failed cycle: the pending reconnect timer fires and the
    connection attempt made by its callback fails, the socket reporting
    an error and then its close. *)
Definition failedCycle (c : ControlClient) : ControlClient :=
  match reconnectTimeoutId c with
  | Some h =>
      let c1 := fireTimer h false c in
      match ws c1 with
      | Some k => onClose k (onError k c1)
      | None => c1
      end
  | None => c
  end.

(** The ways a session ends without the client asking for it: the
    socket closes, it reports an error, or it reports an error and then
    closes. *)
Inductive Loss := ByClose | ByError | ByErrorThenClose.

Definition sessionLost (how : Loss) (k : nat) (c : ControlClient)
    : ControlClient :=
  match how with
  | ByClose => onClose k c
  | ByError => onError k c
  | ByErrorThenClose => onClose k (onError k c)
  end.

(** [disconnect()]; [closeThrows] tells whether [ws.close()] throws,
    in which case the socket stays in [ws] (the line logged for that
    error is not among the recorded entries). *)
Definition disconnect (closeThrows : bool) (c : ControlClient)
    : ControlClient :=
  let c1 :=
    match reconnectTimeoutId c with
    | Some h =>
        {| autoConnect := autoConnect c;
           heartbeatInterval := heartbeatInterval c;
           controllerInfo := controllerInfo c;
           ws := ws c;
           heartbeatIntervalId := heartbeatIntervalId c;
           reconnectTimeoutId := None;
           reconnectAttempts := reconnectAttempts c;
           maxReconnectAttempts := maxReconnectAttempts c;
           status := status c;
           timers := clearTimer h (timers c);
           nextHandle := nextHandle c;
           sockets := sockets c;
           log := log c |}
    | None => c
    end in
  let c2 := stopHeartbeat c1 in
  logged Disconnected
    {| autoConnect := autoConnect c2;
       heartbeatInterval := heartbeatInterval c2;
       controllerInfo := controllerInfo c2;
       ws := match ws c2 with
             | Some k => if closeThrows then Some k else None
             | None => None
             end;
       heartbeatIntervalId := heartbeatIntervalId c2;
       reconnectTimeoutId := reconnectTimeoutId c2;
       reconnectAttempts := reconnectAttempts c2;
       maxReconnectAttempts := maxReconnectAttempts c2;
       status := DISCONNECTED;
       timers := timers c2;
       nextHandle := nextHandle c2;
       sockets := sockets c2;
       log := log c2 |}.

End Client.

(** ** Frames on the wire

    [sendMessage] writes [JSON.stringify(message)] and the receiver reads
    the frame back with [JSON.parse]. *)

Module Json.

(** An integer as a JavaScript number. *)
Definition number (n : Z) : JsValue := JsNum (Finite n 0).

(** A property whose value is [undefined] is left out by
    [JSON.stringify]. *)
Definition optional (k : string) (o : option string)
    : list (string * JsValue) :=
  match o with
  | Some v => [(k, JsStr v)]
  | None => []
  end.

Definition Direction_value (d : Direction) : string :=
  match d with
  | left => "left"
  | right => "right"
  end.

(** [message.data] as the receiver reads it. *)
Definition payload (d : MessageData) : JsValue :=
  match d with
  | RegisteredData deviceId pairingRequired pairingToken =>
      JsObj ([("deviceId", JsStr deviceId);
              ("pairingRequired", JsBool pairingRequired)]
             ++ optional "pairingToken" pairingToken)
  | PairingResponseData accepted authToken error =>
      JsObj ([("accepted", JsBool accepted)]
             ++ optional "authToken" authToken ++ optional "error" error)
  | CommandData commandType direction repeat holdTime =>
      JsObj [("commandType", JsStr commandType);
             ("parameters",
              JsObj [("direction", JsStr (Direction_value direction));
                     ("repeat", number repeat);
                     ("holdTime", number holdTime)])]
  | ErrorData code message =>
      JsObj [("code", number code); ("message", JsStr message)]
  | EmptyData => JsObj []
  end.

(** What [JSON.parse] makes of the frame written for [m]. *)
Definition received (m : ProtocolMessage) : JsValue :=
  JsObj [("type", JsStr (msg_type m));
         ("version", JsStr (version m));
         ("timestamp", number (timestamp m));
         ("sender",
          JsObj [("id", JsStr (sender_id m));
                 ("type", JsStr (DeviceType_value (sender_type m)))]);
         ("data", payload (data m))].

End Json.

(** ** The simplified control client: the protocol

    The fields that the message handlers of [SimplifiedControlClient]
    read and write, the frames the client hands to [ws.send], the events
    it emits and the promises of [sendPairingRequest].  Listeners of the
    events, other than the one [sendPairingRequest] installs, are outside
    the model. *)

Module Target.

(** The payloads the target writes. *)
Inductive Payload :=
  | RegisterData (deviceInfo : DeviceInfo)
  | PairingRequestData (pairingToken : string)
  | CommandResultData (commandType : option string) (success : bool)
      (error : option string).

Record Frame := mkFrame {
  frame_type : string;
  frame_version : string;
  frame_timestamp : Z;
  frame_sender_id : string;
  frame_sender_type : DeviceType;
  frame_data : Payload
}.

(** [{ ...createBaseMessage(type, senderId, DeviceType.TARGET), data }] *)
Definition createFrame (now : Z) (type : string) (senderId : string)
    (d : Payload) : Frame :=
  {| frame_type := type;
     frame_version := PROTOCOL_VERSION;
     frame_timestamp := now;
     frame_sender_id := senderId;
     frame_sender_type := TARGET;
     frame_data := d |}.

Inductive Event :=
  | StatusChanged (status : ConnectionStatus)
  | PairingRequired (pairingToken : option string)
  | Registered
  | PairingResult (success : bool) (error : option string)
  | Command (commandType : string) (direction : Direction)
      (repeat holdTime : Z) (success : bool)
  | ControllerError (code : option Z) (message : option string).

(** [socketOpen] is [this.ws && this.ws.readyState === WebSocket.OPEN];
    [waiters] counts the promises of [sendPairingRequest] that listen
    for the next pairingResult event, and [settled] lists, oldest first,
    how the promises that did listen were settled. *)
Record Session := mkSession {
  deviceInfo : DeviceInfo;
  status : ConnectionStatus;
  authToken : option string;
  pairingToken : option string;
  socketOpen : bool;
  outbox : list Frame;
  waiters : nat;
  settled : list Server.Outcome;
  emitted : list Event
}.

Definition emit (e : Event) (c : Session) : Session :=
  {| deviceInfo := deviceInfo c;
     status := status c;
     authToken := authToken c;
     pairingToken := pairingToken c;
     socketOpen := socketOpen c;
     outbox := outbox c;
     waiters := waiters c;
     settled := settled c;
     emitted := emitted c ++ [e] |}.

(** [this.emit('pairingResult', result)]: every listener installed by
    [sendPairingRequest] runs once and settles its promise. *)
Definition emitPairingResult (success : bool) (error : option string)
    (c : Session) : Session :=
  let outcome :=
    if success then Server.Resolved true
    else Server.Rejected (Server.errorOrDefault error "Pairing failed") in
  {| deviceInfo := deviceInfo c;
     status := status c;
     authToken := authToken c;
     pairingToken := pairingToken c;
     socketOpen := socketOpen c;
     outbox := outbox c;
     waiters := 0;
     settled := settled c ++ replicate (waiters c) outcome;
     emitted := emitted c ++ [PairingResult success error] |}.

Definition with_status (st : ConnectionStatus) (c : Session) : Session :=
  {| deviceInfo := deviceInfo c;
     status := st;
     authToken := authToken c;
     pairingToken := pairingToken c;
     socketOpen := socketOpen c;
     outbox := outbox c;
     waiters := waiters c;
     settled := settled c;
     emitted := emitted c |}.

Definition with_tokens (auth pairing : option string) (c : Session)
    : Session :=
  {| deviceInfo := deviceInfo c;
     status := status c;
     authToken := auth;
     pairingToken := pairing;
     socketOpen := socketOpen c;
     outbox := outbox c;
     waiters := waiters c;
     settled := settled c;
     emitted := emitted c |}.

(** [this.ws.send(JSON.stringify(message))] inside a [try] whose [catch]
    only logs; [sendError] is the error, if any, that [send] throws. *)
Definition send (sendError : option string) (f : Frame) (c : Session)
    : Session :=
  match sendError with
  | Some _ => c
  | None =>
      {| deviceInfo := deviceInfo c;
         status := status c;
         authToken := authToken c;
         pairingToken := pairingToken c;
         socketOpen := socketOpen c;
         outbox := outbox c ++ [f];
         waiters := waiters c;
         settled := settled c;
         emitted := emitted c |}
  end.

Definition sendRegistration (now : Z) (sendError : option string)
    (c : Session) : Session :=
  if negb (socketOpen c) then c
  else
    send sendError
      (createFrame now MESSAGE_TYPES.REGISTER (id (deviceInfo c))
         (RegisterData (deviceInfo c)))
      c.

(** [sendPairingRequest]: the session afterwards and how the promise is
    settled at once, [None] when it waits for the pairingResult event. *)
Definition sendPairingRequest (now : Z) (sendError : option string)
    (c : Session) : Session * option Server.Outcome :=
  if negb (socketOpen c) then
    (c, Some (Server.Rejected "Not connected to controller"))
  else
    match pairingToken c with
    | Some token =>
        if negb (Js.truthy_str token) then
          (c, Some (Server.Rejected "No pairing token available"))
        else
          match sendError with
          | Some e => (c, Some (Server.Rejected e))
          | None =>
              ({| deviceInfo := deviceInfo c;
                  status := status c;
                  authToken := authToken c;
                  pairingToken := pairingToken c;
                  socketOpen := socketOpen c;
                  outbox :=
                    outbox c
                    ++ [createFrame now MESSAGE_TYPES.PAIRING_REQUEST
                          (id (deviceInfo c)) (PairingRequestData token)];
                  waiters := S (waiters c);
                  settled := settled c;
                  emitted := emitted c |},
               None)
          end
    | None => (c, Some (Server.Rejected "No pairing token available"))
    end.

Definition sendCommandResult (now : Z) (sendError : option string)
    (commandType : option string) (success : bool) (error : option string)
    (c : Session) : Session :=
  if negb (socketOpen c) then c
  else
    send sendError
      (createFrame now MESSAGE_TYPES.COMMAND_RESULT (id (deviceInfo c))
         (CommandResultData commandType success error))
      c.

(** [handleRegisteredMessage]; [d] is [message.data].  A payload of
    another shape has no [deviceId]. *)
Definition handleRegisteredMessage (c : Session) (d : MessageData)
    : Session :=
  match d with
  | RegisteredData deviceId pairingRequired pairingToken =>
      if negb (String.eqb deviceId (id (deviceInfo c))) then c
      else if pairingRequired then
        emit (StatusChanged CONNECTED)
          (emit (PairingRequired pairingToken)
             (with_tokens (authToken c) pairingToken
                (with_status CONNECTED c)))
      else
        emit (StatusChanged PAIRED) (emit Registered (with_status PAIRED c))
  | _ => c
  end.

(** [handlePairingResponseMessage].  A payload of another shape has no
    [accepted] and no [error]. *)
Definition handlePairingResponseMessage (c : Session) (d : MessageData)
    : Session :=
  match d with
  | PairingResponseData accepted authToken error =>
      if accepted then
        emitPairingResult true None
          (emit (StatusChanged PAIRED)
             (with_status PAIRED (with_tokens authToken (pairingToken c) c)))
      else emitPairingResult false error c
  | _ => emitPairingResult false None c
  end.

(** [handleCommandMessage]; [onArrowCommand] is the executor of the
    options, [None] when its promise is rejected, and [c] is the session
    at the time the result is written. *)
Definition handleCommandMessage (now : Z) (sendError : option string)
    (onArrowCommand : Direction → Z → Z → option bool) (c : Session)
    (d : MessageData) : Session :=
  match d with
  | CommandData commandType _ repeat holdTime =>
      if negb (bool_decide (commandType ∈ supportedCommands (deviceInfo c)))
      then
        sendCommandResult now sendError (Some commandType) false
          (Some "Unsupported command") c
      else if String.eqb commandType COMMAND_TYPES.ARROW_LEFT
              || String.eqb commandType COMMAND_TYPES.ARROW_RIGHT then
        let direction :=
          if String.eqb commandType COMMAND_TYPES.ARROW_LEFT
          then left else right in
        let repeat' := Server.numberOr (Some repeat) 1 in
        let holdTime' := Server.numberOr (Some holdTime) 0 in
        match onArrowCommand direction repeat' holdTime' with
        | Some true =>
            emit (Command commandType direction repeat' holdTime' true)
              (sendCommandResult now sendError (Some commandType) true None c)
        | Some false =>
            emit (Command commandType direction repeat' holdTime' false)
              (sendCommandResult now sendError (Some commandType) false
                 (Some "Command execution failed") c)
        | None =>
            sendCommandResult now sendError (Some commandType) false
              (Some "Internal error") c
        end
      else
        sendCommandResult now sendError (Some commandType) false
          (Some "Unhandled command") c
  | _ =>
      sendCommandResult now sendError None false (Some "Unsupported command") c
  end.

(** [handleErrorMessage].  A payload of another shape has no [code]. *)
Definition handleErrorMessage (c : Session) (d : MessageData) : Session :=
  match d with
  | ErrorData code message =>
      let c1 := emit (ControllerError (Some code) (Some message)) c in
      if Z.eqb code ERROR_CODES.AUTHENTICATION_FAILED then
        let c2 := with_tokens None None c1 in
        if bool_decide (status c2 = PAIRED)
        then emit (StatusChanged CONNECTED) (with_status CONNECTED c2)
        else c2
      else if Z.eqb code ERROR_CODES.NOT_PAIRED then
        if bool_decide (status c1 = PAIRED)
        then emit (StatusChanged CONNECTED) (with_status CONNECTED c1)
        else c1
      else c1
  | _ => emit (ControllerError None None) c
  end.

(** [handleMessage] for the frame that the controller wrote for [m]. *)
Definition handleMessage (now : Z) (sendError : option string)
    (onArrowCommand : Direction → Z → Z → option bool) (c : Session)
    (m : ProtocolMessage) : Session :=
  match validateMessage (Json.received m) with
  | Some validation =>
      if negb (valid validation) then c
      else if String.eqb (msg_type m) MESSAGE_TYPES.REGISTERED then
        handleRegisteredMessage c (data m)
      else if String.eqb (msg_type m) MESSAGE_TYPES.PAIRING_RESPONSE then
        handlePairingResponseMessage c (data m)
      else if String.eqb (msg_type m) MESSAGE_TYPES.COMMAND then
        handleCommandMessage now sendError onArrowCommand c (data m)
      else if String.eqb (msg_type m) MESSAGE_TYPES.HEARTBEAT_ACK then c
      else if String.eqb (msg_type m) MESSAGE_TYPES.ERROR then
        handleErrorMessage c (data m)
      else c
  | None => c
  end.

End Target.

(** ** The controller application (class ControllerApp) *)

Module App.

(** [ControllerApp.sendArrowCommand]: the promise of the server awaited
    inside a [try] whose [catch] logs and returns [false]. *)
Definition sendArrowCommand (now : Z) (s : Server.ControlServer)
    (devId : string) (direction : Direction) (repeat holdTime : option Z)
    (transportError : option string) : Server.ControlServer * bool :=
  let '(s', outcome) :=
    Server.sendArrowCommand now s devId direction repeat holdTime
      transportError in
  (s', match outcome with
       | Server.Resolved value => value
       | Server.Rejected _ => false
       end).

End App.

(** ** src/controller/networkScanner.ts *)

Module Scanner.

(** A host as [find()] of local-devices reports it. *)
Record Host := mkHost {
  host_ip : string;
  host_mac : option string;
  host_name : option string
}.

Record DiscoveredDevice := mkDiscovered {
  ip : string;
  mac : option string;
  name : option string;
  lastSeen : Z
}.

Inductive Event :=
  | NewDevice (ip mac name : string)
  | DevicesUpdated (devices : list DiscoveredDevice)
  | DeviceLost (ip : string) (mac name : option string).

(** The [discoveredDevices] map, its entries in insertion order. *)
Abbreviation Discovered := (list (string * DiscoveredDevice)).

(** [map.set(k, v)] *)
Fixpoint map_set (m : Discovered) (k : string) (v : DiscoveredDevice)
    : Discovered :=
  match m with
  | [] => [(k, v)]
  | (k', v') :: rest =>
      if String.eqb k' k then (k, v) :: rest
      else (k', v') :: map_set rest k v
  end.

(** [map.has(k)] *)
Definition map_has (m : Discovered) (k : string) : bool :=
  existsb (λ e, String.eqb e.1 k) m.

(** [map.get(k)] *)
Definition map_get (m : Discovered) (k : string) : option DiscoveredDevice :=
  snd <$> List.find (λ e, String.eqb e.1 k) m.

(** [map.delete(k)] *)
Definition map_delete (m : Discovered) (k : string) : Discovered :=
  filter (λ e, e.1 ≠ k) m.

(** [getDiscoveredDevices] *)
Definition getDiscoveredDevices (m : Discovered) : list DiscoveredDevice :=
  snd <$> m.

(** One turn of [devices.forEach] in [scanNetwork]. *)
Definition recordHost (currentTime : Z) (acc : Discovered * list Event)
    (host : Host) : Discovered * list Event :=
  let ip := host_ip host in
  let mac := default "" (host_mac host) in
  let name := default "" (host_name host) in
  let m :=
    map_set acc.1 ip
      {| ip := ip;
         mac := Some mac;
         name := if negb (String.eqb name "?") then Some name else None;
         lastSeen := currentTime |} in
  (m, if negb (map_has m ip) then acc.2 ++ [NewDevice ip mac name]
      else acc.2).

(** One turn of the clean-up loop of [scanNetwork]. *)
Definition expire (expirationTime : Z) (acc : Discovered * list Event)
    (entry : string * DiscoveredDevice) : Discovered * list Event :=
  if Z.ltb (lastSeen entry.2) expirationTime then
    (map_delete acc.1 entry.1,
     acc.2 ++ [DeviceLost entry.1 (mac entry.2) (name entry.2)])
  else acc.

(** [scanNetwork] once [find()] has answered with [found]: the map
    afterwards and the events emitted, oldest first.  The broadcast
    announcement that follows is not part of the model. *)
Definition scanNetwork (currentTime : Z) (found : list Host) (m : Discovered)
    : Discovered * list Event :=
  let recorded := foldl (recordHost currentTime) (m, []) found in
  let updated :=
    recorded.2 ++ [DevicesUpdated (getDiscoveredDevices recorded.1)] in
  let expirationTime := currentTime - 5 * 60 * 1000 in
  foldl (expire expirationTime) (recorded.1, updated) recorded.1.

End Scanner.

(** ** Histories of the registry

    The registry states that exist are those a sequence of calls of the
    public operations builds from the empty registry. *)

Module History.

Inductive Call :=
  | RegisterDevice (now : Z) (ent : Entropy) (info : DeviceInfo)
      (requirePairing : bool)
  | ConnectDevice (now : Z) (deviceId connId : string)
  | DisconnectDevice (now : Z) (deviceId : string)
  | PairDevice (now : Z) (ent : Entropy) (deviceId token : string)
  | UnpairDevice (now : Z) (ent : Entropy) (deviceId : string)
  | RemoveDevice (deviceId : string)
  | UpdateDeviceLastSeen (now : Z) (deviceId : string)
  | CleanupOldDevices (now : Z) (maxAge : Z).

Definition step (r : Registry.DeviceRegistry) (call : Call)
    : Registry.DeviceRegistry :=
  match call with
  | RegisterDevice now ent info requirePairing =>
      (Registry.registerDevice now ent r info requirePairing).1
  | ConnectDevice now deviceId connId =>
      (Registry.connectDevice now r deviceId connId).1
  | DisconnectDevice now deviceId =>
      (Registry.disconnectDevice now r deviceId).1
  | PairDevice now ent deviceId token =>
      (Registry.pairDevice now ent r deviceId token).1
  | UnpairDevice now ent deviceId =>
      (Registry.unpairDevice now ent r deviceId).1
  | RemoveDevice deviceId => (Registry.removeDevice r deviceId).1
  | UpdateDeviceLastSeen now deviceId =>
      (Registry.updateDeviceLastSeen now r deviceId).1
  | CleanupOldDevices now maxAge =>
      (Registry.cleanupOldDevices now r maxAge).1
  end.

Definition run (calls : list Call) : Registry.DeviceRegistry :=
  foldl step Registry.empty calls.

(** What [Date.now()] returned during the call, when the call reads it. *)
Definition clock (call : Call) : option Z :=
  match call with
  | RegisterDevice now _ _ _ | ConnectDevice now _ _ | DisconnectDevice now _
  | PairDevice now _ _ _ | UnpairDevice now _ _
  | UpdateDeviceLastSeen now _ | CleanupOldDevices now _ => Some now
  | RemoveDevice _ => None
  end.

(** The clock does not read before the epoch. *)
Definition callAfterEpoch (call : Call) : Prop :=
  match clock call with
  | Some now => 0 ≤ now
  | None => True
  end.

Definition afterEpoch (calls : list Call) : Prop :=
  Forall callAfterEpoch calls.

End History.

(** ** The properties, in the words of the specification *)

Module WireSpec.

(** The value of a field, [undefined] when there is nothing to read. *)
Definition field (v : JsValue) (k : string) : JsValue :=
  default JsUndefined (get_prop v k).

Definition isObject (v : JsValue) : bool :=
  match v with
  | JsObj _ | JsArr _ => true
  | _ => false
  end.

Definition senderTypes : list string := ["controller"; "target"].

(** A constraint on a message and the text that cites it. *)
Record Constraint := mkConstraint {
  holds : JsValue → bool;
  citation : string
}.

(** The constraints of the envelope, in the order they are checked. *)
Definition constraints : list Constraint :=
  [ {| holds := isObject;
       citation := "Message must be an object" |};
    {| holds := λ m, truthy (field m "type") && truthy (field m "version")
                     && truthy (field m "timestamp")
                     && truthy (field m "sender");
       citation := "Message missing required fields" |};
    {| holds := λ m, truthy (field (field m "sender") "id")
                     && truthy (field (field m "sender") "type");
       citation := "Sender missing required fields" |};
    {| holds := λ m, match field (field m "sender") "type" with
                     | JsStr t => bool_decide (t ∈ senderTypes)
                     | _ => false
                     end;
       citation := "Invalid sender type" |} ].

Definition firstViolated (m : JsValue) : option Constraint :=
  List.find (λ c, negb (holds c m)) constraints.

Definition isString (v : JsValue) : bool :=
  match v with
  | JsStr _ => true
  | _ => false
  end.

Definition isNumber (v : JsValue) : bool :=
  match v with
  | JsNum (Finite _ _) => true
  | _ => false
  end.

(** Modelled from the spec: the envelope of a protocol message, [type],
    [version], [timestamp] and [sender{id, type}], where [version] is a
    semantic-version string.  A field is present when the message
    carries a value for it, and valid when the value is of the kind the
    envelope gives it: [type], [version] and [sender.id] are strings,
    [timestamp] is a number, [sender] is an object, and [sender.type] is
    "controller" or "target". *)
Definition presentAndValid (m : JsValue) : bool :=
  match m with
  | JsObj _ =>
      isString (field m "type") && isString (field m "version")
      && isNumber (field m "timestamp")
      && match field m "sender" with
         | JsObj _ =>
             isString (field (field m "sender") "id")
             && includes senderTypes (field (field m "sender") "type")
         | _ => false
         end
  | _ => false
  end.

End WireSpec.

Module CommandSpec.

Import Server.

(** A precondition of a command and the reason given when it fails. *)
Record Precondition := mkPrecondition {
  satisfied : ControlServer → string → Direction → bool;
  reason : Direction → string
}.

Definition whenKnown (s : ControlServer) (devId : string)
    (p : Registry.RegisteredDevice → bool) : bool :=
  match Registry.devices (deviceRegistry s) !! devId with
  | Some d => p d
  | None => false
  end.

(** The five preconditions of [sendArrowCommand], in order. *)
Definition preconditions : list Precondition :=
  [ {| satisfied := λ s devId _, whenKnown s devId (λ _, true);
       reason := λ _, "Device not found" |};
    {| satisfied := λ s devId _,
         whenKnown s devId
           (λ d, bool_decide (Registry.status d = CONNECTED
                              ∨ Registry.status d = PAIRED));
       reason := λ _, "Device not connected" |};
    {| satisfied := λ s devId _, whenKnown s devId Registry.paired;
       reason := λ _, "Device not paired" |};
    {| satisfied := λ s devId dir,
         whenKnown s devId
           (λ d, bool_decide
                   (commandTypeOf dir
                      ∈ supportedCommands (Registry.deviceInfo d)));
       reason := λ dir,
         String.append "Device does not support command: " (commandTypeOf dir) |};
    {| satisfied := λ s devId _,
         bool_decide (Exists (λ c, deviceId c = Some devId) (connections s));
       reason := λ _, "No active connection for device" |} ].

Definition firstFailing (s : ControlServer) (devId : string)
    (dir : Direction) : option Precondition :=
  List.find (λ p, negb (satisfied p s devId dir)) preconditions.

End CommandSpec.

Module ServerSpec.

Import Server.

(** The frames written by a handler that took the server from [s] to
    [s']. *)
Definition written (s s' : ControlServer)
    (frames : list (string * ProtocolMessage)) : Prop :=
  sent s' = sent s ++ frames.

(** The connections of the table that are bound to a device. *)
Definition boundTo (s : ControlServer) (devId : string)
    : list WebSocketWithId :=
  filter (λ c, deviceId c = Some devId) (connections s).

(** The reply the specification asks for when pairing fails. *)
Definition isPairingRejection (reason : string) (m : ProtocolMessage) : Prop :=
  msg_type m = MESSAGE_TYPES.PAIRING_RESPONSE
  ∧ data m = PairingResponseData false None (Some reason).

(** The reply the server gives when pairing fails. *)
Definition isAuthenticationError (reason : string) (m : ProtocolMessage)
    : Prop :=
  msg_type m = MESSAGE_TYPES.ERROR
  ∧ data m = ErrorData ERROR_CODES.AUTHENTICATION_FAILED reason.

End ServerSpec.

Module RegistrySpec.

Import Registry.

(** An optional string property that holds a non-empty string. *)
Definition nonEmpty (o : option string) : Prop :=
  ∃ t, o = Some t ∧ t ≠ "".

(** The secrets of a record are consistent: the record carries an auth
    token exactly when it is paired, and a pairing token it carries is
    not the empty string. *)
Definition sound (d : RegisteredDevice) : Prop :=
  Js.truthy_opt_str (authToken d) = paired d
  ∧ (pairingToken d = None ∨ nonEmpty (pairingToken d)).

(** A pairing token comes with an expiration, which lies after the
    epoch. *)
Definition dated (d : RegisteredDevice) : Prop :=
  match pairingExpiration d with
  | Some e => 0 < e
  | None => pairingToken d = None
  end.

(** Every record of the registry satisfies [P]. *)
Definition everyDevice (P : RegisteredDevice → Prop) (r : DeviceRegistry)
    : Prop :=
  map_Forall (λ _ d, P d) (devices r).

(** [keys] lists the ids of the registry, each once. *)
Definition listsKeys (keys : list string) (r : DeviceRegistry) : Prop :=
  keys ≡ₚ (map_to_list (devices r)).*1.

(** The record stored under [deviceId], when its paired flag is set and
    its status is paired. *)
Definition pairedAt (r : DeviceRegistry) (deviceId : string)
    : option RegisteredDevice :=
  d ← devices r !! deviceId;
  if bool_decide (paired d = true ∧ status d = PAIRED) then Some d else None.

End RegistrySpec.

Module ClientSpec.

Import Client.

(** The client owns its timers and numbers its sockets: every pending
    timer is the heartbeat interval or the reconnect timeout whose handle
    the client holds, and the sockets are numbered in the order of their
    creation. *)
Definition tracked (c : ControlClient) : Prop :=
  Forall (λ t, heartbeatIntervalId c = Some (handle t)
               ∨ reconnectTimeoutId c = Some (handle t)) (timers c)
  ∧ sock <$> sockets c = seq 0 (length (sockets c)).

(** The client waits to reconnect after [attempts] attempts: it is
    disconnected without a socket, and its only pending timer is the
    reconnect timeout, set to the backoff of [attempts]. *)
Definition waiting (c : ControlClient) (attempts : Z) : Prop :=
  autoConnect c = true
  ∧ is_Some (controllerInfo c)
  ∧ ws c = None
  ∧ status c = DISCONNECTED
  ∧ heartbeatIntervalId c = None
  ∧ reconnectAttempts c = attempts
  ∧ sock <$> sockets c = seq 0 (length (sockets c))
  ∧ ∃ h, reconnectTimeoutId c = Some h
         ∧ timers c = [ {| handle := h; task := ReconnectTask;
                           delay := Z.min (1000 * 2 ^ attempts) 30000 |} ].

(** The client has given up: nothing is pending and nothing is open. *)
Definition gaveUp (c : ControlClient) : Prop :=
  timers c = []
  ∧ ws c = None
  ∧ status c = DISCONNECTED
  ∧ last (log c) = Some MaxReconnectReached.

End ClientSpec.

Module RegistryShape.

Import Registry.

(** The connection state of a record is one of three: disconnected
    without a connection id; connected, unpaired, with a connection id;
    paired, with a connection id and the paired flag. *)
Definition connectionCoherent (d : RegisteredDevice) : Prop :=
  (status d = DISCONNECTED ∧ connectionId d = None)
  ∨ (status d = CONNECTED ∧ is_Some (connectionId d) ∧ paired d = false)
  ∨ (status d = PAIRED ∧ is_Some (connectionId d) ∧ paired d = true).

(** The record stored under [key] carries that id, its connection state
    is coherent, and once paired it has no pairing token left. *)
Definition coherent (key : string) (d : RegisteredDevice) : Prop :=
  id (deviceInfo d) = key
  ∧ connectionCoherent d
  ∧ (paired d = true → pairingToken d = None ∧ pairingExpiration d = None).

(** The devices that [cleanupOldDevices] removes. *)
Definition stale (cutoffTime : Z) (entry : string * RegisteredDevice) : Prop :=
  lastSeen entry.2 < cutoffTime.

#[global] Instance stale_dec cutoffTime entry : Decision (stale cutoffTime entry).
Proof. unfold stale. apply _. Defined.

End RegistryShape.

Module ServerShape.

Import Server.

(** A connection once a sweep has gone over it: not alive until it
    answers. *)
Definition silenced (c : WebSocketWithId) : WebSocketWithId :=
  {| connectionId := connectionId c;
     deviceId := deviceId c;
     isAlive := false;
     lastActivity := lastActivity c |}.

(** What a sweep does with a connection. *)
Definition sweepTerminates (pingThrows : string → bool)
    (c : WebSocketWithId) : Prop :=
  isAlive c = false ∨ pingThrows (connectionId c) = true.

Definition sweepPings (pingThrows : string → bool)
    (c : WebSocketWithId) : Prop :=
  isAlive c = true ∧ pingThrows (connectionId c) = false.

(** The part of a registry record that authorises commands. *)
Definition authorisation (d : Registry.RegisteredDevice)
    : ConnectionStatus * bool * option string * option string * option string :=
  (Registry.status d, Registry.paired d, Registry.authToken d,
   Registry.pairingToken d, Registry.connectionId d).

(** The reason for which [handleMessage] turns a frame down before any
    handler sees it, if it does: the frame is no JSON or a falsy value,
    it violates a constraint of the envelope, or no handler exists for
    its type. *)
Definition refusal (templateString : JsValue → string)
    (parsed : option JsValue) : option string :=
  match parsed with
  | None => Some "Invalid message format"
  | Some message =>
      if truthy message then
        match WireSpec.firstViolated message with
        | Some c => Some (WireSpec.citation c)
        | None =>
            let type := WireSpec.field message "type" in
            match handlerFor type with
            | Some _ => None
            | None =>
                Some (String.append "Unsupported message type: "
                        (templateString type))
            end
        end
      else Some "Invalid message format"
  end.

End ServerShape.

Module ClientShape.

Import Client.

(** What the event loop and the application do to a client: a pending
    timer fires, a socket opens, closes or reports an error, and the
    application calls [connect] or [disconnect]. *)
Inductive Event :=
  | TimerFires (h : nat) (throws : bool)
  | SocketOpens (k : nat)
  | SocketCloses (k : nat)
  | SocketFails (k : nat)
  | Connects (throws : bool) (ipAddr : string) (port : Z)
  | Disconnects (closeThrows : bool).

Definition step (c : ControlClient) (e : Event) : ControlClient :=
  match e with
  | TimerFires h throws => fireTimer h throws c
  | SocketOpens k => onOpen k c
  | SocketCloses k => onClose k c
  | SocketFails k => onError k c
  | Connects throws ipAddr port => connect ByOther throws ipAddr port c
  | Disconnects closeThrows => disconnect closeThrows c
  end.

Definition run (c : ControlClient) (events : list Event) : ControlClient :=
  foldl step c events.

(** Every pending timer is held by the client in the field of its kind,
    no two pending timers share a handle, and the handles still to be
    given out are fresh. *)
Definition ownedBy (hb rt : option nat) (next : nat) (ts : list Timer)
    : Prop :=
  (∀ t, t ∈ ts →
     (task t = HeartbeatTask ∧ hb = Some (handle t))
     ∨ (task t = ReconnectTask ∧ rt = Some (handle t)))
  ∧ NoDup (handle <$> ts)
  ∧ (∀ t, t ∈ ts → (handle t < next)%nat).

Definition owned (c : ControlClient) : Prop :=
  ownedBy (heartbeatIntervalId c) (reconnectTimeoutId c) (nextHandle c)
    (timers c).

(** [if (held) clearTimeout(held)] *)
Definition cleared (held : option nat) (ts : list Timer) : list Timer :=
  match held with
  | Some h => clearTimer h ts
  | None => ts
  end.

(** The pending timers of one kind. *)
Definition pending (kind : TimerTask) (c : ControlClient) : list Timer :=
  filter (λ t, task t = kind) (timers c).

End ClientShape.

Module TokenSpec.

(** The characters of a lower-case hexadecimal numeral. *)
Definition hexDigits : list ascii := String.list_ascii_of_string "0123456789abcdef".

(** The value of a hexadecimal digit. *)
Definition hexValue (ch : ascii) : N :=
  match List.find (λ n, Ascii.eqb (hexDigit n) ch)
          (map N.of_nat (seq 0 16)) with
  | Some n => n
  | None => 0
  end.

End TokenSpec.

(** ** A session used to exercise the definitions *)

Module Sample.

Import History.

(** Randomness that only yields zero bytes. *)
Definition zeros : Entropy := λ _, x00.

(** Randomness that only yields 0xff bytes. *)
Definition ones : Entropy := λ _, xff.

Definition t1 : DeviceInfo :=
  {| id := "t1"; name := "Arrow target"; ip := "192.168.1.20"; mac := None;
     type := TARGET; supportedCommands := ["arrow_left"; "arrow_right"] |}.

(** The same target after its address changed. *)
Definition t1_moved : DeviceInfo :=
  {| id := "t1"; name := "Arrow target"; ip := "192.168.1.37"; mac := None;
     type := TARGET; supportedCommands := ["arrow_left"; "arrow_right"] |}.

(** The target after a restart that gave it a new identity. *)
Definition t2 : DeviceInfo :=
  {| id := "t2"; name := "Arrow target"; ip := "192.168.1.37"; mac := None;
     type := TARGET; supportedCommands := ["arrow_left"; "arrow_right"] |}.

(** t1 registers, connects and pairs with the token it was issued. *)
Definition pairing : list Call :=
  [ RegisterDevice 1000 zeros t1 true;
    ConnectDevice 1001 "t1" "c1";
    PairDevice 1002 ones "t1" (generateToken zeros) ].

(** The record of t1 at the end of [pairing]. *)
Definition paired_t1 : Registry.RegisteredDevice :=
  {| Registry.deviceInfo := t1;
     Registry.status := PAIRED;
     Registry.lastSeen := 1001;
     Registry.firstSeen := 1000;
     Registry.connectionId := Some "c1";
     Registry.authToken := Some (generateToken ones);
     Registry.paired := true;
     Registry.pairingToken := None;
     Registry.pairingExpiration := None |}.

(** The record of t1 at the end of [fleet]. *)
Definition paired_fleet_t1 : Registry.RegisteredDevice :=
  {| Registry.deviceInfo := t1;
     Registry.status := PAIRED;
     Registry.lastSeen := 2001;
     Registry.firstSeen := 2000;
     Registry.connectionId := Some "c1";
     Registry.authToken := Some (generateToken ones);
     Registry.paired := true;
     Registry.pairingToken := None;
     Registry.pairingExpiration := None |}.

(** t1 registers and connects, and has not paired yet. *)
Definition registration : list Call :=
  [ RegisterDevice 1000 zeros t1 true;
    ConnectDevice 1001 "t1" "c1" ].

(** t1 registers, registers again from a new address, and then restarts
    under the identity t2 at that address. *)
Definition restart : list Call :=
  [ RegisterDevice 1000 zeros t1 true;
    RegisterDevice 2000 zeros t1_moved true;
    RegisterDevice 3000 zeros t2 true ].

(** A controller with two open sockets, c1 and c2. *)
Definition listening : Server.ControlServer :=
  Server.handleConnection 950 "c2"
    (Server.handleConnection 900 "c1"
       {| Server.controllerId := "controller";
          Server.connections := [];
          Server.deviceRegistry := Registry.empty;
          Server.sent := [] |}).

Definition c1 : Server.WebSocketWithId :=
  {| Server.connectionId := "c1"; Server.deviceId := None;
     Server.isAlive := true; Server.lastActivity := 900 |}.

Definition c2 : Server.WebSocketWithId :=
  {| Server.connectionId := "c2"; Server.deviceId := None;
     Server.isAlive := true; Server.lastActivity := 950 |}.

(** The sockets once they are bound to t1. *)
Definition c1_t1 : Server.WebSocketWithId :=
  {| Server.connectionId := "c1"; Server.deviceId := Some "t1";
     Server.isAlive := true; Server.lastActivity := 900 |}.

Definition c2_t1 : Server.WebSocketWithId :=
  {| Server.connectionId := "c2"; Server.deviceId := Some "t1";
     Server.isAlive := true; Server.lastActivity := 950 |}.

(** t1 has sent its register message on c1. *)
Definition registered : Server.ControlServer :=
  Server.handleRegisterMessage 1000 1001 1002 zeros listening c1 (Some t1).

(** A client whose first connection is open. *)
Definition connected : Client.ControlClient :=
  Client.onOpen 0
    (Client.connect Client.ByOther false "192.168.1.2" 8080
       (Client.initial true "192.168.1.2" 8080)).

(** t2 and then t1 register, connect and pair. *)
Definition fleet : list Call :=
  [ RegisterDevice 1000 zeros t2 true;
    ConnectDevice 1001 "t2" "c2";
    PairDevice 1002 ones "t2" (generateToken zeros);
    RegisterDevice 2000 zeros t1 true;
    ConnectDevice 2001 "t1" "c1";
    PairDevice 2002 ones "t1" (generateToken zeros) ].

(** A heartbeat of t1 stamped by a clock that reads the epoch. *)
Definition atEpoch : JsValue :=
  JsObj [("type", JsStr "heartbeat"); ("version", JsStr "1.0.0");
         ("timestamp", JsNum (Finite 0 0));
         ("sender", JsObj [("id", JsStr "t1"); ("type", JsStr "target")]);
         ("data", JsObj [])].

(** A frame whose [type] is a boolean, whose [version] and [sender.id]
    are numbers and whose [timestamp] is a string. *)
Definition untyped : JsValue :=
  JsObj [("type", JsBool true); ("version", JsNum (Finite 42 0));
         ("timestamp", JsStr "yesterday");
         ("sender", JsObj [("id", JsNum (Finite 7 0));
                           ("type", JsStr "target")])].

(** The protocol state of the client of t1 once its socket is open. *)
Definition target_t1 : Target.Session :=
  {| Target.deviceInfo := t1;
     Target.status := CONNECTED;
     Target.authToken := None;
     Target.pairingToken := None;
     Target.socketOpen := true;
     Target.outbox := [];
     Target.waiters := 0%nat;
     Target.settled := [];
     Target.emitted := [] |}.

(** An executor of arrow commands that always succeeds. *)
Definition pressed : Direction → Z → Z → option bool := λ _ _ _, Some true.

End Sample.

(** * Properties *)

(** ** Wire protocol: [validateMessage] *)

Section Wire.

Import WireSpec.

Lemma includes_senderTypes (v : JsValue) :
  includes [DeviceType_value CONTROLLER; DeviceType_value TARGET] v
  = match v with
    | JsStr t => bool_decide (t ∈ senderTypes)
    | _ => false
    end.
Proof. reflexivity. Qed.

Lemma includes_senderTypes_true (v : JsValue) :
  includes [DeviceType_value CONTROLLER; DeviceType_value TARGET] v = true
  ↔ v = JsStr "controller" ∨ v = JsStr "target".
Proof.
  destruct v as [| | b | n | s | items | props]; simpl;
    try (split; [discriminate | intros [?|?]; discriminate]).
  rewrite bool_decide_eq_true. split.
  - intros Hin. repeat (apply elem_of_cons in Hin as [->|Hin]; [tauto|]).
    by apply elem_of_nil in Hin.
  - intros [[= ->]|[= ->]]; set_solver.
Qed.

(** The validator never throws, and its answer is the citation of the
    first constraint that the message violates. *)
Lemma validateMessage_firstViolated (message : JsValue) :
  validateMessage message
  = Some (match firstViolated message with
          | Some c => rejected (citation c)
          | None => accepted
          end).
Proof.
  destruct message as [| | b | n | s | items | props]; try reflexivity.
  - destruct b; reflexivity.
  - destruct n as [| neg | m e]; try reflexivity. destruct m; reflexivity.
  - destruct s; reflexivity.
  - unfold validateMessage, firstViolated, constraints, field.
    cbn [truthy typeof negb orb String.eqb get_prop mbind option_bind default
         isObject List.find holds citation].
    simpl.
    destruct (truthy (own_prop props "type")); [|reflexivity].
    destruct (truthy (own_prop props "version")); [|reflexivity].
    destruct (truthy (own_prop props "timestamp")); [|reflexivity].
    destruct (own_prop props "sender") as [| | b | n | s | items | sprops];
      try reflexivity; simpl.
    + destruct b; reflexivity.
    + destruct n as [| neg | m e]; try reflexivity. destruct m; reflexivity.
    + destruct (Js.truthy_str s); reflexivity.
    + destruct (truthy (own_prop sprops "id")); [|reflexivity].
      destruct (truthy (own_prop sprops "type")); [|reflexivity].
      simpl. rewrite includes_senderTypes.
      destruct (own_prop sprops "type"); try reflexivity.
      destruct (bool_decide _); reflexivity.
Qed.

Lemma firstViolated_None (message : JsValue) :
  firstViolated message = None
  ↔ Forall (λ c, holds c message = true) constraints.
Proof.
  unfold firstViolated. generalize constraints. intros cs.
  induction cs as [|c cs IH]; simpl.
  - split; [constructor | done].
  - destruct (holds c message) eqn:Hc; simpl.
    + rewrite IH. split; [by constructor | by inversion 1].
    + split; [done | inversion 1; congruence].
Qed.

(** C9, as the validator behaves.  [validateMessage] returns for every
    value.  It accepts, with no error text, exactly the objects whose
    [type], [version], [timestamp] and [sender] are truthy (not missing,
    and none of null, false, 0, NaN and the empty string), whose
    [sender.id] is truthy and whose [sender.type] is "controller" or
    "target"; the kind of value of [type], [version], [timestamp] and
    [sender.id] is not looked at.  It rejects every other value, and the
    error text is the citation of the first constraint, in the order
    object / required fields / sender fields / sender type, that the
    value violates. *)
Theorem validateMessage_accepts_exactly_and_cites_first (message : JsValue) :
  ∃ v,
    validateMessage message = Some v
    ∧ (valid v = true
       ↔ isObject message = true
         ∧ truthy (field message "type") = true
         ∧ truthy (field message "version") = true
         ∧ truthy (field message "timestamp") = true
         ∧ truthy (field message "sender") = true
         ∧ truthy (field (field message "sender") "id") = true
         ∧ (field (field message "sender") "type" = JsStr "controller"
            ∨ field (field message "sender") "type" = JsStr "target"))
    ∧ (valid v = true → error v = None)
    ∧ (∀ c, firstViolated message = Some c →
            valid v = false ∧ error v = Some (citation c))
    ∧ (valid v = false → ∃ c, firstViolated message = Some c).
Proof.
  pose proof (validateMessage_firstViolated message) as Hv.
  assert (firstViolated message = None
          ↔ isObject message = true
            ∧ truthy (field message "type") = true
            ∧ truthy (field message "version") = true
            ∧ truthy (field message "timestamp") = true
            ∧ truthy (field message "sender") = true
            ∧ truthy (field (field message "sender") "id") = true
            ∧ (field (field message "sender") "type" = JsStr "controller"
               ∨ field (field message "sender") "type" = JsStr "target"))
    as Hnone.
  { rewrite firstViolated_None. unfold constraints.
    rewrite !Forall_cons, Forall_nil. cbn [holds].
    rewrite !andb_true_iff.
    pose proof (includes_senderTypes_true
                  (field (field message "sender") "type")) as Hs.
    rewrite includes_senderTypes in Hs. rewrite Hs.
    split.
    - intros (? & (((? & ?) & ?) & ?) & (? & ?) & ? & _). tauto.
    - intros (? & ? & ? & ? & ? & ? & Ht). repeat split; try done.
      destruct Ht as [Ht|Ht]; rewrite Ht; reflexivity. }
  destruct (firstViolated message) as [c|] eqn:Hfirst.
  - exists (rejected (citation c)). split; [exact Hv|].
    cbn [valid error rejected]. split; [|split; [done|split]].
    + split; [done|]. intros H. by apply Hnone in H.
    + by intros c' [= <-].
    + intros _. by exists c.
  - exists accepted. split; [exact Hv|].
    cbn [valid error accepted]. split; [|split; [done|split; done]].
    split; [intros _; by apply Hnone | done].
Qed.

Lemma validateMessage_accepts_exactly_and_cites_first_witness :
  (∃ v,
     validateMessage
       (JsObj [("type", JsStr "heartbeat"); ("version", JsStr "1.0.0");
               ("timestamp", JsNum (Finite 1700000000000 0));
               ("sender", JsObj [("id", JsStr "t1"); ("type", JsStr "target")]);
               ("data", JsObj [])])
     = Some v
     ∧ valid v = true
     ∧ error v = None)
  ∧ (∃ v,
       validateMessage
         (JsObj [("type", JsStr "heartbeat"); ("version", JsStr "1.0.0");
                 ("timestamp", JsNum (Finite 0 0));
                 ("sender",
                  JsObj [("id", JsStr "t1"); ("type", JsStr "robot")])])
       = Some v
       ∧ valid v = false
       ∧ error v = Some "Message missing required fields").
Proof.
  split.
  - destruct (validateMessage_accepts_exactly_and_cites_first
                (JsObj [("type", JsStr "heartbeat"); ("version", JsStr "1.0.0");
                        ("timestamp", JsNum (Finite 1700000000000 0));
                        ("sender",
                         JsObj [("id", JsStr "t1"); ("type", JsStr "target")]);
                        ("data", JsObj [])]))
      as (v & Hv & Hvalid & Herror & _).
    exists v. split; [exact Hv|].
    assert (valid v = true) as Hok.
    { apply Hvalid. repeat split; try reflexivity. right. reflexivity. }
    split; [exact Hok | exact (Herror Hok)].
  - destruct (validateMessage_accepts_exactly_and_cites_first
                (JsObj [("type", JsStr "heartbeat"); ("version", JsStr "1.0.0");
                        ("timestamp", JsNum (Finite 0 0));
                        ("sender",
                         JsObj [("id", JsStr "t1"); ("type", JsStr "robot")])]))
      as (v & Hv & _ & _ & Hcites & _).
    exists v. split; [exact Hv|].
    apply (Hcites
             (mkConstraint
                (λ m, truthy (field m "type") && truthy (field m "version")
                      && truthy (field m "timestamp")
                      && truthy (field m "sender"))
                "Message missing required fields")).
    vm_compute. reflexivity.
Defined.

(** C9, as the specification words it, fails in both directions: the
    validator tests that the fields are truthy, not that they are
    present and valid.  A heartbeat of t1 with the timestamp 0 has every
    field of the envelope, each of its kind, and is rejected with
    "Message missing required fields"; a frame whose [type] is a
    boolean, whose [version] and [sender.id] are numbers and whose
    [timestamp] is a string is accepted. *)
Lemma validateMessage_tests_truthiness_not_validity :
  (presentAndValid Sample.atEpoch = true
   ∧ ∃ v, validateMessage Sample.atEpoch = Some v
          ∧ valid v = false
          ∧ error v = Some "Message missing required fields")
  ∧ (presentAndValid Sample.untyped = false
     ∧ ∃ v, validateMessage Sample.untyped = Some v
            ∧ valid v = true).
Proof.
  split; (split; [reflexivity|]); eexists; repeat split; reflexivity.
Qed.

End Wire.

(** ** Device registry *)

Section RegistryFacts.

Import Registry RegistrySpec History.

Lemma toHex_length (bs : list byte) :
  String.length (toHex bs) = (2 * length bs)%nat.
Proof. induction bs as [|b bs IH]; simpl; [done | rewrite IH; lia]. Qed.

Lemma generateToken_length (ent : Entropy) :
  String.length (generateToken ent) = 64%nat.
Proof.
  unfold generateToken, randomBytes.
  rewrite toHex_length, length_map, length_seq. reflexivity.
Qed.

Lemma generateToken_nonempty (ent : Entropy) : generateToken ent ≠ "".
Proof.
  intros H. pose proof (generateToken_length ent) as Hl.
  rewrite H in Hl. discriminate.
Qed.

Lemma truthy_str_true (s : string) : Js.truthy_str s = true ↔ s ≠ "".
Proof.
  unfold Js.truthy_str. rewrite negb_true_iff.
  destruct s; simpl; split; congruence.
Qed.

Lemma truthy_generateToken (ent : Entropy) :
  Js.truthy_str (generateToken ent) = true.
Proof. apply truthy_str_true, generateToken_nonempty. Qed.

Lemma nonEmpty_truthy (o : option string) :
  nonEmpty o ↔ Js.truthy_opt_str o = true.
Proof.
  unfold nonEmpty. destruct o as [t|]; simpl.
  - rewrite truthy_str_true. split; [by intros (? & [= ->] & ?) | eauto].
  - split; [by intros (? & ? & ?) | done].
Qed.

Lemma everyDevice_lookup P r deviceId d :
  everyDevice P r → devices r !! deviceId = Some d → P d.
Proof. intros H Hd. exact (map_Forall_lookup_1 _ _ _ _ H Hd). Qed.

Lemma everyDevice_insert P r r' deviceId d :
  everyDevice P r → P d → devices r' = <[deviceId := d]> (devices r) →
  everyDevice P r'.
Proof.
  unfold everyDevice. intros H Hd ->. by apply map_Forall_insert_2.
Qed.

Lemma everyDevice_delete P r r' deviceId :
  everyDevice P r → devices r' = delete deviceId (devices r) →
  everyDevice P r'.
Proof. unfold everyDevice. intros H ->. by apply map_Forall_delete. Qed.

Lemma removeDevice_everyDevice P r deviceId :
  everyDevice P r → everyDevice P (removeDevice r deviceId).1.
Proof.
  intros H. unfold removeDevice.
  destruct (devices r !! deviceId); [|done].
  by eapply everyDevice_delete.
Qed.

Lemma cleanupOldDevices_everyDevice P now r maxAge :
  everyDevice P r → everyDevice P (cleanupOldDevices now r maxAge).1.
Proof.
  unfold cleanupOldDevices.
  generalize (map_to_list (devices r)) as entries.
  generalize 0 as n. generalize (now - maxAge) as cutoff.
  intros cutoff n entries. revert r n.
  induction entries as [|[k d] entries IH]; intros r n H; [done|].
  simpl. unfold cleanupStep at 2. simpl.
  destruct (lastSeen d <? cutoff); [|by apply IH].
  pose proof (removeDevice_everyDevice P r k H) as H'.
  destruct (removeDevice r k) as [r' removed]. by apply IH.
Qed.

(** The secrets stay consistent under every operation. *)
Lemma step_sound r call :
  everyDevice sound r → everyDevice sound (step r call).
Proof.
  intros H.
  destruct call as [now ent info rp | now did cid | now did | now ent did tok
                   | now ent did | did | now did | now maxAge]; simpl.
  - unfold registerDevice.
    destruct (devices r !! id info) as [d|] eqn:Hd.
    + eapply everyDevice_insert; [done| |done].
      apply (everyDevice_lookup _ _ _ _ H Hd).
    + destruct (lookupExisting r info) as [[eid d]|] eqn:He.
      * assert (devices r !! eid = Some d) as Hd'.
        { unfold lookupExisting in He.
          destruct (lookupExistingId r info); [|done].
          destruct (Js.truthy_str _); [|done].
          destruct (devices r !! s) eqn:E; [|done]. by injection He as <- <-. }
        unfold everyDevice. simpl. apply map_Forall_insert_2.
        { apply (everyDevice_lookup _ _ _ _ H Hd'). }
        by apply map_Forall_delete.
      * unfold everyDevice. simpl. apply map_Forall_insert_2; [|done].
        split; simpl; [done|].
        destruct rp; [right|by left].
        exists (generateToken ent). split; [done|apply generateToken_nonempty].
  - unfold connectDevice. destruct (devices r !! did) as [d|] eqn:Hd; [|done].
    eapply everyDevice_insert; [done| |done].
    apply (everyDevice_lookup _ _ _ _ H Hd).
  - unfold disconnectDevice. destruct (devices r !! did) as [d|] eqn:Hd; [|done].
    eapply everyDevice_insert; [done| |done].
    apply (everyDevice_lookup _ _ _ _ H Hd).
  - unfold pairDevice. destruct (devices r !! did) as [d|] eqn:Hd; [|done].
    repeat (match goal with |- context [if ?b then _ else _] =>
              destruct b; [done|] end).
    eapply everyDevice_insert; [done| |done].
    split; simpl; [apply truthy_generateToken | by left].
  - unfold unpairDevice. destruct (devices r !! did) as [d|] eqn:Hd; [|done].
    eapply everyDevice_insert; [done| |done].
    split; simpl; [done|]. right.
    exists (generateToken ent). split; [done|apply generateToken_nonempty].
  - by apply removeDevice_everyDevice.
  - unfold updateDeviceLastSeen.
    destruct (devices r !! did) as [d|] eqn:Hd; [|done].
    eapply everyDevice_insert; [done| |done].
    apply (everyDevice_lookup _ _ _ _ H Hd).
  - by apply cleanupOldDevices_everyDevice.
Qed.

Lemma run_snoc calls call : run (calls ++ [call]) = step (run calls) call.
Proof. unfold run. by rewrite foldl_app. Qed.

Lemma run_sound calls : everyDevice sound (run calls).
Proof.
  induction calls as [|call calls IH] using rev_ind.
  - unfold run, everyDevice. simpl. apply map_Forall_empty.
  - rewrite run_snoc. by apply step_sound.
Qed.

(** C6.  In every registry state that a sequence of registerDevice,
    connectDevice, disconnectDevice, pairDevice, unpairDevice,
    removeDevice, updateDeviceLastSeen and cleanupOldDevices calls
    reaches, every device record has a non-empty authToken if and only if
    its paired flag is true. *)
Theorem authToken_nonempty_iff_paired (calls : list Call)
    (deviceId : string) (d : RegisteredDevice) :
  devices (run calls) !! deviceId = Some d →
  nonEmpty (authToken d) ↔ paired d = true.
Proof.
  intros Hd.
  destruct (everyDevice_lookup _ _ _ _ (run_sound calls) Hd) as [Ha _].
  by rewrite nonEmpty_truthy, Ha.
Qed.

(** With a clock that reads after the epoch, every pairing token has an
    expiration after the epoch. *)
Lemma step_dated r call :
  callAfterEpoch call → everyDevice dated r → everyDevice dated (step r call).
Proof.
  intros Hclock H.
  destruct call as [now ent info rp | now did cid | now did | now ent did tok
                   | now ent did | did | now did | now maxAge];
    unfold callAfterEpoch in Hclock; simpl in *.
  - unfold registerDevice.
    destruct (devices r !! id info) as [d|] eqn:Hd.
    + eapply everyDevice_insert; [done| |done].
      apply (everyDevice_lookup _ _ _ _ H Hd).
    + destruct (lookupExisting r info) as [[eid d]|] eqn:He.
      * assert (devices r !! eid = Some d) as Hd'.
        { unfold lookupExisting in He.
          destruct (lookupExistingId r info); [|done].
          destruct (Js.truthy_str _); [|done].
          destruct (devices r !! s) eqn:E; [|done]. by injection He as <- <-. }
        unfold everyDevice. simpl. apply map_Forall_insert_2.
        { apply (everyDevice_lookup _ _ _ _ H Hd'). }
        by apply map_Forall_delete.
      * unfold everyDevice. simpl. apply map_Forall_insert_2; [|done].
        unfold dated. simpl. destruct rp; [lia|done].
  - unfold connectDevice. destruct (devices r !! did) as [d|] eqn:Hd; [|done].
    eapply everyDevice_insert; [done| |done].
    apply (everyDevice_lookup _ _ _ _ H Hd).
  - unfold disconnectDevice. destruct (devices r !! did) as [d|] eqn:Hd; [|done].
    eapply everyDevice_insert; [done| |done].
    apply (everyDevice_lookup _ _ _ _ H Hd).
  - unfold pairDevice. destruct (devices r !! did) as [d|] eqn:Hd; [|done].
    repeat (match goal with |- context [if ?b then _ else _] =>
              destruct b; [done|] end).
    eapply everyDevice_insert; [done| |done]. done.
  - unfold unpairDevice. destruct (devices r !! did) as [d|] eqn:Hd; [|done].
    eapply everyDevice_insert; [done| |done].
    unfold dated. simpl. lia.
  - by apply removeDevice_everyDevice.
  - unfold updateDeviceLastSeen.
    destruct (devices r !! did) as [d|] eqn:Hd; [|done].
    eapply everyDevice_insert; [done| |done].
    apply (everyDevice_lookup _ _ _ _ H Hd).
  - by apply cleanupOldDevices_everyDevice.
Qed.

Lemma run_dated calls : afterEpoch calls → everyDevice dated (run calls).
Proof.
  induction calls as [|call calls IH] using rev_ind; intros Hc.
  - unfold run, everyDevice. simpl. apply map_Forall_empty.
  - apply Forall_app in Hc as [Hc Hlast]. rewrite run_snoc.
    apply step_dated; [|by apply IH]. by inversion Hlast.
Qed.

(** C4.  On a registry that the operations have built (the clock never
    reading before the epoch), pairDevice fails with "Device not found"
    for an unknown id, with "Device does not support pairing" when the
    device has no outstanding pairing token, which includes every attempt
    that follows a successful pairing, with "Invalid pairing token" when
    the token differs from the outstanding one, and with "Pairing token
    expired" when the token matches but the clock is past
    pairingExpiration; the four reasons differ, and a failing call leaves
    the registry, hence the device record, as it was. *)
Theorem pairDevice_failure_reasons (calls : list Call) (now : Z)
    (ent : Entropy) (deviceId token : string) :
  afterEpoch calls →
  let r := run calls in
  let r' := (pairDevice now ent r deviceId token).1 in
  let result := (pairDevice now ent r deviceId token).2 in
  (devices r !! deviceId = None → result = failure "Device not found")
  ∧ (∀ d, devices r !! deviceId = Some d → pairingToken d = None →
          result = failure "Device does not support pairing")
  ∧ (∀ d t, devices r !! deviceId = Some d → pairingToken d = Some t →
            t ≠ token → result = failure "Invalid pairing token")
  ∧ (∀ d e, devices r !! deviceId = Some d → pairingToken d = Some token →
            pairingExpiration d = Some e → e < now →
            result = failure "Pairing token expired")
  ∧ (success result = false → r' = r)
  ∧ (success result = true →
     ∀ now' ent' token',
       (pairDevice now' ent' r' deviceId token').2
       = failure "Device does not support pairing")
  ∧ NoDup ["Device not found"; "Device does not support pairing";
           "Invalid pairing token"; "Pairing token expired"].
Proof.
  intros Hclock r r' result.
  pose proof (run_sound calls) as Hsound.
  pose proof (run_dated calls Hclock) as Hdated.
  fold r in Hsound, Hdated.
  repeat split.
  - intros Hd. subst result. unfold pairDevice. by rewrite Hd.
  - intros d Hd Ht. subst result. unfold pairDevice. by rewrite Hd, Ht.
  - intros d t Hd Ht Hne. subst result. unfold pairDevice. rewrite Hd, Ht.
    destruct (everyDevice_lookup _ _ _ _ Hsound Hd) as [_ [Hn|Hn]]; [congruence|].
    rewrite Ht in Hn. apply nonEmpty_truthy in Hn. rewrite Hn. simpl.
    rewrite bool_decide_eq_false_2; [done | congruence].
  - intros d e Hd Ht He Hlt. subst result. unfold pairDevice. rewrite Hd, Ht, He.
    destruct (everyDevice_lookup _ _ _ _ Hsound Hd) as [_ [Hn|Hn]]; [congruence|].
    rewrite Ht in Hn. apply nonEmpty_truthy in Hn. rewrite Hn. simpl.
    rewrite bool_decide_eq_true_2 by done. simpl.
    pose proof (everyDevice_lookup _ _ _ _ Hdated Hd) as Hdt.
    unfold dated in Hdt. rewrite He in Hdt.
    unfold Js.truthy_num.
    destruct (Z.eqb_spec e 0); [lia|]. destruct (Z.ltb_spec e now); [done|lia].
  - subst r' result. unfold pairDevice.
    destruct (devices r !! deviceId); [|done].
    repeat (match goal with |- context [if ?b then _ else _] =>
              destruct b; [done|] end). done.
  - subst r' result. unfold pairDevice at 1.
    destruct (devices r !! deviceId) eqn:Hd; [|done].
    repeat (match goal with |- context [if ?b then _ else _] =>
              destruct b eqn:?; [done|] end).
    intros _ now' ent' token'.
    unfold pairDevice at 2. rewrite Hd.
    repeat (match goal with H : ?b = false |- context [if ?b then _ else _] =>
              rewrite H end).
    simpl. unfold pairDevice. simpl. rewrite lookup_insert_eq. done.
  - by apply (bool_decide_unpack _).
Qed.

(** A device that pairs keeps its status unless the status is
    connected. *)
Lemma pairDevice_success_status now ent r deviceId token d :
  devices r !! deviceId = Some d →
  success (pairDevice now ent r deviceId token).2 = true →
  ∃ d', devices (pairDevice now ent r deviceId token).1 !! deviceId = Some d'
        ∧ paired d' = true
        ∧ (status d ≠ CONNECTED → status d' = status d).
Proof.
  intros Hd. unfold pairDevice. rewrite Hd.
  repeat (match goal with |- context [if ?b then _ else _] =>
            destruct b; [done|] end).
  intros _. simpl. rewrite lookup_insert_eq. eexists. split; [done|].
  split; [done|]. simpl. intros Hs. by rewrite bool_decide_eq_false_2.
Qed.

(** C5.  A pairDevice call that succeeds leaves, under the device id, a
    record whose authToken is the token generated during the call, which
    is not empty, whose paired flag is true, whose pairingToken and
    pairingExpiration are cleared, and whose status is paired when it was
    connected (and is what it was otherwise); the call returns that
    record. *)
Theorem pairDevice_success_record (now : Z) (ent : Entropy)
    (r : DeviceRegistry) (deviceId token : string) :
  success (pairDevice now ent r deviceId token).2 = true →
  ∃ d d',
    devices r !! deviceId = Some d
    ∧ devices (pairDevice now ent r deviceId token).1 !! deviceId = Some d'
    ∧ device (pairDevice now ent r deviceId token).2 = Some d'
    ∧ authToken d' = Some (generateToken ent)
    ∧ nonEmpty (authToken d')
    ∧ paired d' = true
    ∧ pairingToken d' = None
    ∧ pairingExpiration d' = None
    ∧ (status d = CONNECTED → status d' = PAIRED)
    ∧ (status d ≠ CONNECTED → status d' = status d).
Proof.
  unfold pairDevice. destruct (devices r !! deviceId) as [d|] eqn:Hd; [|done].
  repeat (match goal with |- context [if ?b then _ else _] =>
            destruct b; [done|] end).
  intros _. eexists d, _. simpl. rewrite lookup_insert_eq.
  repeat split.
  - exists (generateToken ent). split; [done|apply generateToken_nonempty].
  - intros ->. done.
  - intros Hs. by rewrite bool_decide_eq_false_2.
Qed.

Lemma elem_of_getAllDevices keys r d :
  d ∈ getAllDevices keys r
  ↔ ∃ deviceId, deviceId ∈ keys ∧ devices r !! deviceId = Some d.
Proof. unfold getAllDevices. apply list_elem_of_omap. Qed.

Lemma listsKeys_elem_of keys r deviceId :
  listsKeys keys r → (deviceId ∈ keys ↔ is_Some (devices r !! deviceId)).
Proof.
  unfold listsKeys. intros ->. rewrite list_elem_of_fmap. split.
  - intros ([k d] & -> & Hin). apply elem_of_map_to_list in Hin. by exists d.
  - intros [d Hd]. exists (deviceId, d). split; [done|].
    by apply elem_of_map_to_list.
Qed.

(** An operation that rewrites the record of an id the map holds keeps
    the keys of the map. *)
Lemma listsKeys_insert keys r deviceId d d' :
  listsKeys keys r → devices r !! deviceId = Some d →
  listsKeys keys (with_devices r (<[deviceId := d']> (devices r))).
Proof.
  unfold listsKeys. intros -> Hd. cbn [with_devices devices].
  apply NoDup_Permutation; try apply NoDup_fst_map_to_list.
  intros k. rewrite !list_elem_of_fmap. split.
  - intros ([k0 d0] & -> & Hin). apply elem_of_map_to_list in Hin.
    cbn [fst]. destruct (decide (k0 = deviceId)) as [->|Hne].
    + exists (deviceId, d'). split; [done|].
      apply elem_of_map_to_list. apply lookup_insert_eq.
    + exists (k0, d0). split; [done|].
      apply elem_of_map_to_list. by rewrite lookup_insert_ne.
  - intros ([k0 d0] & -> & Hin). apply elem_of_map_to_list in Hin.
    cbn [fst]. destruct (decide (k0 = deviceId)) as [->|Hne].
    + exists (deviceId, d). split; [done|]. by apply elem_of_map_to_list.
    + rewrite lookup_insert_ne in Hin by done.
      exists (k0, d0). split; [done|]. by apply elem_of_map_to_list.
Qed.

Lemma getPairedDevices_pairedAt keys r :
  getPairedDevices keys r = omap (pairedAt r) keys.
Proof.
  unfold getPairedDevices, getAllDevices, pairedAt.
  induction keys as [|k keys IH]; [done|].
  change (filter (λ d, paired d = true ∧ status d = PAIRED)
            (match devices r !! k with
             | Some d => d :: omap (λ deviceId, devices r !! deviceId) keys
             | None => omap (λ deviceId, devices r !! deviceId) keys
             end)
          = match (devices r !! k ≫= λ d,
                     if bool_decide (paired d = true ∧ status d = PAIRED)
                     then Some d else None) with
            | Some d =>
                d :: omap (λ deviceId,
                             devices r !! deviceId ≫= λ d,
                               if bool_decide
                                    (paired d = true ∧ status d = PAIRED)
                               then Some d else None) keys
            | None =>
                omap (λ deviceId,
                        devices r !! deviceId ≫= λ d,
                          if bool_decide (paired d = true ∧ status d = PAIRED)
                          then Some d else None) keys
            end).
  destruct (devices r !! k) as [d|]; cbn [mbind option_bind]; [|exact IH].
  rewrite filter_cons.
  destruct (decide (paired d = true ∧ status d = PAIRED)) as [Hp|Hp].
  - rewrite (bool_decide_eq_true_2 _ Hp). by rewrite IH.
  - rewrite (bool_decide_eq_false_2 _ Hp). exact IH.
Qed.

(** C10.  Given the ids of the registry in the order of the map,
    getPairedDevices returns exactly the records of the registry whose
    paired flag is true and whose status is paired: every such record
    and no other, once for each id that holds it, in the order of the
    ids.  A paired device that disconnects stays paired and is no longer
    returned; a device that pairs while its status is neither connected
    nor paired becomes paired and is not returned. *)
Theorem getPairedDevices_exactly (keys : list string) (r : DeviceRegistry) :
  listsKeys keys r →
  (∀ d, d ∈ getPairedDevices keys r
        ↔ ∃ deviceId, devices r !! deviceId = Some d
                      ∧ paired d = true ∧ status d = PAIRED)
  ∧ getPairedDevices keys r = omap (pairedAt r) keys
  ∧ (∀ now deviceId d,
       devices r !! deviceId = Some d → paired d = true →
       ∃ d', devices (disconnectDevice now r deviceId).1 !! deviceId = Some d'
             ∧ paired d' = true
             ∧ listsKeys keys (disconnectDevice now r deviceId).1
             ∧ d' ∉ getPairedDevices keys (disconnectDevice now r deviceId).1)
  ∧ (∀ now ent deviceId token d,
       devices r !! deviceId = Some d →
       status d ≠ CONNECTED → status d ≠ PAIRED →
       success (pairDevice now ent r deviceId token).2 = true →
       ∃ d', devices (pairDevice now ent r deviceId token).1 !! deviceId
             = Some d'
             ∧ paired d' = true
             ∧ listsKeys keys (pairDevice now ent r deviceId token).1
             ∧ d' ∉ getPairedDevices keys
                      (pairDevice now ent r deviceId token).1).
Proof.
  intros Hkeys.
  assert (∀ r0 d, d ∈ getPairedDevices keys r0 →
                  paired d = true ∧ status d = PAIRED) as Honly.
  { intros r0 d. unfold getPairedDevices. rewrite list_elem_of_filter. tauto. }
  split; [|split; [apply getPairedDevices_pairedAt|split]].
  - intros d. unfold getPairedDevices.
    rewrite list_elem_of_filter, elem_of_getAllDevices. split.
    + intros (Hp & k & _ & Hd). by exists k.
    + intros (k & Hd & Hp). split; [done|]. exists k. split; [|done].
      apply (listsKeys_elem_of keys r k Hkeys). by exists d.
  - intros now deviceId d Hd Hp. unfold disconnectDevice. rewrite Hd.
    cbn [fst]. cbn [with_devices devices]. rewrite lookup_insert_eq.
    eexists. split; [done|]. split; [done|].
    split; [by apply (listsKeys_insert keys r deviceId d)|].
    intros Hin. by destruct (Honly _ _ Hin) as [_ ?].
  - intros now ent deviceId token d Hd Hc Hp Hs.
    destruct (pairDevice_success_status _ _ _ _ _ _ Hd Hs)
      as (d' & Hd' & Hpaired & Hst).
    exists d'. split; [done|]. split; [done|]. split.
    + revert Hs Hd'. unfold pairDevice. rewrite Hd.
      repeat (match goal with |- context [if ?b then _ else _] =>
                destruct b; [done|] end).
      intros _ _. cbn [fst]. by apply (listsKeys_insert keys r deviceId d).
    + intros Hin. destruct (Honly _ _ Hin) as [_ Hpd].
      rewrite (Hst Hc) in Hpd. done.
Qed.

(** *** registerDevice *)

(** After registerDevice the id of the call names a record, which the
    call returns and which was seen at the time of the call. *)
Lemma registerDevice_entry now ent r info requirePairing :
  let result := registerDevice now ent r info requirePairing in
  devices result.1 !! id info = Some result.2
  ∧ lastSeen result.2 = now
  ∧ id (deviceInfo result.2) = id info.
Proof.
  unfold registerDevice.
  destruct (devices r !! id info) as [d|]; simpl.
  - by rewrite lookup_insert_eq.
  - destruct (lookupExisting r info) as [[eid d]|]; simpl;
      by rewrite lookup_insert_eq.
Qed.

(** A call for a known id keeps the set of ids, and lastSeen does not
    decrease when the clock does not go back. *)
Lemma registerDevice_known now ent r info requirePairing d :
  devices r !! id info = Some d →
  let result := registerDevice now ent r info requirePairing in
  dom (devices result.1) = dom (devices r)
  ∧ (lastSeen d ≤ now → lastSeen d ≤ lastSeen result.2).
Proof.
  intros Hd. unfold registerDevice. rewrite Hd. simpl. split; [|done].
  apply dom_insert_lookup_L. by exists d.
Qed.

(** When the id is new and the indexes lead to a record, the record
    moves to the new id: the old id is gone and no entry is added. *)
Lemma registerDevice_migrates now ent r info requirePairing existingId d :
  devices r !! id info = None →
  lookupExisting r info = Some (existingId, d) →
  let result := registerDevice now ent r info requirePairing in
  devices result.1 !! existingId = None
  ∧ size (devices result.1) = size (devices r)
  ∧ firstSeen result.2 = firstSeen d
  ∧ paired result.2 = paired d.
Proof.
  intros Hnew He. unfold registerDevice. rewrite Hnew, He. simpl.
  assert (devices r !! existingId = Some d) as Hd.
  { unfold lookupExisting in He.
    destruct (lookupExistingId r info); [|done].
    destruct (Js.truthy_str _); [|done].
    destruct (devices r !! s) eqn:E; [|done]. by injection He as <- <-. }
  assert (existingId ≠ id info) as Hne by congruence.
  split; [|split; [|done]].
  - rewrite lookup_insert_ne by done. apply lookup_delete_eq.
  - rewrite map_size_insert_None by (rewrite lookup_delete_ne; done).
    pose proof (map_size_delete_Some existingId (devices r)
                  (mk_is_Some _ _ Hd)) as Hsz.
    assert (size (devices r) ≠ 0%nat).
    { intros Hz. apply map_size_empty_inv in Hz. rewrite Hz in Hd.
      by rewrite lookup_empty in Hd. }
    lia.
Qed.

(** C8, at the session [Sample.restart].  t1 registers from one address,
    registers again from another, and restarts there as t2.  The second
    call refreshes the record of t1 without refreshing the ip index, so
    the third call finds nothing under its address: the registry ends
    with two records that carry the same ip, the record of t1 was not
    moved to t2, and t2 got a record of its own. *)
Theorem registerDevice_stale_index_duplicate :
  let before := run (take 2 Sample.restart) in
  let after := run Sample.restart in
  (∃ d, devices before !! "t1" = Some d
        ∧ ip (deviceInfo d) = ip Sample.t2)
  ∧ devices before !! "t2" = None
  ∧ lookupExisting before Sample.t2 = None
  ∧ size (devices after) = 2%nat
  ∧ (∃ d1 d2, devices after !! "t1" = Some d1
              ∧ devices after !! "t2" = Some d2
              ∧ ip (deviceInfo d1) = ip (deviceInfo d2)
              ∧ firstSeen d1 = 1000 ∧ firstSeen d2 = 3000).
Proof.
  intros before after. split; [|split; [|split; [|split]]].
  - eexists. split; [vm_compute; reflexivity | reflexivity].
  - vm_compute. reflexivity.
  - vm_compute. reflexivity.
  - vm_compute. reflexivity.
  - eexists _, _.
    split; [vm_compute; reflexivity|].
    split; [vm_compute; reflexivity|].
    split; [reflexivity|]. split; reflexivity.
Qed.

Lemma authToken_nonempty_iff_paired_witness :
  ∃ d, devices (run Sample.pairing) !! "t1" = Some d
       ∧ paired d = true
       ∧ (nonEmpty (authToken d) ↔ paired d = true).
Proof.
  eexists. split; [vm_compute; reflexivity|]. split; [reflexivity|].
  apply (authToken_nonempty_iff_paired Sample.pairing "t1").
  vm_compute. reflexivity.
Defined.

Lemma pairDevice_failure_reasons_witness :
  (pairDevice 2000 Sample.ones (run Sample.registration) "t1" "abc").2
  = failure "Invalid pairing token"
  ∧ (pairDevice 400000 Sample.ones (run Sample.registration) "t1"
       (generateToken Sample.zeros)).2
    = failure "Pairing token expired"
  ∧ (pairDevice 2000 Sample.ones (run Sample.pairing) "t1"
       (generateToken Sample.zeros)).2
    = failure "Device does not support pairing".
Proof.
  assert (afterEpoch Sample.registration) as Hr.
  { repeat constructor; vm_compute; discriminate. }
  assert (afterEpoch Sample.pairing) as Hp.
  { repeat constructor; vm_compute; discriminate. }
  split; [|split].
  - pose proof (pairDevice_failure_reasons Sample.registration 2000
                  Sample.ones "t1" "abc" Hr) as (_ & _ & Hmismatch & _).
    eapply Hmismatch.
    + vm_compute. reflexivity.
    + reflexivity.
    + discriminate.
  - pose proof (pairDevice_failure_reasons Sample.registration 400000
                  Sample.ones "t1" (generateToken Sample.zeros) Hr)
      as (_ & _ & _ & Hexpired & _).
    eapply Hexpired.
    + vm_compute. reflexivity.
    + reflexivity.
    + reflexivity.
    + reflexivity.
  - pose proof (pairDevice_failure_reasons Sample.pairing 2000
                  Sample.ones "t1" (generateToken Sample.zeros) Hp)
      as (_ & Hnone & _).
    eapply Hnone.
    + vm_compute. reflexivity.
    + reflexivity.
Defined.

Lemma pairDevice_success_record_witness :
  ∃ d',
    devices (pairDevice 1002 Sample.ones (run Sample.registration) "t1"
               (generateToken Sample.zeros)).1 !! "t1" = Some d'
    ∧ authToken d' = Some (generateToken Sample.ones)
    ∧ paired d' = true
    ∧ pairingToken d' = None
    ∧ pairingExpiration d' = None
    ∧ status d' = PAIRED.
Proof.
  destruct (pairDevice_success_record 1002 Sample.ones
              (run Sample.registration) "t1" (generateToken Sample.zeros))
    as (d & d' & Hd & Hd' & _ & Hauth & _ & Hpaired & Htok & Hexp & Hst & _).
  - vm_compute. reflexivity.
  - exists d'. repeat split; try done.
    apply Hst. vm_compute in Hd. injection Hd as <-. reflexivity.
Defined.

Lemma getPairedDevices_exactly_witness :
  (λ d, id (deviceInfo d))
    <$> getPairedDevices ["t2"; "t1"] (run Sample.fleet)
  = ["t2"; "t1"]
  ∧ ∃ d', devices (disconnectDevice 5000 (run Sample.fleet) "t1").1 !! "t1"
          = Some d'
          ∧ paired d' = true
          ∧ d' ∉ getPairedDevices ["t2"; "t1"]
                   (disconnectDevice 5000 (run Sample.fleet) "t1").1.
Proof.
  destruct (getPairedDevices_exactly ["t2"; "t1"] (run Sample.fleet))
    as (_ & Horder & Hdisconnected & _).
  - unfold listsKeys. vm_compute.
    first [reflexivity | apply perm_swap].
  - split; [rewrite Horder; vm_compute; reflexivity|].
    destruct (Hdisconnected 5000 "t1" Sample.paired_fleet_t1)
      as (d' & Hd' & Hp & _ & Hnot).
    + vm_compute. reflexivity.
    + reflexivity.
    + exists d'. by split; [|split].
Defined.

End RegistryFacts.

(** ** Control server *)

Section ServerFacts.

Import Server CommandSpec ServerSpec.

Lemma getConnectionByDeviceId_Some s devId connection :
  getConnectionByDeviceId s devId = Some connection →
  connection ∈ connections s ∧ deviceId connection = Some devId.
Proof.
  unfold getConnectionByDeviceId. intros H.
  apply find_some in H as [Hin Hb].
  apply bool_decide_eq_true in Hb. by rewrite list_elem_of_In.
Qed.

Lemma getConnectionByDeviceId_bound s devId :
  bool_decide (Exists (λ c, deviceId c = Some devId) (connections s))
  = bool_decide (is_Some (getConnectionByDeviceId s devId)).
Proof.
  apply bool_decide_ext. unfold getConnectionByDeviceId.
  induction (connections s) as [|c cs IH]; simpl.
  - split; [by inversion 1 | by intros [? ?]].
  - rewrite Exists_cons. destruct (bool_decide_reflect (deviceId c = Some devId)).
    + split; eauto.
    + rewrite IH. tauto.
Qed.

(** The outcome of [sendArrowCommand] is decided by the first
    precondition that fails. *)
Lemma sendArrowCommand_firstFailing now s devId dir repeat holdTime terr :
  match firstFailing s devId dir with
  | Some p =>
      sendArrowCommand now s devId dir repeat holdTime terr
      = (s, Rejected (reason p dir))
  | None =>
      ∃ connection,
        getConnectionByDeviceId s devId = Some connection
        ∧ sendArrowCommand now s devId dir repeat holdTime terr
          = (sendMessage s connection
               (createBaseMessage now MESSAGE_TYPES.COMMAND (controllerId s)
                  CONTROLLER
                  (CommandData (commandTypeOf dir) dir
                     (numberOr repeat 1) (numberOr holdTime 0))),
             match terr with
             | Some e => Rejected e
             | None => Resolved true
             end)
  end.
Proof.
  unfold firstFailing, preconditions, sendArrowCommand, Registry.getDeviceById,
    whenKnown.
  cbn [List.find satisfied reason].
  rewrite getConnectionByDeviceId_bound.
  destruct (Registry.devices (deviceRegistry s) !! devId) as [d|]; [|done].
  cbn [negb].
  destruct (Registry.status d); cbn; try done.
  all: destruct (Registry.paired d); cbn; [|done].
  all: destruct (bool_decide (commandTypeOf dir ∈ _)); cbn; [|done].
  all: destruct (getConnectionByDeviceId s devId) as [connection|]; cbn;
    [by exists connection | done].
Qed.

(** C3.  sendArrowCommand checks its five preconditions in the order
    device known, status connected or paired, device paired, command type
    among supportedCommands, a connection bound to the device: the call
    is rejected with the reason of the first one that fails, the five
    reasons differ from one another, and a rejected call leaves the
    server as it was, so that no frame is written to any connection.
    When no precondition fails the command is written to the connection
    bound to the device. *)
Theorem sendArrowCommand_checks_in_order (now : Z) (s : ControlServer)
    (devId : string) (dir : Direction) (repeat holdTime : option Z)
    (terr : option string) :
  NoDup ((λ p, reason p dir) <$> preconditions)
  ∧ (∀ p, firstFailing s devId dir = Some p →
          sendArrowCommand now s devId dir repeat holdTime terr
          = (s, Rejected (reason p dir)))
  ∧ (firstFailing s devId dir = None →
     ∃ connection,
       getConnectionByDeviceId s devId = Some connection
       ∧ written s (sendArrowCommand now s devId dir repeat holdTime terr).1
           [(connectionId connection,
             createBaseMessage now MESSAGE_TYPES.COMMAND (controllerId s)
               CONTROLLER
               (CommandData (commandTypeOf dir) dir
                  (numberOr repeat 1) (numberOr holdTime 0)))]).
Proof.
  pose proof (sendArrowCommand_firstFailing now s devId dir repeat holdTime terr)
    as H.
  split; [|split].
  - destruct dir; by apply (bool_decide_unpack _).
  - intros p Hp. by rewrite Hp in H.
  - intros Hp. rewrite Hp in H. destruct H as (connection & Hc & ->).
    by exists connection.
Qed.

Lemma pairDevice_failure now ent r devId token :
  Registry.success (Registry.pairDevice now ent r devId token).2 = false →
  (Registry.pairDevice now ent r devId token).1 = r
  ∧ ∃ reason, Registry.error (Registry.pairDevice now ent r devId token).2
              = Some reason
              ∧ reason ≠ "".
Proof.
  unfold Registry.pairDevice.
  destruct (Registry.devices r !! devId); [|by eauto].
  repeat (match goal with |- context [if ?b then _ else _] =>
            destruct b; [by eauto|] end).
  done.
Qed.

(** C1, as the server behaves.  When a pairing_request arrives on a
    connection bound to a device and the pairDevice call of the registry
    fails, the server writes one frame to that connection, an error
    message with code 101 (authentication failed) whose text is the
    reason given by the registry, and leaves the registry, hence the
    status and paired flag of the device, and the connection table
    unchanged. *)
Theorem pairing_failure_reply (tPair tMessage : Z) (ent : Entropy)
    (s : ControlServer) (connection : WebSocketWithId)
    (devId token : string) :
  deviceId connection = Some devId →
  devId ≠ "" →
  token ≠ "" →
  Registry.success
    (Registry.pairDevice tPair ent (deviceRegistry s) devId token).2 = false →
  let s' :=
    handlePairingRequestMessage tPair tMessage ent s connection (Some token) in
  ∃ reason m,
    Registry.error
      (Registry.pairDevice tPair ent (deviceRegistry s) devId token).2
    = Some reason
    ∧ m = createErrorMessage tMessage (controllerId s) CONTROLLER
            ERROR_CODES.AUTHENTICATION_FAILED reason
    ∧ isAuthenticationError reason m
    ∧ written s s' [(connectionId connection, m)]
    ∧ deviceRegistry s' = deviceRegistry s
    ∧ connections s' = connections s.
Proof.
  intros Hbound Hdev Htok Hfail s'.
  destruct (pairDevice_failure _ _ _ _ _ Hfail) as (Hr & reason & He & Hne).
  exists reason, (createErrorMessage tMessage (controllerId s) CONTROLLER
                    ERROR_CODES.AUTHENTICATION_FAILED reason).
  subst s'. unfold handlePairingRequestMessage. rewrite Hbound.
  apply truthy_str_true in Hdev, Htok. rewrite Hdev, Htok. cbn [negb].
  destruct (Registry.pairDevice tPair ent (deviceRegistry s) devId token)
    as [r' result] eqn:Hp.
  simpl in Hfail, Hr, He. rewrite Hfail, He. cbn [negb errorOrDefault].
  apply truthy_str_true in Hne. rewrite Hne. subst r'.
  repeat split. exact He.
Qed.

Lemma pairing_failure_reply_witness :
  ∃ reason m,
    Registry.error
      (Registry.pairDevice 2000 Sample.ones
         (deviceRegistry Sample.registered) "t1" "abc").2
    = Some reason
    ∧ m = createErrorMessage 2001 (controllerId Sample.registered) CONTROLLER
            ERROR_CODES.AUTHENTICATION_FAILED reason
    ∧ isAuthenticationError reason m
    ∧ written Sample.registered
        (handlePairingRequestMessage 2000 2001 Sample.ones Sample.registered
           Sample.c1_t1 (Some "abc"))
        [(connectionId Sample.c1_t1, m)]
    ∧ deviceRegistry
        (handlePairingRequestMessage 2000 2001 Sample.ones Sample.registered
           Sample.c1_t1 (Some "abc"))
      = deviceRegistry Sample.registered
    ∧ connections
        (handlePairingRequestMessage 2000 2001 Sample.ones Sample.registered
           Sample.c1_t1 (Some "abc"))
      = connections Sample.registered.
Proof.
  apply (pairing_failure_reply 2000 2001 Sample.ones Sample.registered
           Sample.c1_t1 "t1" "abc").
  - reflexivity.
  - discriminate.
  - discriminate.
  - vm_compute. reflexivity.
Defined.

(** C1, as the specification words it, fails.  t1 is registered on c1
    with the pairing token 00..0 and asks to pair with the token "abc":
    the registry refuses with "Invalid pairing token", and none of the
    frames the server has written is a pairing_response. *)
Lemma pairing_failure_reply_is_no_pairing_response :
  let s' :=
    handlePairingRequestMessage 2000 2001 Sample.ones Sample.registered
      Sample.c1_t1 (Some "abc") in
  Sample.c1_t1 ∈ connections Sample.registered
  ∧ (Registry.pairDevice 2000 Sample.ones
       (deviceRegistry Sample.registered) "t1" "abc").2
    = Registry.failure "Invalid pairing token"
  ∧ Forall (λ frame, msg_type frame.2 ≠ MESSAGE_TYPES.PAIRING_RESPONSE)
      (sent s')
  ∧ ¬ ∃ m, (connectionId Sample.c1_t1, m) ∈ sent s'
           ∧ isPairingRejection "Invalid pairing token" m.
Proof.
  intros s'.
  assert (Forall (λ frame, msg_type frame.2 ≠ MESSAGE_TYPES.PAIRING_RESPONSE)
            (sent s')) as Hnone.
  { vm_compute. repeat constructor; discriminate. }
  split; [|split; [|split]].
  - vm_compute. apply list_elem_of_here.
  - vm_compute. reflexivity.
  - exact Hnone.
  - intros (m & Hin & Htype & _).
    rewrite Forall_forall in Hnone. exact (Hnone _ Hin Htype).
Qed.

Lemma registerDevice_returns_id now ent r info requirePairing :
  id (Registry.deviceInfo (Registry.registerDevice now ent r info requirePairing).2)
  = id info.
Proof. apply registerDevice_entry. Qed.

(** C2, as the server behaves.  A register message of a target, handled
    on a connection, binds that connection to the device id and makes its
    connectionId the one recorded for the device in the registry; every
    other connection of the table stays in the table as it was, a
    connection that was bound to the same device id included, which is
    neither terminated nor unbound. *)
Theorem handleRegisterMessage_binds_and_keeps_others
    (tRegister tConnect tMessage : Z) (ent : Entropy) (s : ControlServer)
    (connection : WebSocketWithId) (info : DeviceInfo) :
  id info ≠ "" →
  type info = TARGET →
  let s' :=
    handleRegisterMessage tRegister tConnect tMessage ent s connection
      (Some info) in
  let bound :=
    {| connectionId := connectionId connection;
       deviceId := Some (id info);
       isAlive := isAlive connection;
       lastActivity := lastActivity connection |} in
  (connection ∈ connections s → bound ∈ connections s')
  ∧ (∀ other, other ∈ connections s →
              connectionId other ≠ connectionId connection →
              other ∈ connections s')
  ∧ length (connections s') = length (connections s)
  ∧ (∃ d, Registry.devices (deviceRegistry s') !! id info = Some d
          ∧ Registry.connectionId d = Some (connectionId connection)).
Proof.
  intros Hid Htype s' bound.
  assert (connections s'
          = map (λ c, if String.eqb (connectionId c) (connectionId connection)
                      then bound else c) (connections s)) as Hconns.
  { subst s' bound. unfold handleRegisterMessage.
    apply truthy_str_true in Hid. rewrite Hid, Htype. cbn [negb].
    pose proof (registerDevice_returns_id tRegister ent (deviceRegistry s)
                  info true) as Hret.
    destruct (Registry.registerDevice tRegister ent (deviceRegistry s) info true)
      as [r1 device]. simpl in Hret. simpl. by rewrite Hret. }
  split; [|split; [|split]].
  - intros Hin. rewrite Hconns. apply list_elem_of_fmap.
    exists connection. by rewrite String.eqb_refl.
  - intros other Hin Hne. rewrite Hconns. apply list_elem_of_fmap.
    exists other. split; [|done].
    apply String.eqb_neq in Hne. by rewrite Hne.
  - rewrite Hconns. apply length_map.
  - subst s'. unfold handleRegisterMessage.
    apply truthy_str_true in Hid. rewrite Hid, Htype. cbn [negb].
    pose proof (registerDevice_entry tRegister ent (deviceRegistry s)
                  info true) as (Hentry & _ & Hret).
    destruct (Registry.registerDevice tRegister ent (deviceRegistry s) info true)
      as [r1 device]. simpl in Hentry, Hret. simpl.
    rewrite Hret. unfold Registry.connectDevice. rewrite Hentry. simpl.
    rewrite lookup_insert_eq. by eexists.
Qed.

Lemma handleRegisterMessage_binds_and_keeps_others_witness :
  Sample.c1_t1
    ∈ connections
        (handleRegisterMessage 3000 3001 3002 Sample.ones Sample.registered
           Sample.c2 (Some Sample.t1))
  ∧ Sample.c2_t1
    ∈ connections
        (handleRegisterMessage 3000 3001 3002 Sample.ones Sample.registered
           Sample.c2 (Some Sample.t1)).
Proof.
  pose proof (handleRegisterMessage_binds_and_keeps_others 3000 3001 3002
                Sample.ones Sample.registered Sample.c2 Sample.t1)
    as H.
  destruct H as (Hbound & Hothers & _).
  - discriminate.
  - reflexivity.
  - split.
    + apply (Hothers Sample.c1_t1).
      * vm_compute. apply list_elem_of_here.
      * discriminate.
    + apply Hbound. vm_compute. apply list_elem_of_further, list_elem_of_here.
Defined.

(** C2, as the specification words it, fails.  t1 is registered on c1;
    a register message for t1 then arrives on c2.  Afterwards both
    connections are in the table and both are bound to t1. *)
Lemma register_keeps_prior_connection_bound :
  let s' :=
    handleRegisterMessage 3000 3001 3002 Sample.ones Sample.registered
      Sample.c2 (Some Sample.t1) in
  boundTo Sample.registered "t1" = [Sample.c1_t1]
  ∧ Sample.c2 ∈ connections Sample.registered
  ∧ boundTo s' "t1" = [Sample.c1_t1; Sample.c2_t1]
  ∧ ¬ (length (boundTo s' "t1") ≤ 1)%nat.
Proof.
  intros s'. split; [|split; [|split]].
  - vm_compute. reflexivity.
  - vm_compute. apply list_elem_of_further, list_elem_of_here.
  - vm_compute. reflexivity.
  - vm_compute. lia.
Qed.

Lemma sendArrowCommand_checks_in_order_witness :
  sendArrowCommand 4000 Sample.registered "t1" left (Some 2) None None
  = (Sample.registered, Rejected "Device not paired").
Proof.
  pose proof (sendArrowCommand_checks_in_order 4000 Sample.registered "t1"
                left (Some 2) None None) as (_ & Hfail & _).
  apply (Hfail (mkPrecondition
                  (λ s devId _, whenKnown s devId Registry.paired)
                  (λ _, "Device not paired"))).
  vm_compute. reflexivity.
Defined.

End ServerFacts.

(** ** Control client: reconnection *)

Section ClientFacts.

Import Client ClientSpec.

(** Reduce the projections of explicit records, and nothing else. *)
Ltac fields :=
  cbn [autoConnect heartbeatInterval controllerInfo ws heartbeatIntervalId
       reconnectTimeoutId reconnectAttempts maxReconnectAttempts status
       timers nextHandle sockets log].

Lemma clearTimer_owned h ts :
  Forall (λ t, handle t = h) ts → clearTimer h ts = [].
Proof.
  unfold clearTimer. induction 1 as [|t ts Ht _ IH]; [done|].
  rewrite filter_cons. destruct (decide (handle t ≠ h)); [done|exact IH].
Qed.

(** Clearing the heartbeat interval and the reconnect timeout of a
    client that owns its timers leaves no timer pending. *)
Lemma clear_both hb rt ts :
  Forall (λ t, hb = Some (handle t) ∨ rt = Some (handle t)) ts →
  match rt with
  | Some h => clearTimer h
  | None => λ ts, ts
  end (match hb with
       | Some h => clearTimer h ts
       | None => ts
       end) = [].
Proof.
  unfold clearTimer. induction 1 as [|t ts Ht _ IH]; [by destruct hb, rt|].
  destruct hb as [h1|], rt as [h2|]; simpl in *;
    rewrite ?filter_cons;
    repeat (match goal with |- context [decide ?P] => destruct (decide P) end;
            rewrite ?filter_cons);
    try exact IH; destruct Ht as [Ht|Ht]; congruence.
Qed.

Lemma settle_sock k ss : sock <$> settle k ss = sock <$> ss.
Proof.
  unfold settle. induction ss as [|s ss IH]; [done|].
  csimpl. f_equal; [|exact IH]. by destruct (Nat.eqb _ _).
Qed.

Lemma settle_numbered k ss :
  sock <$> ss = seq 0 (length ss) →
  sock <$> settle k ss = seq 0 (length (settle k ss)).
Proof.
  intros H. rewrite settle_sock. unfold settle. by rewrite length_map.
Qed.

Lemma numbered_snoc ss s :
  sock <$> ss = seq 0 (length ss) → sock s = length ss →
  sock <$> (ss ++ [s]) = seq 0 (length (ss ++ [s])).
Proof.
  intros Hids Hs. rewrite fmap_app, length_app, seq_app, Hids. simpl.
  by rewrite Hs.
Qed.

Lemma waiting_tracked c a : waiting c a → tracked c.
Proof.
  intros (_ & _ & _ & _ & _ & _ & Hs & h & Hh & Ht). split; [|done].
  rewrite Ht, Hh. constructor; [by right|constructor].
Qed.

Lemma logged_tracked e c : tracked c → tracked (logged e c).
Proof. intros H. exact H. Qed.

(** [handleDisconnection] leaves a client that reconnects automatically
    waiting, whatever it was doing. *)
Lemma handleDisconnection_waiting c :
  tracked c → autoConnect c = true → is_Some (controllerInfo c) →
  waiting (handleDisconnection c) (reconnectAttempts c)
  ∧ maxReconnectAttempts (handleDisconnection c) = maxReconnectAttempts c
  ∧ sockets (handleDisconnection c) = sockets c
  ∧ log (handleDisconnection c)
    = log c ++ [SchedulingReconnect (backoffTime (reconnectAttempts c))].
Proof.
  intros [Htimers Hsocks] Hauto Hinfo.
  pose proof (clear_both _ _ _ Htimers) as Hclear.
  unfold handleDisconnection, stopHeartbeat.
  destruct (heartbeatIntervalId c) as [h1|] eqn:Hhb;
    cbn [autoConnect controllerInfo]; rewrite Hauto;
    rewrite (bool_decide_eq_true_2 _ Hinfo); cbn [andb];
    unfold scheduleReconnect, waiting;
    cbn [autoConnect controllerInfo ws status heartbeatIntervalId
         reconnectAttempts sockets reconnectTimeoutId timers
         maxReconnectAttempts log nextHandle];
    rewrite ?Hhb;
    destruct (reconnectTimeoutId c) as [h2|] eqn:Hrt;
    cbn beta iota in Hclear; rewrite Hclear;
    repeat split; eauto.
Qed.

Lemma scheduleReconnect_waiting c a :
  waiting c a →
  waiting (scheduleReconnect c) a
  ∧ maxReconnectAttempts (scheduleReconnect c) = maxReconnectAttempts c
  ∧ sockets (scheduleReconnect c) = sockets c
  ∧ log (scheduleReconnect c) = log c ++ [SchedulingReconnect (backoffTime a)].
Proof.
  intros (Hauto & Hinfo & Hws & Hst & Hhb & Ha & Hs & h & Hh & Ht).
  unfold scheduleReconnect, waiting.
  cbn [autoConnect controllerInfo ws status heartbeatIntervalId
       reconnectAttempts sockets reconnectTimeoutId timers
       maxReconnectAttempts log nextHandle].
  rewrite Hh, Ht, Ha.
  rewrite (clearTimer_owned h) by (constructor; [done|constructor]).
  repeat split; eauto.
Qed.

Lemma logged_waiting e c a : waiting c a → waiting (logged e c) a.
Proof. intros H. exact H. Qed.

Lemma settled_waiting k c a :
  waiting c a → waiting (withSockets (settle k (sockets c)) c) a.
Proof.
  intros (Hauto & Hinfo & Hws & Hst & Hhb & Ha & Hs & Ht).
  unfold waiting.
  cbn [withSockets autoConnect controllerInfo ws status heartbeatIntervalId
       reconnectAttempts sockets reconnectTimeoutId timers].
  repeat split; try done. by apply settle_numbered.
Qed.

Lemma onClose_waiting k c :
  tracked c → autoConnect c = true → is_Some (controllerInfo c) →
  waiting (onClose k c) (reconnectAttempts c)
  ∧ maxReconnectAttempts (onClose k c) = maxReconnectAttempts c
  ∧ ∃ rest, log (onClose k c) = log c ++ rest.
Proof.
  intros Htr Hauto Hinfo. unfold onClose.
  destruct (handleDisconnection_waiting (logged Disconnected c)
              (logged_tracked _ _ Htr) Hauto Hinfo) as (Hw & Hm & _ & Hl).
  change (reconnectAttempts (logged Disconnected c))
    with (reconnectAttempts c) in Hw, Hl.
  change (maxReconnectAttempts (logged Disconnected c))
    with (maxReconnectAttempts c) in Hm.
  change (log (logged Disconnected c)) with (log c ++ [Disconnected]) in Hl.
  generalize dependent (handleDisconnection (logged Disconnected c)).
  intros c1 Hw Hm Hl. split; [|split].
  - by apply settled_waiting.
  - exact Hm.
  - change (log (withSockets (settle k (sockets c1)) c1)) with (log c1).
    rewrite Hl, <-app_assoc. by eexists.
Qed.

Lemma onError_waiting k c :
  tracked c → autoConnect c = true → is_Some (controllerInfo c) →
  waiting (onError k c) (reconnectAttempts c)
  ∧ maxReconnectAttempts (onError k c) = maxReconnectAttempts c
  ∧ ∃ rest, log (onError k c) = log c ++ rest.
Proof.
  intros Htr Hauto Hinfo. unfold onError.
  destruct (handleDisconnection_waiting (logged WebSocketError c)
              (logged_tracked _ _ Htr) Hauto Hinfo) as (Hw & Hm & _ & Hl).
  change (reconnectAttempts (logged WebSocketError c))
    with (reconnectAttempts c) in Hw, Hl.
  change (maxReconnectAttempts (logged WebSocketError c))
    with (maxReconnectAttempts c) in Hm.
  change (log (logged WebSocketError c)) with (log c ++ [WebSocketError]) in Hl.
  generalize dependent (handleDisconnection (logged WebSocketError c)).
  intros c1 Hw Hm Hl.
  assert (∃ rest, log c1 = log c ++ rest) as [rest1 Hl1].
  { rewrite Hl, <-app_assoc. by eexists. }
  destruct (find _ (sockets c1)) as [s|]; [|by eauto].
  destruct (settled s); [by eauto|].
  pose proof (settled_waiting k _ _ Hw) as Hw2.
  destruct (caller s); unfold onRejected.
  - pose proof (logged_waiting ReconnectFailed _ _ Hw2) as Hw3.
    destruct (scheduleReconnect_waiting _ _ Hw3) as (Hw4 & Hm4 & _ & Hl4).
    split; [done|]. split; [by rewrite Hm4|].
    rewrite Hl4.
    change (log (logged ReconnectFailed
                   (withSockets (settle k (sockets c1)) c1)))
      with (log c1 ++ [ReconnectFailed]).
    rewrite Hl1, <-!app_assoc. by eexists.
  - split; [by apply logged_waiting|]. split; [done|].
    change (log (logged ErrorAutoConnecting
                   (withSockets (settle k (sockets c1)) c1)))
      with (log c1 ++ [ErrorAutoConnecting]).
    rewrite Hl1, <-!app_assoc. by eexists.
Qed.

(** The reconnect timeout fires within the budget: the counter is
    incremented and the attempt is made on a new socket. *)
Lemma fireTimer_attempt c a h :
  waiting c a → reconnectTimeoutId c = Some h →
  a + 1 ≤ maxReconnectAttempts c →
  tracked (fireTimer h false c)
  ∧ autoConnect (fireTimer h false c) = true
  ∧ is_Some (controllerInfo (fireTimer h false c))
  ∧ is_Some (ws (fireTimer h false c))
  ∧ reconnectAttempts (fireTimer h false c) = a + 1
  ∧ maxReconnectAttempts (fireTimer h false c) = maxReconnectAttempts c
  ∧ log (fireTimer h false c) = log c ++ [ReconnectAttempt (a + 1); Connecting].
Proof.
  intros (Hauto & [[ipAddr port] Hinfo] & Hws & Hst & Hhb & Ha & Hs & h' & Hh' & Ht)
    Hh Hmax.
  rewrite Hh in Hh'. injection Hh' as <-.
  unfold fireTimer. rewrite Ht. cbn [find handle]. rewrite Nat.eqb_refl.
  cbn [task].
  rewrite (clearTimer_owned h) by (constructor; [done|constructor]).
  unfold reconnectCallback. cbv zeta. fields. rewrite Ha.
  destruct (Z.ltb_spec (maxReconnectAttempts c) (a + 1)) as [?|_]; [lia|].
  unfold logged. fields. rewrite Hinfo.
  unfold connect. fields. rewrite Hws. cbv zeta. fields. cbv iota.
  unfold tracked. fields.
  split; [split; [constructor | by apply numbered_snoc]|].
  rewrite <-app_assoc. repeat split; eauto.
Qed.

(** A failed cycle within the budget: the timer fires, the attempt is
    made and fails, and the client waits again, one attempt later. *)
Lemma failedCycle_retries c a :
  waiting c a → a + 1 ≤ maxReconnectAttempts c →
  waiting (failedCycle c) (a + 1)
  ∧ maxReconnectAttempts (failedCycle c) = maxReconnectAttempts c
  ∧ ∃ rest, log (failedCycle c) = log c ++ ReconnectAttempt (a + 1) :: rest.
Proof.
  intros Hw Hmax.
  pose proof Hw as (_ & _ & _ & _ & _ & _ & _ & h & Hh & _).
  destruct (fireTimer_attempt c a h Hw Hh Hmax)
    as (Htr & Hauto & Hinfo & [k Hws] & Ha & Hm & Hl).
  unfold failedCycle. rewrite Hh. cbv zeta. rewrite Hws.
  generalize dependent (fireTimer h false c). intros c1 Htr Hauto Hinfo Hws Ha Hm Hl.
  destruct (onError_waiting k c1 Htr Hauto Hinfo) as (Hw2 & Hm2 & rest2 & Hl2).
  rewrite Ha in Hw2. rewrite Hm in Hm2. rewrite Hl in Hl2.
  generalize dependent (onError k c1). intros c2 Hw2 Hm2 Hl2.
  destruct (onClose_waiting k c2 (waiting_tracked _ _ Hw2))
    as (Hw3 & Hm3 & rest3 & Hl3); [apply Hw2 .. |].
  replace (reconnectAttempts c2) with (a + 1) in Hw3 by (symmetry; apply Hw2).
  split; [done|]. split; [congruence|].
  rewrite Hl3, Hl2, <-!app_assoc. simpl. by eexists.
Qed.

(** The cycle that exceeds the budget: the timer fires, the client
    reports that it gives up, and nothing is left pending or scheduled
    afterwards. *)
Lemma failedCycle_gives_up c a :
  waiting c a → maxReconnectAttempts c < a + 1 →
  gaveUp (failedCycle c)
  ∧ reconnectAttempts (failedCycle c) = a + 1
  ∧ log (failedCycle c) = log c ++ [MaxReconnectReached]
  ∧ failedCycle (failedCycle c) = failedCycle c.
Proof.
  intros (Hauto & Hinfo & Hws & Hst & Hhb & Ha & Hs & h & Hh & Ht) Hmax.
  assert (failedCycle c
          = logged MaxReconnectReached
              {| autoConnect := autoConnect c;
                 heartbeatInterval := heartbeatInterval c;
                 controllerInfo := controllerInfo c;
                 ws := ws c;
                 heartbeatIntervalId := heartbeatIntervalId c;
                 reconnectTimeoutId := reconnectTimeoutId c;
                 reconnectAttempts := a + 1;
                 maxReconnectAttempts := maxReconnectAttempts c;
                 status := status c;
                 timers := [];
                 nextHandle := nextHandle c;
                 sockets := sockets c;
                 log := log c |}) as Heq.
  { unfold failedCycle. rewrite Hh. cbv zeta.
    unfold fireTimer. rewrite Ht. cbn [find handle]. rewrite Nat.eqb_refl.
    cbn [task].
    rewrite (clearTimer_owned h) by (constructor; [done|constructor]).
    unfold reconnectCallback. cbv zeta. fields. rewrite Ha.
    destruct (Z.ltb_spec (maxReconnectAttempts c) (a + 1)) as [_|?]; [|lia].
    cbn [logged ws]. by rewrite Hws, Hh. }
  rewrite Heq. unfold gaveUp, logged. fields.
  rewrite last_snoc. repeat split; try done.
  unfold failedCycle. fields. rewrite Hh. cbv zeta.
  unfold fireTimer. fields. cbn [find]. fields. by rewrite Hws.
Qed.

Lemma failedCycles_waiting c (n : nat) :
  waiting c 0 → Z.of_nat n ≤ maxReconnectAttempts c →
  waiting (Nat.iter n failedCycle c) (Z.of_nat n)
  ∧ maxReconnectAttempts (Nat.iter n failedCycle c) = maxReconnectAttempts c.
Proof.
  intros Hw. induction n as [|n IH]; intros Hn; [done|].
  destruct IH as [IHw IHm]; [lia|]. simpl.
  destruct (failedCycle_retries _ _ IHw) as (Hw' & Hm' & _); [lia|].
  split; [|congruence].
  by replace (Z.of_nat (S n)) with (Z.of_nat n + 1) by lia.
Qed.

Lemma failedCycles_stuck c (n : nat) :
  failedCycle c = c → Nat.iter n failedCycle c = c.
Proof. intros H. induction n as [|n IH]; simpl; congruence. Qed.

(** C7.  A client with auto-reconnect whose session ends by a close or
    an error of its socket (or both) waits, before reconnect attempt N,
    min(1000 * 2^(N-1), 30000) milliseconds, this being its only pending
    timer; every failed cycle increments the attempt counter by one; and
    when the counter exceeds maxReconnectAttempts the client logs that
    the maximum is reached and that it gives up, makes no attempt, and is
    left disconnected without any pending timer, for good. *)
Theorem reconnect_backoff_and_give_up (c : ControlClient) (how : Loss)
    (k : nat) :
  tracked c → autoConnect c = true → is_Some (controllerInfo c) →
  reconnectAttempts c = 0 → 0 ≤ maxReconnectAttempts c →
  let after (n : nat) := Nat.iter n failedCycle (sessionLost how k c) in
  let budget := Z.to_nat (maxReconnectAttempts c) in
  (∀ N : nat, (1 ≤ N ≤ budget)%nat →
     (∃ h, timers (after (N - 1)%nat)
           = [ {| handle := h; task := ReconnectTask;
                  delay := Z.min (1000 * 2 ^ (Z.of_nat N - 1)) 30000 |} ])
     ∧ reconnectAttempts (after (N - 1)%nat) = Z.of_nat N - 1
     ∧ reconnectAttempts (after N) = Z.of_nat N
     ∧ ReconnectAttempt (Z.of_nat N) ∈ log (after N))
  ∧ (∃ h, timers (after budget)
          = [ {| handle := h; task := ReconnectTask;
                 delay := Z.min (1000 * 2 ^ maxReconnectAttempts c) 30000 |} ])
  ∧ gaveUp (after (S budget))
  ∧ reconnectAttempts (after (S budget)) = maxReconnectAttempts c + 1
  ∧ log (after (S budget)) = log (after budget) ++ [MaxReconnectReached]
  ∧ (∀ m : nat, (S budget ≤ m)%nat → after m = after (S budget)).
Proof.
  intros Htr Hauto Hinfo Ha Hmax after budget.
  assert (waiting (sessionLost how k c) 0
          ∧ maxReconnectAttempts (sessionLost how k c)
            = maxReconnectAttempts c) as [Hw0 Hm0].
  { rewrite <-Ha. destruct how; cbn [sessionLost].
    - destruct (onClose_waiting k c Htr Hauto Hinfo) as (? & ? & _). done.
    - destruct (onError_waiting k c Htr Hauto Hinfo) as (? & ? & _). done.
    - destruct (onError_waiting k c Htr Hauto Hinfo) as (Hw & Hm & _).
      destruct (onClose_waiting k (onError k c) (waiting_tracked _ _ Hw))
        as (Hw' & Hm' & _); [apply Hw .. |].
      replace (reconnectAttempts (onError k c)) with (reconnectAttempts c)
        in Hw' by (symmetry; apply Hw).
      split; [done|]. by rewrite Hm', Hm. }
  assert (∀ n : nat, (n ≤ budget)%nat →
            waiting (after n) (Z.of_nat n)
            ∧ maxReconnectAttempts (after n) = maxReconnectAttempts c) as Hall.
  { intros n Hn.
    destruct (failedCycles_waiting (sessionLost how k c) n Hw0) as [Hw Hm];
      [rewrite Hm0; lia|].
    unfold after. split; [done|]. by rewrite Hm, Hm0. }
  split; [|split].
  - intros N [HN1 HN2]. destruct N as [|n]; [lia|].
    replace (S n - 1)%nat with n by lia.
    replace (Z.of_nat (S n) - 1) with (Z.of_nat n) by lia.
    replace (Z.of_nat (S n)) with (Z.of_nat n + 1) by lia.
    destruct (Hall n) as [Hw Hm]; [lia|].
    destruct (failedCycle_retries _ _ Hw) as (Hw' & _ & rest & Hl); [lia|].
    change (after (S n)) with (failedCycle (after n)).
    split; [|split; [|split]].
    + destruct Hw as (_ & _ & _ & _ & _ & _ & _ & h & _ & Ht). by exists h.
    + apply Hw.
    + apply Hw'.
    + rewrite Hl. apply elem_of_app. right. apply list_elem_of_here.
  - destruct (Hall budget) as [Hw _]; [lia|].
    replace (Z.of_nat budget) with (maxReconnectAttempts c) in Hw by lia.
    destruct Hw as (_ & _ & _ & _ & _ & _ & _ & h & _ & Ht). by exists h.
  - destruct (Hall budget) as [Hw Hm]; [lia|].
    destruct (failedCycle_gives_up _ _ Hw) as (Hg & Hattempts & Hl & Hstuck);
      [lia|].
    change (after (S budget)) with (failedCycle (after budget)).
    split; [done|]. split; [lia|]. split; [done|].
    intros m Hm'. replace m with ((m - S budget) + S budget)%nat by lia.
    subst after. cbv beta. rewrite Nat.iter_add.
    by apply failedCycles_stuck.
Qed.

Lemma reconnect_backoff_and_give_up_witness :
  (∃ h, timers (Nat.iter 2 failedCycle (onClose 0 Sample.connected))
        = [ {| handle := h; task := ReconnectTask; delay := 4000 |} ])
  ∧ gaveUp (Nat.iter 11 failedCycle (onClose 0 Sample.connected)).
Proof.
  pose proof (reconnect_backoff_and_give_up Sample.connected ByClose 0) as H.
  destruct H as (Hdelay & _ & Hgave & _).
  - split; [|reflexivity]. vm_compute. repeat constructor.
  - reflexivity.
  - vm_compute. eauto.
  - reflexivity.
  - vm_compute. discriminate.
  - split; [|exact Hgave].
    destruct (Hdelay 3%nat) as [Ht _]; [vm_compute; lia|]. exact Ht.
Defined.

End ClientFacts.

(** ** Device registry: how the operations compose *)

Section RegistryComposition.

Import Registry RegistrySpec RegistryShape History.

Lemma lookupExisting_Some r info existingId d :
  lookupExisting r info = Some (existingId, d) →
  devices r !! existingId = Some d.
Proof.
  unfold lookupExisting. intros He.
  destruct (lookupExistingId r info) as [e|]; [|done].
  destruct (Js.truthy_str e); [|done].
  destruct (devices r !! e) eqn:E; [|done]. by injection He as <- <-.
Qed.

Lemma removeDevice_map_Forall (P : string → RegisteredDevice → Prop) r k :
  map_Forall P (devices r) → map_Forall P (devices (removeDevice r k).1).
Proof.
  intros H. unfold removeDevice. destruct (devices r !! k); [|done].
  by apply map_Forall_delete.
Qed.

Lemma cleanupOldDevices_map_Forall (P : string → RegisteredDevice → Prop)
    now r maxAge :
  map_Forall P (devices r) →
  map_Forall P (devices (cleanupOldDevices now r maxAge).1).
Proof.
  unfold cleanupOldDevices.
  generalize (map_to_list (devices r)) as entries.
  generalize 0 as n. generalize (now - maxAge) as cutoff.
  intros cutoff n entries. revert r n.
  induction entries as [|[k d] entries IH]; intros r n H; [done|].
  simpl. unfold cleanupStep at 2. simpl.
  destruct (lastSeen d <? cutoff); [|by apply IH].
  pose proof (removeDevice_map_Forall P r k H) as H'.
  destruct (removeDevice r k) as [r' removed]. by apply IH.
Qed.

(** Every operation keeps every record coherent. *)
Lemma step_coherent r call :
  map_Forall coherent (devices r) → map_Forall coherent (devices (step r call)).
Proof.
  intros H.
  destruct call as [now ent info rp | now did cid | now did | now ent did tok
                   | now ent did | did | now did | now maxAge]; simpl.
  - unfold registerDevice.
    destruct (devices r !! id info) as [d|] eqn:Hd.
    + simpl. apply map_Forall_insert_2; [|done].
      destruct (map_Forall_lookup_1 _ _ _ _ H Hd) as (_ & Hc & Hp).
      by split.
    + destruct (lookupExisting r info) as [[eid d]|] eqn:He.
      * apply lookupExisting_Some in He.
        simpl. apply map_Forall_insert_2; [|by apply map_Forall_delete].
        destruct (map_Forall_lookup_1 _ _ _ _ H He) as (_ & Hc & Hp).
        by split.
      * simpl. apply map_Forall_insert_2; [|done].
        split; [done|]. split; [by left|done].
  - unfold connectDevice. destruct (devices r !! did) as [d|] eqn:Hd; [|done].
    simpl. apply map_Forall_insert_2; [|done].
    destruct (map_Forall_lookup_1 _ _ _ _ H Hd) as (Hk & Hc & Hp).
    split; [done|]. split; [|done]. unfold connectionCoherent. simpl.
    destruct (paired d); [right; right | right; left]; eauto.
  - unfold disconnectDevice.
    destruct (devices r !! did) as [d|] eqn:Hd; [|done].
    simpl. apply map_Forall_insert_2; [|done].
    destruct (map_Forall_lookup_1 _ _ _ _ H Hd) as (Hk & Hc & Hp).
    split; [done|]. split; [by left|done].
  - unfold pairDevice. destruct (devices r !! did) as [d|] eqn:Hd; [|done].
    repeat (match goal with |- context [if ?b then _ else _] =>
              destruct b; [done|] end).
    simpl. apply map_Forall_insert_2; [|done].
    destruct (map_Forall_lookup_1 _ _ _ _ H Hd) as (Hk & Hc & Hp).
    split; [done|]. split; [|done]. unfold connectionCoherent. simpl.
    destruct Hc as [[Hs Hc]|[(Hs & Hc & _)|(Hs & Hc & _)]]; rewrite Hs; simpl.
    + by left.
    + right. right. done.
    + right. right. done.
  - unfold unpairDevice. destruct (devices r !! did) as [d|] eqn:Hd; [|done].
    simpl. apply map_Forall_insert_2; [|done].
    destruct (map_Forall_lookup_1 _ _ _ _ H Hd) as (Hk & Hc & Hp).
    split; [done|]. split; [|done]. unfold connectionCoherent. simpl.
    destruct Hc as [[Hs Hc]|[(Hs & Hc & _)|(Hs & Hc & _)]]; rewrite Hs; simpl.
    + by left.
    + right. left. done.
    + right. left. done.
  - by apply removeDevice_map_Forall.
  - unfold updateDeviceLastSeen.
    destruct (devices r !! did) as [d|] eqn:Hd; [|done].
    simpl. apply map_Forall_insert_2; [|done].
    destruct (map_Forall_lookup_1 _ _ _ _ H Hd) as (Hk & Hc & Hp).
    by split.
  - by apply cleanupOldDevices_map_Forall.
Qed.

Lemma run_coherent calls : map_Forall coherent (devices (run calls)).
Proof.
  induction calls as [|call calls IH] using rev_ind.
  - unfold run. simpl. apply map_Forall_empty.
  - rewrite run_snoc. by apply step_coherent.
Qed.

(** X1.  In every registry state the operations reach, a record is stored
    under the id it carries. *)
Theorem registry_keys_are_device_ids (calls : list Call)
    (deviceId : string) (d : RegisteredDevice) :
  devices (run calls) !! deviceId = Some d →
  id (deviceInfo d) = deviceId.
Proof.
  intros Hd. by destruct (map_Forall_lookup_1 _ _ _ _ (run_coherent calls) Hd).
Qed.

Lemma registry_keys_are_device_ids_witness :
  ∃ d, devices (run Sample.restart) !! "t2" = Some d
       ∧ id (deviceInfo d) = "t2".
Proof.
  eexists. split; [vm_compute; reflexivity|].
  apply (registry_keys_are_device_ids Sample.restart "t2").
  vm_compute. reflexivity.
Defined.

(** X2.  In every registry state the operations reach, the status of a record
    is disconnected, connected or paired (never connecting or error); it
    is disconnected exactly when the record has no connection id, paired
    exactly when the record is connected and its paired flag is set, and
    a paired record holds no pairing token. *)
Theorem registry_status_coherent (calls : list Call)
    (deviceId : string) (d : RegisteredDevice) :
  devices (run calls) !! deviceId = Some d →
  status d ∈ [DISCONNECTED; CONNECTED; PAIRED]
  ∧ (status d = DISCONNECTED ↔ connectionId d = None)
  ∧ (status d = PAIRED ↔ is_Some (connectionId d) ∧ paired d = true)
  ∧ (paired d = true → pairingToken d = None ∧ pairingExpiration d = None).
Proof.
  intros Hd.
  destruct (map_Forall_lookup_1 _ _ _ _ (run_coherent calls) Hd)
    as (_ & Hc & Hp).
  split; [|split; [|split; [|done]]].
  - destruct Hc as [[-> _]|[(-> & _)|(-> & _)]].
    + apply list_elem_of_here.
    + apply list_elem_of_further, list_elem_of_here.
    + do 2 apply list_elem_of_further. apply list_elem_of_here.
  - destruct Hc as [[Hs Hc]|[(Hs & [c Hc] & _)|(Hs & [c Hc] & _)]];
      rewrite Hs, Hc; split; done.
  - destruct Hc as [[Hs Hc]|[(Hs & Hc & Hpf)|(Hs & Hc & Hpt)]]; rewrite Hs.
    + split; [done|]. rewrite Hc. by intros [[? ?] _].
    + split; [done|]. rewrite Hpf. by intros [_ ?].
    + done.
Qed.

Lemma registry_status_coherent_witness :
  ∃ d, devices (run Sample.pairing) !! "t1" = Some d
       ∧ status d = PAIRED
       ∧ is_Some (connectionId d) ∧ paired d = true.
Proof.
  eexists. split; [vm_compute; reflexivity|]. split; [reflexivity|].
  apply (proj1 (proj2 (proj2 (registry_status_coherent Sample.pairing "t1" _
                                 ltac:(vm_compute; reflexivity))))).
  reflexivity.
Defined.

Lemma truthy_num_true (n : Z) : Js.truthy_num n = true ↔ n ≠ 0.
Proof.
  unfold Js.truthy_num. rewrite negb_true_iff. by destruct (Z.eqb_spec n 0).
Qed.

(** What pairDevice answers for a record with an outstanding token. *)
Lemma pairDevice_outstanding tPair ent r deviceId d issued e token :
  devices r !! deviceId = Some d →
  pairingToken d = Some issued → issued ≠ "" →
  pairingExpiration d = Some e → e ≠ 0 →
  (token ≠ issued →
   (pairDevice tPair ent r deviceId token).2 = failure "Invalid pairing token")
  ∧ (token = issued → e < tPair →
     (pairDevice tPair ent r deviceId token).2
     = failure "Pairing token expired")
  ∧ (token = issued → tPair ≤ e →
     success (pairDevice tPair ent r deviceId token).2 = true).
Proof.
  intros Hd Ht Hne He He0. unfold pairDevice. rewrite Hd, Ht, He. simpl.
  apply truthy_str_true in Hne. rewrite Hne. simpl.
  apply truthy_num_true in He0. rewrite He0. simpl.
  split; [|split].
  - intros Hneq. rewrite bool_decide_eq_false_2; [done|congruence].
  - intros -> Hlt. rewrite bool_decide_eq_true_2 by done. simpl.
    by destruct (Z.ltb_spec e tPair); [|lia].
  - intros -> Hle. rewrite bool_decide_eq_true_2 by done. simpl.
    by destruct (Z.ltb_spec e tPair); [lia|].
Qed.

(** The record a successful pairDevice call stores. *)
Lemma pairDevice_stores tPair ent r deviceId d token :
  devices r !! deviceId = Some d →
  success (pairDevice tPair ent r deviceId token).2 = true →
  ∃ d', devices (pairDevice tPair ent r deviceId token).1 !! deviceId = Some d'
        ∧ device (pairDevice tPair ent r deviceId token).2 = Some d'
        ∧ paired d' = true
        ∧ authToken d' = Some (generateToken ent)
        ∧ status d' = (if bool_decide (status d = CONNECTED)
                       then PAIRED else status d)
        ∧ connectionId d' = connectionId d
        ∧ deviceInfo d' = deviceInfo d.
Proof.
  intros Hd. unfold pairDevice. rewrite Hd.
  repeat (match goal with |- context [if ?b then _ else _] =>
            destruct b; [done|] end).
  intros _. simpl. rewrite lookup_insert_eq. by eexists.
Qed.

(** X3.  A device that registers for the first time can pair with the token
    it was issued until five minutes after the registration, the last
    millisecond included, and with no other token; registered without
    the pairing requirement it cannot pair at all. *)
Theorem register_then_pair (now tPair : Z) (ent ent' : Entropy)
    (r : DeviceRegistry) (info : DeviceInfo) :
  devices r !! id info = None →
  lookupExisting r info = None →
  0 ≤ now →
  let issued := generateToken ent in
  let r1 := (registerDevice now ent r info true).1 in
  pairingToken (registerDevice now ent r info true).2 = Some issued
  ∧ (tPair ≤ now + 300000 →
     success (pairDevice tPair ent' r1 (id info) issued).2 = true)
  ∧ (now + 300000 < tPair →
     (pairDevice tPair ent' r1 (id info) issued).2
     = failure "Pairing token expired")
  ∧ (∀ token, token ≠ issued →
       (pairDevice tPair ent' r1 (id info) token).2
       = failure "Invalid pairing token")
  ∧ (∀ token,
       (pairDevice tPair ent' (registerDevice now ent r info false).1
          (id info) token).2
       = failure "Device does not support pairing").
Proof.
  intros Hnew Hnone Hnow issued r1.
  assert (∃ d, devices r1 !! id info = Some d
               ∧ pairingToken d = Some issued
               ∧ pairingExpiration d = Some (now + 300000)) as (d & Hd & Ht & He).
  { subst r1. unfold registerDevice. rewrite Hnew, Hnone. simpl.
    rewrite lookup_insert_eq. by eexists. }
  destruct (pairDevice_outstanding tPair ent' r1 (id info) d issued
              (now + 300000) issued Hd Ht (generateToken_nonempty ent) He)
    as (_ & Hexp & Hok); [lia|].
  split; [|split; [|split; [|split]]].
  - unfold registerDevice. by rewrite Hnew, Hnone.
  - by apply Hok.
  - by apply Hexp.
  - intros token Hneq.
    by apply (pairDevice_outstanding tPair ent' r1 (id info) d issued
                (now + 300000) token Hd Ht (generateToken_nonempty ent) He);
      [lia|].
  - intros token. unfold registerDevice. rewrite Hnew, Hnone. simpl.
    unfold pairDevice. simpl. by rewrite lookup_insert_eq.
Qed.

Lemma register_then_pair_witness :
  success (pairDevice 301000 Sample.ones
             (registerDevice 1000 Sample.zeros empty Sample.t1 true).1
             "t1" (generateToken Sample.zeros)).2 = true
  ∧ (pairDevice 301001 Sample.ones
       (registerDevice 1000 Sample.zeros empty Sample.t1 true).1
       "t1" (generateToken Sample.zeros)).2
    = failure "Pairing token expired".
Proof.
  split.
  - apply (register_then_pair 1000 301000 Sample.zeros Sample.ones empty
             Sample.t1); [reflexivity | reflexivity | lia | lia].
  - apply (register_then_pair 1000 301001 Sample.zeros Sample.ones empty
             Sample.t1); [reflexivity | reflexivity | lia | lia].
Defined.

(** X4.  Unpairing a device revokes its auth token and issues a new pairing
    token; pairing again with that token within five minutes gives the
    device a new auth token and, when it was paired and connected, its
    paired status back; no other token is accepted. *)
Theorem unpair_then_pair (now tPair : Z) (ent ent' : Entropy)
    (r : DeviceRegistry) (deviceId : string) (d : RegisteredDevice) :
  devices r !! deviceId = Some d →
  0 ≤ now →
  let issued := generateToken ent in
  let r1 := (unpairDevice now ent r deviceId).1 in
  (∃ d1, devices r1 !! deviceId = Some d1
         ∧ authToken d1 = None ∧ paired d1 = false
         ∧ pairingToken d1 = Some issued
         ∧ (status d = PAIRED → status d1 = CONNECTED))
  ∧ (tPair ≤ now + 300000 →
     ∃ d2, devices (pairDevice tPair ent' r1 deviceId issued).1 !! deviceId
           = Some d2
           ∧ paired d2 = true
           ∧ authToken d2 = Some (generateToken ent')
           ∧ (status d = PAIRED → status d2 = PAIRED))
  ∧ (∀ token, token ≠ issued →
       (pairDevice tPair ent' r1 deviceId token).2
       = failure "Invalid pairing token").
Proof.
  intros Hd Hnow issued r1.
  assert (∃ d1, devices r1 !! deviceId = Some d1
                ∧ authToken d1 = None ∧ paired d1 = false
                ∧ pairingToken d1 = Some issued
                ∧ pairingExpiration d1 = Some (now + 300000)
                ∧ (status d = PAIRED → status d1 = CONNECTED))
    as (d1 & Hd1 & Ha & Hp & Ht & He & Hs).
  { subst r1. unfold unpairDevice. rewrite Hd. simpl.
    rewrite lookup_insert_eq. eexists. repeat split; try done.
    simpl. by intros ->. }
  split; [by exists d1|]. split.
  - intros Hle.
    assert (success (pairDevice tPair ent' r1 deviceId issued).2 = true) as Hok.
    { by apply (pairDevice_outstanding tPair ent' r1 deviceId d1 issued
                  (now + 300000) issued Hd1 Ht (generateToken_nonempty ent) He);
        [lia| |]. }
    destruct (pairDevice_stores _ _ _ _ _ _ Hd1 Hok)
      as (d2 & Hd2 & _ & Hpaired & Hauth & Hst2 & _).
    exists d2. repeat split; try done. intros Hst.
    by rewrite Hst2, (Hs Hst).
  - intros token Hneq.
    by apply (pairDevice_outstanding tPair ent' r1 deviceId d1 issued
                (now + 300000) token Hd1 Ht (generateToken_nonempty ent) He);
      [lia|].
Qed.

Lemma unpair_then_pair_witness :
  ∃ d2, devices (pairDevice 6000 Sample.zeros
                   (unpairDevice 5000 Sample.ones (run Sample.pairing) "t1").1
                   "t1" (generateToken Sample.ones)).1 !! "t1" = Some d2
        ∧ paired d2 = true
        ∧ authToken d2 = Some (generateToken Sample.zeros)
        ∧ status d2 = PAIRED.
Proof.
  assert (devices (run Sample.pairing) !! "t1" = Some Sample.paired_t1) as Hd
    by (vm_compute; reflexivity).
  destruct (unpair_then_pair 5000 6000 Sample.ones Sample.zeros
              (run Sample.pairing) "t1" Sample.paired_t1 Hd)
    as (_ & Hpair & _); [lia|].
  destruct Hpair as (d2 & Hd2 & Hp & Ha & Hs); [lia|].
  exists d2. split; [exact Hd2|]. split; [exact Hp|]. split; [exact Ha|].
  apply Hs. reflexivity.
Defined.

(** X5.  Pairing survives a disconnection: disconnectDevice resets the status
    and the connection id and keeps the paired flag and the tokens, and a
    later connectDevice gives a paired device the paired status back
    without a new handshake. *)
Theorem reconnect_restores_pairing (tDisconnect tConnect : Z)
    (r : DeviceRegistry) (deviceId connId : string) (d : RegisteredDevice) :
  devices r !! deviceId = Some d →
  let r1 := (disconnectDevice tDisconnect r deviceId).1 in
  let r2 := (connectDevice tConnect r1 deviceId connId).1 in
  (∃ d1, devices r1 !! deviceId = Some d1
         ∧ status d1 = DISCONNECTED ∧ connectionId d1 = None
         ∧ paired d1 = paired d ∧ authToken d1 = authToken d
         ∧ pairingToken d1 = pairingToken d)
  ∧ (∃ d2, devices r2 !! deviceId = Some d2
           ∧ status d2 = (if paired d then PAIRED else CONNECTED)
           ∧ connectionId d2 = Some connId
           ∧ paired d2 = paired d ∧ authToken d2 = authToken d
           ∧ lastSeen d2 = tConnect)
  ∧ (∀ other, other ≠ deviceId → devices r2 !! other = devices r !! other).
Proof.
  intros Hd r1 r2. subst r1 r2.
  unfold disconnectDevice. rewrite Hd. simpl.
  unfold connectDevice. simpl. rewrite lookup_insert_eq. simpl.
  rewrite !lookup_insert_eq.
  split; [by eexists|]. split; [by eexists|].
  intros other Hne. by rewrite !lookup_insert_ne.
Qed.

Lemma reconnect_restores_pairing_witness :
  ∃ d2, devices (connectDevice 8000
                   (disconnectDevice 7000 (run Sample.pairing) "t1").1
                   "t1" "c9").1 !! "t1" = Some d2
        ∧ status d2 = PAIRED ∧ connectionId d2 = Some "c9".
Proof.
  assert (devices (run Sample.pairing) !! "t1" = Some Sample.paired_t1) as Hd
    by (vm_compute; reflexivity).
  destruct (reconnect_restores_pairing 7000 8000 (run Sample.pairing) "t1" "c9"
              Sample.paired_t1 Hd)
    as (_ & (d2 & Hd2 & Hs & Hc & _) & _).
  exists d2. split; [exact Hd2|]. split; [exact Hs | exact Hc].
Defined.

(** X6.  A call of registerDevice for an id the registry does not know makes
    the resulting record reachable through the address it announced: by
    its ip, and by its mac when it has one. *)
Theorem register_then_lookup_by_address (now : Z) (ent : Entropy)
    (r : DeviceRegistry) (info : DeviceInfo) (requirePairing : bool) :
  devices r !! id info = None →
  id info ≠ "" →
  let result := registerDevice now ent r info requirePairing in
  getDeviceById result.1 (id info) = Some result.2
  ∧ (ip info ≠ "" → getDeviceByIp result.1 (ip info) = Some result.2)
  ∧ (∀ m, mac info = Some m → m ≠ "" →
          getDeviceByMac result.1 m = Some result.2).
Proof.
  intros Hnew Hid result. subst result.
  apply truthy_str_true in Hid.
  unfold registerDevice, getDeviceByIp, getDeviceByMac, getDeviceById.
  rewrite Hnew.
  destruct (lookupExisting r info) as [[eid d]|];
    cbn [fst snd devices ipToIdMap macToIdMap index_set].
  - split; [by rewrite lookup_insert_eq|]. split.
    + intros Hip. apply truthy_str_true in Hip. rewrite Hip.
      by rewrite !lookup_insert_eq, Hid.
    + intros m Hm Hne. apply truthy_str_true in Hne. rewrite Hm.
      cbn [index_set]. rewrite Hne. by rewrite !lookup_insert_eq, Hid.
  - split; [by rewrite lookup_insert_eq|]. split.
    + intros Hip. apply truthy_str_true in Hip. rewrite Hip.
      by rewrite !lookup_insert_eq, Hid.
    + intros m Hm Hne. apply truthy_str_true in Hne. rewrite Hm.
      cbn [index_set]. rewrite Hne. by rewrite !lookup_insert_eq, Hid.
Qed.

Lemma register_then_lookup_by_address_witness :
  getDeviceByIp (registerDevice 1000 Sample.zeros empty Sample.t1 true).1
    "192.168.1.20"
  = Some (registerDevice 1000 Sample.zeros empty Sample.t1 true).2.
Proof.
  apply (register_then_lookup_by_address 1000 Sample.zeros empty Sample.t1 true);
    [reflexivity | discriminate | discriminate].
Defined.

(** The loop of cleanupOldDevices over entries that are all present and
    have distinct keys removes the stale ones and counts them. *)
Lemma cleanup_loop cutoff entries r n :
  NoDup entries.*1 →
  (∀ k d, (k, d) ∈ entries → devices r !! k = Some d) →
  (∀ k, devices (foldl (cleanupStep cutoff) (r, n) entries).1 !! k
        = if decide (k ∈ (filter (stale cutoff) entries).*1)
          then None else devices r !! k)
  ∧ (foldl (cleanupStep cutoff) (r, n) entries).2
    = n + Z.of_nat (length (filter (stale cutoff) entries)).
Proof.
  revert r n. induction entries as [|[k d] entries IH]; intros r n Hnd Hin.
  { cbn [foldl fst snd]. rewrite filter_nil. cbn [length]. split; [|lia].
    intros k. rewrite fmap_nil. case_decide as Hk; [|done].
    by apply elem_of_nil in Hk. }
  rewrite fmap_cons in Hnd. apply NoDup_cons in Hnd as [Hk Hnd].
  cbn [fst] in Hk.
  cbn [foldl]. unfold cleanupStep at 2 4. cbn [fst snd].
  rewrite filter_cons.
  destruct (decide (stale cutoff (k, d))) as [Hold|Hfresh];
    unfold stale in Hold || unfold stale in Hfresh; cbn [snd] in *.
  - destruct (Z.ltb_spec (lastSeen d) cutoff) as [_|?]; [|lia].
    unfold removeDevice. rewrite (Hin k d) by apply list_elem_of_here.
    destruct (IH {| devices := delete k (devices r);
                    ipToIdMap := index_delete (Some (ip (deviceInfo d)))
                                   (ipToIdMap r);
                    macToIdMap := index_delete (mac (deviceInfo d))
                                    (macToIdMap r) |} (n + 1) Hnd)
      as [IHl IHn].
    { intros k' d' Hin'. cbn [devices]. rewrite lookup_delete_ne.
      - apply Hin. by apply list_elem_of_further.
      - intros ->. apply Hk. apply list_elem_of_fmap. by exists (k', d'). }
    split.
    + intros k0. rewrite IHl. cbn [devices]. rewrite fmap_cons. cbn [fst].
      destruct (decide (k0 = k)) as [->|Hne].
      * rewrite (decide_True (P := k ∈ k :: _)) by apply list_elem_of_here.
        case_decide; [done|apply lookup_delete_eq].
      * rewrite lookup_delete_ne by done.
        destruct (decide (k0 ∈ (filter (stale cutoff) entries).*1)) as [Hm|Hm].
        -- rewrite decide_True; [done|]. by apply list_elem_of_further.
        -- rewrite decide_False; [done|].
           intros [?|?]%elem_of_cons; done.
    + rewrite IHn. cbn [length]. lia.
  - destruct (Z.ltb_spec (lastSeen d) cutoff) as [?|_]; [lia|].
    apply IH; [done|]. intros k' d' Hin'. apply Hin.
    by apply list_elem_of_further.
Qed.

(** X7.  cleanupOldDevices removes exactly the records last seen before
    now - maxAge, keeps all the others as they are, and returns the
    number of records it removed. *)
Theorem cleanupOldDevices_removes_stale (now maxAge : Z) (r : DeviceRegistry) :
  devices (cleanupOldDevices now r maxAge).1
  = filter (λ entry, ¬ stale (now - maxAge) entry) (devices r)
  ∧ (cleanupOldDevices now r maxAge).2
    = Z.of_nat (size (filter (stale (now - maxAge)) (devices r)))
  ∧ (cleanupOldDevices now r maxAge).2
    = Z.of_nat (size (devices r))
      - Z.of_nat (size (devices (cleanupOldDevices now r maxAge).1)).
Proof.
  unfold cleanupOldDevices. cbv zeta.
  destruct (cleanup_loop (now - maxAge) (map_to_list (devices r)) r 0)
    as [Hl Hn].
  { apply NoDup_fst_map_to_list. }
  { intros k d Hin. by apply elem_of_map_to_list. }
  assert (devices
            (foldl (cleanupStep (now - maxAge)) (r, 0)
               (map_to_list (devices r))).1
          = filter (λ entry, ¬ stale (now - maxAge) entry) (devices r)) as Hdev.
  { apply map_eq. intros k. rewrite Hl.
    destruct (devices r !! k) as [d|] eqn:Hd.
    - case_decide as Hin.
      + symmetry. apply map_lookup_filter_None. right. intros d' Hd' Hns.
        apply Hns. apply list_elem_of_fmap in Hin as ([k' d''] & -> & Hin).
        apply list_elem_of_filter in Hin as [Hst Hin].
        apply elem_of_map_to_list in Hin. simpl in *. congruence.
      + symmetry. apply map_lookup_filter_Some. split; [done|].
        intros Hst. apply Hin. apply list_elem_of_fmap. exists (k, d).
        split; [done|]. apply list_elem_of_filter. split; [done|].
        by apply elem_of_map_to_list.
    - case_decide; symmetry; apply map_lookup_filter_None; by left. }
  assert (length (filter (stale (now - maxAge)) (map_to_list (devices r)))
          = size (filter (stale (now - maxAge)) (devices r))) as Hlen.
  { rewrite map_filter_alt, <-length_map_to_list.
    apply Permutation_length. symmetry. apply map_to_list_to_map.
    apply (NoDup_fmap_fst _); [|apply NoDup_filter, NoDup_map_to_list].
    intros k d1 d2 [_ H1]%list_elem_of_filter [_ H2]%list_elem_of_filter.
    apply elem_of_map_to_list in H1, H2. congruence. }
  split; [exact Hdev|]. split.
  - rewrite Hn, Hlen. lia.
  - rewrite Hn, Hlen, Hdev.
    pose proof (map_size_disj_union _ _
                  (map_disjoint_filter_complement (stale (now - maxAge))
                     (devices r))) as Hsz.
    rewrite map_filter_union_complement in Hsz. lia.
Qed.

End RegistryComposition.

(** ** Control server: liveness, heartbeats, closing *)

Section ServerLiveness.

Import Server ServerSpec ServerShape.

Lemma silenced_not_alive c : isAlive c = false → silenced c = c.
Proof. intros H. destruct c. simpl in H. by subst. Qed.

Lemma pingStep_fold pingThrows cs acc :
  let sweep := foldl (pingStep pingThrows) acc cs in
  swept sweep = swept acc ++ (silenced <$> cs)
  ∧ terminated sweep
    = terminated acc
      ++ (connectionId <$> filter (sweepTerminates pingThrows) cs)
  ∧ pinged sweep
    = pinged acc ++ (connectionId <$> filter (sweepPings pingThrows) cs).
Proof.
  revert acc. induction cs as [|c cs IH]; intros acc.
  { cbn. by rewrite !app_nil_r. }
  cbn [foldl]. destruct (IH (pingStep pingThrows acc c)) as (Hs & Ht & Hp).
  cbv zeta. rewrite Hs, Ht, Hp. clear IH Hs Ht Hp.
  rewrite !filter_cons, fmap_cons. unfold pingStep, sweepTerminates, sweepPings.
  destruct (isAlive c) eqn:Ha; cbn [negb].
  - destruct (pingThrows (connectionId c)) eqn:Hthrow; cbn [swept terminated pinged].
    + rewrite decide_True by (by right).
      rewrite decide_False by (by intros [_ ?]).
      rewrite fmap_cons, <-!app_assoc. done.
    + rewrite decide_False by (by intros [?|?]).
      rewrite decide_True by done.
      rewrite fmap_cons, <-!app_assoc. done.
  - cbn [swept terminated pinged].
    rewrite decide_True by (by left).
    rewrite decide_False by (by intros [? _]).
    rewrite (silenced_not_alive c Ha), fmap_cons, <-!app_assoc. done.
Qed.

Lemma pingConnections_sweep pingThrows s :
  connections (pingConnections pingThrows s).1 = silenced <$> connections s
  ∧ terminated (pingConnections pingThrows s).2
    = connectionId <$> filter (sweepTerminates pingThrows) (connections s)
  ∧ pinged (pingConnections pingThrows s).2
    = connectionId <$> filter (sweepPings pingThrows) (connections s)
  ∧ deviceRegistry (pingConnections pingThrows s).1 = deviceRegistry s
  ∧ sent (pingConnections pingThrows s).1 = sent s.
Proof.
  unfold pingConnections. cbv zeta. cbn [fst snd connections].
  destruct (pingStep_fold pingThrows (connections s)
              {| swept := []; terminated := []; pinged := [] |})
    as (Hs & Ht & Hp).
  cbv zeta in Hs, Ht, Hp. by rewrite Hs, Ht, Hp.
Qed.

(** X8.  The liveness sweep tolerates one silent interval.  A sweep terminates
    the connections that were already marked not alive (and those whose
    ping throws), pings all the others and marks every connection not
    alive; it removes nothing from the table and does not touch the
    registry.  When no connection answers before the next sweep, that
    sweep terminates every connection and pings none. *)
Theorem two_silent_sweeps_terminate (throws1 throws2 : string → bool)
    (s : ControlServer) :
  let first := pingConnections throws1 s in
  let second := pingConnections throws2 first.1 in
  terminated first.2
  = connectionId <$> filter (sweepTerminates throws1) (connections s)
  ∧ pinged first.2
    = connectionId <$> filter (sweepPings throws1) (connections s)
  ∧ connectionId <$> connections first.1 = connectionId <$> connections s
  ∧ Forall (λ c, isAlive c = false) (connections first.1)
  ∧ deviceRegistry first.1 = deviceRegistry s
  ∧ terminated second.2 = connectionId <$> connections s
  ∧ pinged second.2 = [].
Proof.
  intros first second. subst first second.
  destruct (pingConnections_sweep throws1 s) as (Hc & Ht & Hp & Hr & _).
  destruct (pingConnections_sweep throws2 (pingConnections throws1 s).1)
    as (_ & Ht2 & Hp2 & _).
  rewrite Ht2, Hp2, Hc. clear Ht2 Hp2.
  assert (∀ cs : list WebSocketWithId,
            filter (sweepTerminates throws2) (silenced <$> cs)
                = silenced <$> cs) as Hall.
  { intros cs. induction cs as [|c cs IH]; [done|].
    rewrite fmap_cons, filter_cons, decide_True by (by left). by rewrite IH. }
  assert (∀ cs : list WebSocketWithId,
            filter (sweepPings throws2) (silenced <$> cs) = []) as Hnone.
  { intros cs. induction cs as [|c cs IH]; [done|].
    rewrite fmap_cons, filter_cons, decide_False by (by intros [? _]). done. }
  rewrite Hall, Hnone, <-!list_fmap_compose.
  repeat split; try done.
  apply Forall_fmap, Forall_forall. done.
Qed.

Lemma writeBack_alive s c tActivity :
  c ∈ connections s →
  let c' := {| connectionId := connectionId c; deviceId := deviceId c;
               isAlive := true; lastActivity := tActivity |} in
  c' ∈ connections (writeBack s c')
  ∧ Forall (λ c0, connectionId c0 = connectionId c → isAlive c0 = true)
      (connections (writeBack s c')).
Proof.
  intros Hin c'. unfold writeBack. cbn [connections]. split.
  - apply list_elem_of_fmap. exists c. split; [|done].
    subst c'. cbn [connectionId]. by rewrite String.eqb_refl.
  - apply Forall_fmap, Forall_forall. intros c0 _. cbn.
    destruct (String.eqb_spec (connectionId c0) (connectionId c)); [done|].
    intros ?. done.
Qed.

Lemma sweep_alive_connection pingThrows cs c :
  c ∈ cs → isAlive c = true → pingThrows (connectionId c) = false →
  Forall (λ c0, connectionId c0 = connectionId c → isAlive c0 = true) cs →
  connectionId c ∈ (connectionId <$> filter (sweepPings pingThrows) cs)
  ∧ connectionId c
    ∉ (connectionId <$> filter (sweepTerminates pingThrows) cs).
Proof.
  intros Hin Ha Hthrow Hall. split.
  - apply list_elem_of_fmap. exists c. split; [done|].
    apply list_elem_of_filter. by split.
  - intros (c0 & Heq & Hc0)%list_elem_of_fmap.
    apply list_elem_of_filter in Hc0 as [[Hdead|Hth] Hin0].
    + rewrite Forall_forall in Hall. rewrite (Hall c0 Hin0) in Hdead; done.
    + congruence.
Qed.

(** X9.  A heartbeat is answered with a heartbeat_ack on the same connection,
    whether or not the device is paired; it changes nothing in the
    registry but lastSeen, leaves every other connection as it is, and
    marks the connection alive, so that the next sweep pings it instead
    of terminating it. *)
Theorem heartbeat_keeps_connection (tActivity tSeen tMessage : Z)
    (pingThrows : string → bool) (s : ControlServer)
    (connection : WebSocketWithId) :
  connection ∈ connections s →
  pingThrows (connectionId connection) = false →
  let s' := handleHeartbeatMessage tActivity tSeen tMessage s connection in
  written s s'
    [(connectionId connection,
      createBaseMessage tMessage MESSAGE_TYPES.HEARTBEAT_ACK (controllerId s)
        CONTROLLER EmptyData)]
  ∧ (∀ k, authorisation <$> Registry.devices (deviceRegistry s') !! k
          = authorisation <$> Registry.devices (deviceRegistry s) !! k)
  ∧ (∀ other, other ∈ connections s →
              connectionId other ≠ connectionId connection →
              other ∈ connections s')
  ∧ connectionId connection ∈ pinged (pingConnections pingThrows s').2
  ∧ connectionId connection ∉ terminated (pingConnections pingThrows s').2.
Proof.
  intros Hin Hthrow s'.
  set (c' := {| connectionId := connectionId connection;
                deviceId := deviceId connection;
                isAlive := true; lastActivity := tActivity |}).
  destruct (writeBack_alive s connection tActivity Hin) as [Hin' Hall].
  fold c' in Hin', Hall.
  assert (connections s' = connections (writeBack s c')) as Hconns by done.
  split; [done|]. split; [|split].
  - intros k. subst s'. unfold handleHeartbeatMessage. cbn.
    destruct (deviceId connection) as [d|]; [|done].
    destruct (Js.truthy_str d); [|done].
    unfold Registry.updateDeviceLastSeen.
    destruct (Registry.devices (deviceRegistry s) !! d) as [dev|] eqn:Hd;
      [|done].
    cbn. destruct (decide (k = d)) as [->|Hne].
    + by rewrite lookup_insert_eq, Hd.
    + by rewrite lookup_insert_ne.
  - intros other Hother Hne. rewrite Hconns. unfold writeBack. cbn.
    apply list_elem_of_fmap. exists other. split; [|done].
    apply String.eqb_neq in Hne. by rewrite Hne.
  - destruct (pingConnections_sweep pingThrows s') as (_ & Ht & Hp & _).
    rewrite Ht, Hp, Hconns.
    apply (sweep_alive_connection pingThrows _ c'); done.
Qed.

Lemma heartbeat_keeps_connection_witness :
  "c1" ∈ pinged
           (pingConnections (λ _, false)
              (handleHeartbeatMessage 5000 5001 5002
                 (pingConnections (λ _, false) Sample.registered).1
                 (silenced Sample.c1_t1))).2
  ∧ "c1" ∉ terminated
             (pingConnections (λ _, false)
                (handleHeartbeatMessage 5000 5001 5002
                   (pingConnections (λ _, false) Sample.registered).1
                   (silenced Sample.c1_t1))).2.
Proof.
  apply (heartbeat_keeps_connection 5000 5001 5002 (λ _, false)
           (pingConnections (λ _, false) Sample.registered).1
           (silenced Sample.c1_t1)).
  - vm_compute. apply list_elem_of_here.
  - reflexivity.
Defined.

(** X10.  A pong marks the connection alive, so that the next sweep pings it
    instead of terminating it; it writes nothing and leaves the registry
    alone. *)
Theorem pong_keeps_connection (now : Z) (pingThrows : string → bool)
    (s : ControlServer) (connection : WebSocketWithId) :
  connection ∈ connections s →
  pingThrows (connectionId connection) = false →
  let s' := handlePong now s connection in
  sent s' = sent s
  ∧ deviceRegistry s' = deviceRegistry s
  ∧ connectionId connection ∈ pinged (pingConnections pingThrows s').2
  ∧ connectionId connection ∉ terminated (pingConnections pingThrows s').2.
Proof.
  intros Hin Hthrow s'.
  destruct (writeBack_alive s connection now Hin) as [Hin' Hall].
  split; [done|]. split; [done|].
  destruct (pingConnections_sweep pingThrows s') as (_ & Ht & Hp & _).
  rewrite Ht, Hp.
  apply (sweep_alive_connection pingThrows _ _ Hin'); done.
Qed.

Lemma pong_keeps_connection_witness :
  "c2" ∈ pinged
           (pingConnections (λ _, false)
              (handlePong 5000
                 (pingConnections (λ _, false) Sample.registered).1
                 (silenced Sample.c2))).2.
Proof.
  apply (pong_keeps_connection 5000 (λ _, false)
           (pingConnections (λ _, false) Sample.registered).1
           (silenced Sample.c2)).
  - vm_compute. apply list_elem_of_further, list_elem_of_here.
  - reflexivity.
Defined.

End ServerLiveness.

(** ** Control server: the handshake and its replies *)

Section ServerHandshake.

Import Server ServerSpec ServerShape CommandSpec.

(** X11.  When a connection bound to a device closes, the connection leaves
    the table and the device is marked disconnected, whatever other
    connections are bound to it: it keeps its pairing, every other
    connection stays in the table, and commands for the device are
    rejected with "Device not connected". *)
Theorem close_disconnects_device (now : Z) (s : ControlServer)
    (connection : WebSocketWithId) (devId : string)
    (d : Registry.RegisteredDevice) :
  deviceId connection = Some devId →
  devId ≠ "" →
  Registry.devices (deviceRegistry s) !! devId = Some d →
  let s' := handleClose now s connection in
  Forall (λ c, connectionId c ≠ connectionId connection) (connections s')
  ∧ (∀ other, other ∈ connections s →
              connectionId other ≠ connectionId connection →
              other ∈ connections s')
  ∧ (∃ d', Registry.devices (deviceRegistry s') !! devId = Some d'
           ∧ Registry.status d' = DISCONNECTED
           ∧ Registry.connectionId d' = None
           ∧ Registry.paired d' = Registry.paired d
           ∧ Registry.authToken d' = Registry.authToken d)
  ∧ (∀ tCommand dir repeat holdTime terr,
       sendArrowCommand tCommand s' devId dir repeat holdTime terr
       = (s', Rejected "Device not connected")).
Proof.
  intros Hbound Hne Hd s'.
  assert (Registry.devices (deviceRegistry s') !! devId
          = Some {| Registry.deviceInfo := Registry.deviceInfo d;
                    Registry.status := DISCONNECTED;
                    Registry.lastSeen := now;
                    Registry.firstSeen := Registry.firstSeen d;
                    Registry.connectionId := None;
                    Registry.authToken := Registry.authToken d;
                    Registry.paired := Registry.paired d;
                    Registry.pairingToken := Registry.pairingToken d;
                    Registry.pairingExpiration :=
                      Registry.pairingExpiration d |}) as Hd'.
  { subst s'. unfold handleClose. rewrite Hbound.
    apply truthy_str_true in Hne. rewrite Hne.
    unfold Registry.disconnectDevice. rewrite Hd. cbn.
    by rewrite lookup_insert_eq. }
  split; [|split; [|split]].
  - subst s'. unfold handleClose, connections_delete. cbn [connections].
    apply Forall_forall. by intros c [? _]%list_elem_of_filter.
  - intros other Hin Hother. subst s'. unfold handleClose, connections_delete.
    cbn [connections]. apply list_elem_of_filter. by split.
  - eexists. split; [exact Hd'|]. done.
  - intros tCommand dir repeat holdTime terr.
    unfold sendArrowCommand, Registry.getDeviceById. rewrite Hd'. done.
Qed.

Lemma close_disconnects_device_witness :
  sendArrowCommand 9000 (handleClose 8000 Sample.registered Sample.c1_t1)
    "t1" left None None None
  = (handleClose 8000 Sample.registered Sample.c1_t1,
     Rejected "Device not connected").
Proof.
  eapply (close_disconnects_device 8000 Sample.registered Sample.c1_t1 "t1").
  - reflexivity.
  - discriminate.
  - vm_compute. reflexivity.
Defined.

(** The registry record that handleRegisterMessage leaves for the
    device. *)
Lemma handleRegisterMessage_record tRegister tConnect tMessage ent s
    connection info :
  id info ≠ "" → type info = TARGET →
  let registeredDevice :=
    (Registry.registerDevice tRegister ent (deviceRegistry s) info true).2 in
  let d :=
    {| Registry.deviceInfo := Registry.deviceInfo registeredDevice;
       Registry.status :=
         if Registry.paired registeredDevice then PAIRED else CONNECTED;
       Registry.lastSeen := tConnect;
       Registry.firstSeen := Registry.firstSeen registeredDevice;
       Registry.connectionId := Some (connectionId connection);
       Registry.authToken := Registry.authToken registeredDevice;
       Registry.paired := Registry.paired registeredDevice;
       Registry.pairingToken := Registry.pairingToken registeredDevice;
       Registry.pairingExpiration :=
         Registry.pairingExpiration registeredDevice |} in
  let s' :=
    handleRegisterMessage tRegister tConnect tMessage ent s connection
      (Some info) in
  Registry.devices (deviceRegistry s') !! id info = Some d
  ∧ sent s'
    = sent s
      ++ [(connectionId connection,
           createBaseMessage tMessage MESSAGE_TYPES.REGISTERED (controllerId s)
             CONTROLLER
             (RegisteredData (id info) (negb (Registry.paired d))
                (Registry.pairingToken d)))]
  ∧ connections s'
    = (λ c, if String.eqb (connectionId c) (connectionId connection)
            then {| connectionId := connectionId connection;
                    deviceId := Some (id info);
                    isAlive := isAlive connection;
                    lastActivity := lastActivity connection |}
            else c) <$> connections s.
Proof.
  intros Hid Htype registeredDevice d s'.
  subst s' d registeredDevice. unfold handleRegisterMessage.
  apply truthy_str_true in Hid. rewrite Hid, Htype.
  rewrite (bool_decide_eq_true_2 (TARGET = TARGET)) by done. cbn [negb].
  pose proof (registerDevice_entry tRegister ent (deviceRegistry s)
                info true) as (Hentry & _ & Hret).
  destruct (Registry.registerDevice tRegister ent (deviceRegistry s) info true)
    as [r1 device]. cbn [fst snd] in *. cbn zeta.
  rewrite Hret. unfold Registry.connectDevice. rewrite Hentry.
  unfold sendMessage, with_registry, writeBack, Registry.with_devices.
  cbn [fst deviceRegistry Registry.devices sent connections connectionId].
  by rewrite lookup_insert_eq.
Qed.

(** X12.  The reply to an accepted register message tells the device what the
    registry holds for it: its id, that pairing is required exactly when
    the record is not paired, and the pairing token of the record.  The
    record is then connected through this connection, with the paired
    status when it is paired.  A device that registers for the first
    time is told that pairing is required and gets the token generated
    for it. *)
Theorem register_reply_matches_registry (tRegister tConnect tMessage : Z)
    (ent : Entropy) (s : ControlServer) (connection : WebSocketWithId)
    (info : DeviceInfo) :
  id info ≠ "" →
  type info = TARGET →
  let s' :=
    handleRegisterMessage tRegister tConnect tMessage ent s connection
      (Some info) in
  ∃ d,
    Registry.devices (deviceRegistry s') !! id info = Some d
    ∧ written s s'
        [(connectionId connection,
          createBaseMessage tMessage MESSAGE_TYPES.REGISTERED (controllerId s)
            CONTROLLER
            (RegisteredData (id info) (negb (Registry.paired d))
               (Registry.pairingToken d)))]
    ∧ Registry.status d = (if Registry.paired d then PAIRED else CONNECTED)
    ∧ Registry.connectionId d = Some (connectionId connection)
    ∧ (Registry.devices (deviceRegistry s) !! id info = None →
       Registry.lookupExisting (deviceRegistry s) info = None →
       Registry.paired d = false
       ∧ Registry.pairingToken d = Some (generateToken ent)
       ∧ Registry.pairingExpiration d = Some (tRegister + 300000)).
Proof.
  intros Hid Htype s'.
  destruct (handleRegisterMessage_record tRegister tConnect tMessage ent s
              connection info Hid Htype) as (Hd & Hsent & _).
  eexists. split; [exact Hd|]. split; [exact Hsent|].
  split; [done|]. split; [done|].
  intros Hnew Hnone. cbn.
  unfold Registry.registerDevice. by rewrite Hnew, Hnone.
Qed.

Lemma register_reply_matches_registry_witness :
  ∃ d, Registry.devices (deviceRegistry Sample.registered) !! "t1" = Some d
       ∧ Registry.status d = CONNECTED
       ∧ Registry.pairingToken d = Some (generateToken Sample.zeros).
Proof.
  destruct (register_reply_matches_registry 1000 1001 1002 Sample.zeros
              Sample.listening Sample.c1 Sample.t1)
    as (d & Hd & _ & Hs & _ & Hfirst); [discriminate | reflexivity |].
  destruct Hfirst as (Hp & Ht & _); [reflexivity | reflexivity |].
  exists d. split; [exact Hd|]. split; [|exact Ht].
  rewrite Hs, Hp. reflexivity.
Defined.

(** The server that an accepted pairing request leaves. *)
Lemma handlePairingRequestMessage_accepts tPair tMessage ent s connection
    devId token d :
  deviceId connection = Some devId → devId ≠ "" → token ≠ "" →
  Registry.devices (deviceRegistry s) !! devId = Some d →
  Registry.success
    (Registry.pairDevice tPair ent (deviceRegistry s) devId token).2 = true →
  handlePairingRequestMessage tPair tMessage ent s connection (Some token)
  = sendMessage
      (with_registry s
         (Registry.pairDevice tPair ent (deviceRegistry s) devId token).1)
      connection
      (createBaseMessage tMessage MESSAGE_TYPES.PAIRING_RESPONSE (controllerId s)
         CONTROLLER
         (PairingResponseData true (Some (generateToken ent)) None)).
Proof.
  intros Hbound Hdev Htok Hd Hok.
  destruct (pairDevice_stores _ _ _ _ _ _ Hd Hok)
    as (d' & Hd' & Hres & Hp & Ha & _).
  unfold handlePairingRequestMessage. rewrite Hbound.
  apply truthy_str_true in Hdev, Htok. rewrite Hdev, Htok. cbn [negb].
  destruct (Registry.pairDevice tPair ent (deviceRegistry s) devId token)
    as [r' result]. cbn [fst snd] in *. rewrite Hok. cbn [negb].
  rewrite Hres. cbn [mbind option_bind]. by rewrite Ha.
Qed.

(** X13.  When pairing succeeds the device receives, in a pairing_response
    with accepted = true, the very auth token that the registry stored
    for it, and nothing else is written; the connection table is
    unchanged. *)
Theorem pairing_success_reply (tPair tMessage : Z) (ent : Entropy)
    (s : ControlServer) (connection : WebSocketWithId)
    (devId token : string) :
  deviceId connection = Some devId →
  devId ≠ "" →
  token ≠ "" →
  Registry.success
    (Registry.pairDevice tPair ent (deviceRegistry s) devId token).2 = true →
  let s' :=
    handlePairingRequestMessage tPair tMessage ent s connection (Some token) in
  written s s'
    [(connectionId connection,
      createBaseMessage tMessage MESSAGE_TYPES.PAIRING_RESPONSE (controllerId s)
        CONTROLLER
        (PairingResponseData true (Some (generateToken ent)) None))]
  ∧ (∃ d', Registry.devices (deviceRegistry s') !! devId = Some d'
           ∧ Registry.authToken d' = Some (generateToken ent)
           ∧ Registry.paired d' = true)
  ∧ connections s' = connections s.
Proof.
  intros Hbound Hdev Htok Hok s'.
  destruct (Registry.devices (deviceRegistry s) !! devId) as [d|] eqn:Hd.
  2:{ unfold Registry.pairDevice in Hok. by rewrite Hd in Hok. }
  destruct (pairDevice_stores _ _ _ _ _ _ Hd Hok)
    as (d' & Hd' & _ & Hp & Ha & _).
  subst s'.
  rewrite (handlePairingRequestMessage_accepts _ _ _ _ _ _ _ d Hbound Hdev
             Htok Hd Hok).
  split; [done|]. split; [|done]. by exists d'.
Qed.

Lemma pairing_success_reply_witness :
  ∃ d', Registry.devices
          (deviceRegistry
             (handlePairingRequestMessage 2000 2001 Sample.ones
                Sample.registered Sample.c1_t1
                (Some (generateToken Sample.zeros)))) !! "t1" = Some d'
        ∧ Registry.authToken d' = Some (generateToken Sample.ones)
        ∧ Registry.paired d' = true.
Proof.
  apply (pairing_success_reply 2000 2001 Sample.ones Sample.registered
           Sample.c1_t1 "t1" (generateToken Sample.zeros)).
  - reflexivity.
  - discriminate.
  - apply generateToken_nonempty.
  - vm_compute. reflexivity.
Defined.

Lemma find_rebound (cs : list WebSocketWithId) connection devId :
  connection ∈ cs →
  (∀ c, c ∈ cs → deviceId c ≠ Some devId) →
  let bound := {| connectionId := connectionId connection;
                  deviceId := Some devId;
                  isAlive := isAlive connection;
                  lastActivity := lastActivity connection |} in
  find (λ c, bool_decide (deviceId c = Some devId))
    ((λ c, if String.eqb (connectionId c) (connectionId connection)
           then bound else c) <$> cs)
  = Some bound.
Proof.
  intros Hin Hfree bound. induction cs as [|c cs IH]; [by inversion Hin|].
  rewrite fmap_cons. cbn [find].
  destruct (String.eqb_spec (connectionId c) (connectionId connection))
    as [Heq|Hne].
  - subst bound. cbn [deviceId]. by rewrite bool_decide_eq_true_2.
  - rewrite bool_decide_eq_false_2 by (apply Hfree, list_elem_of_here).
    apply IH.
    + apply elem_of_cons in Hin as [->|Hin]; [done|exact Hin].
    + intros c0 Hc0. apply Hfree. by apply list_elem_of_further.
Qed.

(** X14.  The whole handshake.  A target that registers for the first time on
    a connection and answers with the pairing token it was sent, within
    five minutes, can be commanded: sendArrowCommand for a direction the
    device supports resolves to true and writes one command frame, with
    repeat defaulting to 1 and holdTime to 0, to a connection bound to
    the device, which is the connection of the handshake when no other
    connection was bound to that device id. *)
Theorem register_pair_command
    (tRegister tConnect tRegistered tPair tResponse tCommand : Z)
    (ent ent' : Entropy) (s : ControlServer) (connection : WebSocketWithId)
    (info : DeviceInfo) (dir : Direction) (repeat holdTime : option Z) :
  connection ∈ connections s →
  Registry.devices (deviceRegistry s) !! id info = None →
  Registry.lookupExisting (deviceRegistry s) info = None →
  id info ≠ "" →
  type info = TARGET →
  0 ≤ tRegister →
  tPair ≤ tRegister + 300000 →
  commandTypeOf dir ∈ supportedCommands info →
  let bound := {| connectionId := connectionId connection;
                  deviceId := Some (id info);
                  isAlive := isAlive connection;
                  lastActivity := lastActivity connection |} in
  let s1 :=
    handleRegisterMessage tRegister tConnect tRegistered ent s connection
      (Some info) in
  let s2 :=
    handlePairingRequestMessage tPair tResponse ent' s1 bound
      (Some (generateToken ent)) in
  ∃ target,
    target ∈ connections s2
    ∧ deviceId target = Some (id info)
    ∧ sendArrowCommand tCommand s2 (id info) dir repeat holdTime None
      = (sendMessage s2 target
           (createBaseMessage tCommand MESSAGE_TYPES.COMMAND (controllerId s)
              CONTROLLER
              (CommandData (commandTypeOf dir) dir
                 (numberOr repeat 1) (numberOr holdTime 0))),
         Resolved true)
    ∧ ((∀ c, c ∈ connections s → deviceId c ≠ Some (id info)) →
       target = bound).
Proof.
  intros Hin Hnew Hnone Hid Htype Hclock Hwindow Hsupported bound s1 s2.
  destruct (handleRegisterMessage_record tRegister tConnect tRegistered ent s
              connection info Hid Htype) as (Hd1 & _ & Hconns1).
  fold s1 in Hd1, Hconns1. fold bound in Hconns1.
  assert ((Registry.registerDevice tRegister ent (deviceRegistry s) info true).2
          = {| Registry.deviceInfo := info;
               Registry.status := DISCONNECTED;
               Registry.lastSeen := tRegister;
               Registry.firstSeen := tRegister;
               Registry.connectionId := None;
               Registry.authToken := None;
               Registry.paired := false;
               Registry.pairingToken := Some (generateToken ent);
               Registry.pairingExpiration := Some (tRegister + 5 * 60 * 1000)
            |}) as Hnewdev.
  { unfold Registry.registerDevice. by rewrite Hnew, Hnone. }
  rewrite Hnewdev in Hd1. cbn in Hd1.
  set (d1 := Registry.mkDevice _ _ _ _ _ _ _ _ _) in Hd1.
  assert (Registry.success
            (Registry.pairDevice tPair ent' (deviceRegistry s1) (id info)
               (generateToken ent)).2 = true) as Hok.
  { apply (pairDevice_outstanding tPair ent' (deviceRegistry s1) (id info) d1
             (generateToken ent) (tRegister + 5 * 60 * 1000)
             (generateToken ent) Hd1);
      [done | apply generateToken_nonempty | done | lia | done | lia]. }
  destruct (pairDevice_stores _ _ _ _ _ _ Hd1 Hok)
    as (d2 & Hd2 & _ & Hpaired & _ & Hstatus & _ & Hinfo).
  assert (s2 = sendMessage
                 (with_registry s1
                    (Registry.pairDevice tPair ent' (deviceRegistry s1)
                       (id info) (generateToken ent)).1)
                 bound
                 (createBaseMessage tResponse MESSAGE_TYPES.PAIRING_RESPONSE
                    (controllerId s1) CONTROLLER
                    (PairingResponseData true (Some (generateToken ent')) None)))
    as Hs2.
  { subst s2. apply (handlePairingRequestMessage_accepts _ _ _ _ _ _ _ d1);
      [done | done | apply generateToken_nonempty | done | done]. }
  assert (Registry.devices (deviceRegistry s2) !! id info = Some d2) as Hd2'
    by (by rewrite Hs2).
  assert (connections s2 = connections s1) as Hconns2 by (by rewrite Hs2).
  assert (controllerId s2 = controllerId s) as Hctl.
  { rewrite Hs2. cbn. subst s1. unfold handleRegisterMessage.
    apply truthy_str_true in Hid. rewrite Hid, Htype.
    rewrite (bool_decide_eq_true_2 (TARGET = TARGET)) by done. cbn [negb].
    by destruct (Registry.registerDevice _ _ _ _ _). }
  pose proof (sendArrowCommand_firstFailing tCommand s2 (id info) dir
                repeat holdTime None) as Hsend.
  assert (firstFailing s2 (id info) dir = None) as Hnone'.
  { unfold firstFailing, preconditions, whenKnown.
    cbn [List.find satisfied]. rewrite Hd2'.
    rewrite Hstatus, Hpaired, Hinfo. subst d1. cbn [Registry.status Registry.deviceInfo].
    rewrite (bool_decide_eq_true_2 (CONNECTED = CONNECTED)) by done.
    rewrite (bool_decide_eq_true_2 (PAIRED = CONNECTED ∨ PAIRED = PAIRED))
      by (by right).
    rewrite (bool_decide_eq_true_2 _ Hsupported).
    rewrite bool_decide_eq_true_2; [done|].
    rewrite Hconns2, Hconns1. apply Exists_exists. exists bound. split; [|done].
    apply list_elem_of_fmap. exists connection. by rewrite String.eqb_refl. }
  rewrite Hnone' in Hsend. destruct Hsend as (target & Hfind & Heq).
  exists target.
  destruct (getConnectionByDeviceId_Some _ _ _ Hfind) as [Htin Htbound].
  split; [done|]. split; [done|]. split; [by rewrite <-Hctl|].
  intros Hfree. unfold getConnectionByDeviceId in Hfind.
  rewrite Hconns2, Hconns1 in Hfind.
  pose proof (find_rebound (connections s) connection (id info) Hin Hfree)
    as Hf.
  cbv zeta in Hf. fold bound in Hf. congruence.
Qed.

Lemma register_pair_command_witness :
  ∃ target,
    deviceId target = Some "t1"
    ∧ sendArrowCommand 4000
        (handlePairingRequestMessage 2000 2001 Sample.ones Sample.registered
           Sample.c1_t1 (Some (generateToken Sample.zeros)))
        "t1" left (Some 2) None None
      = (sendMessage
           (handlePairingRequestMessage 2000 2001 Sample.ones Sample.registered
              Sample.c1_t1 (Some (generateToken Sample.zeros)))
           target
           (createBaseMessage 4000 MESSAGE_TYPES.COMMAND "controller" CONTROLLER
              (CommandData "arrow_left" left 2 0)),
         Resolved true).
Proof.
  destruct (register_pair_command 1000 1001 1002 2000 2001 4000 Sample.zeros
              Sample.ones Sample.listening Sample.c1 Sample.t1 left (Some 2)
              None)
    as (target & _ & Hbound & Hsend & _).
  - vm_compute. apply list_elem_of_here.
  - reflexivity.
  - reflexivity.
  - discriminate.
  - reflexivity.
  - lia.
  - lia.
  - vm_compute. apply list_elem_of_here.
  - exists target. split; [exact Hbound | exact Hsend].
Defined.

End ServerHandshake.

(** ** Control server: what reaches a handler *)

Section ServerDispatch.

Import Server ServerSpec ServerShape WireSpec.

Variable handlers :
  Handler → ControlServer → WebSocketWithId → JsValue → ControlServer * bool.
Variable templateString : JsValue → string.

(** X15.  A frame reaches a handler only if it parses to a message that
    [validateMessage] accepts and whose type is register,
    pairing_request, command_result or heartbeat.  Every other frame is
    answered on its connection with one error message of code 100 that
    carries the reason (for an invalid envelope, the citation of the
    first violated constraint) and changes neither the registry nor the
    connection table.  When the handler throws, an error message of code
    103 is written after whatever the handler did. *)
Theorem handleMessage_refuses_or_dispatches (tMessage : Z)
    (s : ControlServer) (connection : WebSocketWithId)
    (parsed : option JsValue) :
  let s' := handleMessage handlers templateString tMessage s connection parsed in
  (∀ text, refusal templateString parsed = Some text →
     s' = sendMessage s connection
            (createErrorMessage tMessage (controllerId s) CONTROLLER
               ERROR_CODES.INVALID_MESSAGE text)
     ∧ deviceRegistry s' = deviceRegistry s
     ∧ connections s' = connections s)
  ∧ (refusal templateString parsed = None →
     ∃ message t h,
       parsed = Some message
       ∧ validateMessage message = Some accepted
       ∧ get_prop message "type" = Some (JsStr t)
       ∧ t ∈ [MESSAGE_TYPES.REGISTER; MESSAGE_TYPES.PAIRING_REQUEST;
              MESSAGE_TYPES.COMMAND_RESULT; MESSAGE_TYPES.HEARTBEAT]
       ∧ handlerFor (JsStr t) = Some h
       ∧ s' = (let '(s1, threw) := handlers h s connection message in
               if threw then
                 sendMessage s1 connection
                   (createErrorMessage tMessage (controllerId s1) CONTROLLER
                      ERROR_CODES.INTERNAL_ERROR "Internal server error")
               else s1)).
Proof.
  intros s'. subst s'. unfold handleMessage, refusal.
  destruct parsed as [message|]; [|split; [by intros ? [= <-] | done]].
  destruct (truthy message) eqn:Htruthy; cbn [negb];
    [|split; [by intros ? [= <-] | done]].
  rewrite (validateMessage_firstViolated message).
  destruct (firstViolated message) as [c|] eqn:Hfirst.
  { cbn [valid rejected negb error default].
    split; [by intros ? [= <-] | done]. }
  cbn [valid accepted negb].
  assert (∃ ty, get_prop message "type" = Some ty) as [ty Hty].
  { destruct message; try discriminate Htruthy; cbn; eauto.
    all: by apply firstViolated_None in Hfirst. }
  unfold field. rewrite Hty. cbn [mbind option_bind default].
  change (Datatypes.id ty) with ty.
  destruct (handlerFor ty) as [h|] eqn:Hh.
  - split; [by intros ? [=]|]. intros _.
    destruct ty as [| | | | t | |]; try discriminate Hh.
    exists message, t, h. split; [done|].
    split; [by rewrite validateMessage_firstViolated, Hfirst|].
    split; [done|].
    split; [|split; [done|]].
    + unfold handlerFor in Hh.
      destruct (String.eqb_spec t MESSAGE_TYPES.REGISTER) as [->|_];
        [apply list_elem_of_here|].
      apply list_elem_of_further.
      destruct (String.eqb_spec t MESSAGE_TYPES.PAIRING_REQUEST) as [->|_];
        [apply list_elem_of_here|].
      apply list_elem_of_further.
      destruct (String.eqb_spec t MESSAGE_TYPES.COMMAND_RESULT) as [->|_];
        [apply list_elem_of_here|].
      apply list_elem_of_further.
      destruct (String.eqb_spec t MESSAGE_TYPES.HEARTBEAT) as [->|_];
        [apply list_elem_of_here|].
      discriminate Hh.
    + by destruct (handlers h s connection message) as [s1 [|]].
  - split; [by intros ? [= <-] | done].
Qed.



End ServerDispatch.

(** ** Controller and target: the frames they exchange *)

Section Conversation.

Import Server ServerSpec CommandSpec.

(** What [validateMessage] answers for the frame of a message. *)
Lemma validate_received (m : ProtocolMessage) :
  validateMessage (Json.received m)
  = Some (if Js.truthy_str (msg_type m) && Js.truthy_str (version m)
             && Js.truthy_num (timestamp m)
          then if Js.truthy_str (sender_id m) then accepted
               else rejected "Sender missing required fields"
          else rejected "Message missing required fields").
Proof.
  unfold validateMessage, Json.received, Json.number, Js.truthy_num.
  cbn [truthy typeof negb orb String.eqb Ascii.eqb Bool.eqb get_prop own_prop
       mbind option_bind].
  destruct (Js.truthy_str (msg_type m)); [|reflexivity].
  destruct (Js.truthy_str (version m)); [|reflexivity].
  destruct (negb (timestamp m =? 0)); [|reflexivity].
  destruct (Js.truthy_str (sender_id m)); [|by destruct (sender_type m)].
  by destruct (sender_type m).
Qed.

(** X17.  A message made by createBaseMessage or createErrorMessage passes
    the validation of its receiver exactly when its type and the id of
    its sender are not empty and the clock did not read 0. *)
Theorem created_messages_validate (now : Z) (type senderId : string)
    (senderType : DeviceType) (d : MessageData) (code : Z) (text : string) :
  (validateMessage
     (Json.received (createBaseMessage now type senderId senderType d))
   = Some accepted
   ↔ type ≠ "" ∧ now ≠ 0 ∧ senderId ≠ "")
  ∧ (validateMessage
       (Json.received (createErrorMessage now senderId senderType code text))
     = Some accepted
     ↔ now ≠ 0 ∧ senderId ≠ "").
Proof.
  assert (∀ ty d',
            validateMessage
              (Json.received (createBaseMessage now ty senderId senderType d'))
            = Some accepted
            ↔ ty ≠ "" ∧ now ≠ 0 ∧ senderId ≠ "") as Hbase.
  { intros ty d'. rewrite validate_received.
    cbn [createBaseMessage msg_type version timestamp sender_id].
    rewrite <-!truthy_str_true, <-truthy_num_true.
    change (Js.truthy_str PROTOCOL_VERSION) with true.
    destruct (Js.truthy_str ty), (Js.truthy_num now),
      (Js.truthy_str senderId); cbn; split; try done; intros (? & ? & ?);
      done. }
  split; [apply Hbase|].
  unfold createErrorMessage. rewrite Hbase.
  split; [tauto|]. intros [? ?]. by split.
Qed.

(** The handler that the target runs for a frame of the controller. *)
Lemma Target_handleMessage_created now' sendError run c now type ctl d :
  now ≠ 0 → ctl ≠ "" →
  Target.handleMessage now' sendError run c
    (createBaseMessage now type ctl CONTROLLER d)
  = if String.eqb type MESSAGE_TYPES.REGISTERED then
      Target.handleRegisteredMessage c d
    else if String.eqb type MESSAGE_TYPES.PAIRING_RESPONSE then
      Target.handlePairingResponseMessage c d
    else if String.eqb type MESSAGE_TYPES.COMMAND then
      Target.handleCommandMessage now' sendError run c d
    else if String.eqb type MESSAGE_TYPES.HEARTBEAT_ACK then c
    else if String.eqb type MESSAGE_TYPES.ERROR then
      Target.handleErrorMessage c d
    else c.
Proof.
  intros Hnow Hctl. unfold Target.handleMessage.
  rewrite validate_received.
  cbn [createBaseMessage msg_type version timestamp sender_id data].
  apply truthy_num_true in Hnow. apply truthy_str_true in Hctl.
  rewrite Hnow, Hctl. change (Js.truthy_str PROTOCOL_VERSION) with true.
  destruct type as [|a type]; [reflexivity|]. reflexivity.
Qed.

Lemma Target_handleMessage_command now' sendError run c now ctl d :
  now ≠ 0 → ctl ≠ "" →
  Target.handleMessage now' sendError run c
    (createBaseMessage now MESSAGE_TYPES.COMMAND ctl CONTROLLER d)
  = Target.handleCommandMessage now' sendError run c d.
Proof.
  intros Hnow Hctl. by rewrite Target_handleMessage_created.
Qed.

Lemma Target_handleMessage_error now' sendError run c now ctl d :
  now ≠ 0 → ctl ≠ "" →
  Target.handleMessage now' sendError run c
    (createBaseMessage now MESSAGE_TYPES.ERROR ctl CONTROLLER d)
  = Target.handleErrorMessage c d.
Proof.
  intros Hnow Hctl. by rewrite Target_handleMessage_created.
Qed.

(** The controller's side of a first handshake. *)
Lemma first_handshake tRegister tConnect tRegistered tPair tResponse
    (ent ent' : Entropy) s connection info :
  Registry.devices (deviceRegistry s) !! id info = None →
  Registry.lookupExisting (deviceRegistry s) info = None →
  id info ≠ "" → type info = TARGET →
  0 ≤ tRegister → tPair ≤ tRegister + 300000 →
  let bound := {| connectionId := connectionId connection;
                  deviceId := Some (id info);
                  isAlive := isAlive connection;
                  lastActivity := lastActivity connection |} in
  let s1 :=
    handleRegisterMessage tRegister tConnect tRegistered ent s connection
      (Some info) in
  let s2 :=
    handlePairingRequestMessage tPair tResponse ent' s1 bound
      (Some (generateToken ent)) in
  sent s1
  = sent s
    ++ [(connectionId connection,
         createBaseMessage tRegistered MESSAGE_TYPES.REGISTERED (controllerId s)
           CONTROLLER
           (RegisteredData (id info) true (Some (generateToken ent))))]
  ∧ sent s2
    = sent s1
      ++ [(connectionId connection,
           createBaseMessage tResponse MESSAGE_TYPES.PAIRING_RESPONSE
             (controllerId s) CONTROLLER
             (PairingResponseData true (Some (generateToken ent')) None))]
  ∧ ∃ d, Registry.devices (deviceRegistry s2) !! id info = Some d
         ∧ Registry.status d = PAIRED
         ∧ Registry.paired d = true
         ∧ Registry.authToken d = Some (generateToken ent')
         ∧ Registry.deviceInfo d = info.
Proof.
  intros Hnew Hnone Hid Htype Hclock Hwindow bound s1 s2.
  destruct (handleRegisterMessage_record tRegister tConnect tRegistered ent s
              connection info Hid Htype) as (Hd1 & Hsent1 & _).
  fold s1 in Hd1, Hsent1.
  assert ((Registry.registerDevice tRegister ent (deviceRegistry s) info true).2
          = {| Registry.deviceInfo := info;
               Registry.status := DISCONNECTED;
               Registry.lastSeen := tRegister;
               Registry.firstSeen := tRegister;
               Registry.connectionId := None;
               Registry.authToken := None;
               Registry.paired := false;
               Registry.pairingToken := Some (generateToken ent);
               Registry.pairingExpiration := Some (tRegister + 5 * 60 * 1000)
            |}) as Hnewdev.
  { unfold Registry.registerDevice. by rewrite Hnew, Hnone. }
  rewrite Hnewdev in Hd1, Hsent1. cbn in Hd1, Hsent1.
  set (d1 := Registry.mkDevice _ _ _ _ _ _ _ _ _) in Hd1.
  assert (Registry.success
            (Registry.pairDevice tPair ent' (deviceRegistry s1) (id info)
               (generateToken ent)).2 = true) as Hok.
  { apply (pairDevice_outstanding tPair ent' (deviceRegistry s1) (id info) d1
             (generateToken ent) (tRegister + 5 * 60 * 1000)
             (generateToken ent) Hd1);
      [done | apply generateToken_nonempty | done | lia | done | lia]. }
  destruct (pairDevice_stores _ _ _ _ _ _ Hd1 Hok)
    as (d2 & Hd2 & _ & Hpaired & Hauth & Hstatus & _ & Hinfo).
  assert (controllerId s1 = controllerId s) as Hctl.
  { subst s1. unfold handleRegisterMessage.
    apply truthy_str_true in Hid. rewrite Hid, Htype.
    rewrite (bool_decide_eq_true_2 (TARGET = TARGET)) by done. cbn [negb].
    by destruct (Registry.registerDevice _ _ _ _ _). }
  assert (s2 = sendMessage
                 (with_registry s1
                    (Registry.pairDevice tPair ent' (deviceRegistry s1)
                       (id info) (generateToken ent)).1)
                 bound
                 (createBaseMessage tResponse MESSAGE_TYPES.PAIRING_RESPONSE
                    (controllerId s1) CONTROLLER
                    (PairingResponseData true (Some (generateToken ent')) None)))
    as Hs2.
  { subst s2. apply (handlePairingRequestMessage_accepts _ _ _ _ _ _ _ d1);
      [done | done | apply generateToken_nonempty | done | done]. }
  split; [exact Hsent1|]. split; [by rewrite Hs2, Hctl|].
  exists d2. split; [by rewrite Hs2|].
  rewrite Hstatus. subst d1. cbn [Registry.status Registry.deviceInfo] in *.
  by rewrite (bool_decide_eq_true_2 (CONNECTED = CONNECTED)).
Qed.

(** X18.  The handshake as both ends see it.  A target that registers for the
    first time receives in the registered message the pairing token that
    the registry issued; it sends that token back in its pairing
    request; when the controller handles the request within five
    minutes, the pairing response makes the target paired, resolves the
    promise of sendPairingRequest with true, and leaves the target with
    the very auth token that the registry stores for the device, which
    is paired there as well. *)
Theorem handshake_agrees
    (tSend tRegister tConnect tRegistered tRequest tPair tResponse
       tNow tNow' : Z)
    (ent ent' : Entropy) (run : Direction → Z → Z → option bool)
    (s : ControlServer) (connection : WebSocketWithId) (c : Target.Session) :
  let info := Target.deviceInfo c in
  Registry.devices (deviceRegistry s) !! id info = None →
  Registry.lookupExisting (deviceRegistry s) info = None →
  id info ≠ "" → type info = TARGET →
  controllerId s ≠ "" →
  Target.socketOpen c = true →
  Target.waiters c = 0%nat →
  0 ≤ tRegister → tPair ≤ tRegister + 300000 →
  tRegistered ≠ 0 → tResponse ≠ 0 →
  let bound := {| connectionId := connectionId connection;
                  deviceId := Some (id info);
                  isAlive := isAlive connection;
                  lastActivity := lastActivity connection |} in
  let c0 := Target.sendRegistration tSend None c in
  let s1 :=
    handleRegisterMessage tRegister tConnect tRegistered ent s connection
      (Some info) in
  ∃ registered token response,
    Target.outbox c0
    = Target.outbox c
      ++ [Target.createFrame tSend MESSAGE_TYPES.REGISTER (id info)
            (Target.RegisterData info)]
    ∧ sent s1 = sent s ++ [(connectionId connection, registered)]
    ∧ let c1 := Target.handleMessage tNow None run c0 registered in
      let c2 := (Target.sendPairingRequest tRequest None c1).1 in
      let s2 :=
        handlePairingRequestMessage tPair tResponse ent' s1 bound
          (Some token) in
      let c3 := Target.handleMessage tNow' None run c2 response in
      Target.status c1 = CONNECTED
      ∧ Target.pairingToken c1 = Some token
      ∧ (Target.sendPairingRequest tRequest None c1).2 = None
      ∧ Target.outbox c2
        = Target.outbox c1
          ++ [Target.createFrame tRequest MESSAGE_TYPES.PAIRING_REQUEST
                (id info) (Target.PairingRequestData token)]
      ∧ sent s2 = sent s1 ++ [(connectionId connection, response)]
      ∧ Target.status c3 = PAIRED
      ∧ Target.settled c3 = Target.settled c ++ [Resolved true]
      ∧ Target.waiters c3 = 0%nat
      ∧ ∃ d, Registry.devices (deviceRegistry s2) !! id info = Some d
             ∧ Registry.status d = PAIRED
             ∧ Registry.paired d = true
             ∧ is_Some (Registry.authToken d)
             ∧ Target.authToken c3 = Registry.authToken d.
Proof.
  intros info Hnew Hnone Hid Htype Hctl Hopen Hwait Hclock Hwindow Ht1 Ht2
    bound c0 s1.
  destruct (first_handshake tRegister tConnect tRegistered tPair tResponse
              ent ent' s connection info Hnew Hnone Hid Htype Hclock Hwindow)
    as (Hsent1 & Hsent2 & d & Hd & Hstatus & Hpaired & Hauth & _).
  fold s1 in Hsent1, Hsent2, Hd. fold bound in Hsent2, Hd.
  clearbody s1 bound. subst c0 info.
  destruct c as [info st auth ptok open out w setl em].
  cbn [Target.deviceInfo Target.socketOpen Target.waiters Target.outbox
       Target.settled] in *.
  subst open w.
  exists (createBaseMessage tRegistered MESSAGE_TYPES.REGISTERED
            (controllerId s) CONTROLLER
            (RegisteredData (id info) true (Some (generateToken ent)))),
    (generateToken ent),
    (createBaseMessage tResponse MESSAGE_TYPES.PAIRING_RESPONSE
       (controllerId s) CONTROLLER
       (PairingResponseData true (Some (generateToken ent')) None)).
  split; [reflexivity|]. split; [exact Hsent1|].
  set (c1 := Target.handleMessage tNow None run _ _).
  assert (c1 = {| Target.deviceInfo := info;
                  Target.status := CONNECTED;
                  Target.authToken := auth;
                  Target.pairingToken := Some (generateToken ent);
                  Target.socketOpen := true;
                  Target.outbox :=
                    out ++ [Target.createFrame tSend MESSAGE_TYPES.REGISTER
                              (id info) (Target.RegisterData info)];
                  Target.waiters := 0;
                  Target.settled := setl;
                  Target.emitted :=
                    (em ++ [Target.PairingRequired (Some (generateToken ent))])
                    ++ [Target.StatusChanged CONNECTED] |}) as Hc1.
  { subst c1. rewrite Target_handleMessage_created by done.
    cbn [String.eqb Ascii.eqb Bool.eqb MESSAGE_TYPES.REGISTERED].
    unfold Target.sendRegistration. cbn [Target.socketOpen negb Target.send].
    unfold Target.handleRegisteredMessage. cbn [Target.deviceInfo].
    by rewrite String.eqb_refl. }
  clearbody c1. subst c1.
  assert (Target.sendPairingRequest tRequest None
            {| Target.deviceInfo := info;
               Target.status := CONNECTED;
               Target.authToken := auth;
               Target.pairingToken := Some (generateToken ent);
               Target.socketOpen := true;
               Target.outbox :=
                 out ++ [Target.createFrame tSend MESSAGE_TYPES.REGISTER
                           (id info) (Target.RegisterData info)];
               Target.waiters := 0;
               Target.settled := setl;
               Target.emitted :=
                 (em ++ [Target.PairingRequired (Some (generateToken ent))])
                 ++ [Target.StatusChanged CONNECTED] |}
          = ({| Target.deviceInfo := info;
                Target.status := CONNECTED;
                Target.authToken := auth;
                Target.pairingToken := Some (generateToken ent);
                Target.socketOpen := true;
                Target.outbox :=
                  (out ++ [Target.createFrame tSend MESSAGE_TYPES.REGISTER
                             (id info) (Target.RegisterData info)])
                  ++ [Target.createFrame tRequest MESSAGE_TYPES.PAIRING_REQUEST
                        (id info)
                        (Target.PairingRequestData (generateToken ent))];
                Target.waiters := 1;
                Target.settled := setl;
                Target.emitted :=
                  (em ++ [Target.PairingRequired (Some (generateToken ent))])
                  ++ [Target.StatusChanged CONNECTED] |},
             None)) as Hrequest.
  { unfold Target.sendPairingRequest.
    cbn [Target.socketOpen Target.pairingToken negb].
    by rewrite truthy_generateToken. }
  rewrite Hrequest. cbn [fst snd].
  set (c3 := Target.handleMessage tNow' None run _ _).
  assert (c3 = {| Target.deviceInfo := info;
                  Target.status := PAIRED;
                  Target.authToken := Some (generateToken ent');
                  Target.pairingToken := Some (generateToken ent);
                  Target.socketOpen := true;
                  Target.outbox :=
                    (out ++ [Target.createFrame tSend MESSAGE_TYPES.REGISTER
                               (id info) (Target.RegisterData info)])
                    ++ [Target.createFrame tRequest
                          MESSAGE_TYPES.PAIRING_REQUEST (id info)
                          (Target.PairingRequestData (generateToken ent))];
                  Target.waiters := 0;
                  Target.settled := setl ++ [Resolved true];
                  Target.emitted :=
                    (((em ++ [Target.PairingRequired
                                (Some (generateToken ent))])
                      ++ [Target.StatusChanged CONNECTED])
                     ++ [Target.StatusChanged PAIRED])
                    ++ [Target.PairingResult true None] |}) as Hc3.
  { subst c3. rewrite Target_handleMessage_created by done. reflexivity. }
  clearbody c3. subst c3.
  split; [reflexivity|]. split; [reflexivity|]. split; [reflexivity|].
  split; [reflexivity|]. split; [exact Hsent2|]. split; [reflexivity|].
  split; [reflexivity|]. split; [reflexivity|].
  exists d. rewrite Hauth. by eauto.
Qed.

Lemma handshake_agrees_witness :
  ∃ registered token response,
    sent Sample.registered = sent Sample.listening ++ [("c1", registered)]
    ∧ Target.pairingToken
        (Target.handleMessage 1003 None Sample.pressed
           (Target.sendRegistration 999 None Sample.target_t1) registered)
      = Some token
    ∧ Target.status
        (Target.handleMessage 2002 None Sample.pressed
           (Target.sendPairingRequest 1999 None
              (Target.handleMessage 1003 None Sample.pressed
                 (Target.sendRegistration 999 None Sample.target_t1)
                 registered)).1
           response)
      = PAIRED.
Proof.
  destruct (handshake_agrees 999 1000 1001 1002 1999 2000 2001 1003 2002
              Sample.zeros Sample.ones Sample.pressed Sample.listening
              Sample.c1 Sample.target_t1)
    as (registered & token & response & _ & Hsent & H).
  - reflexivity.
  - reflexivity.
  - discriminate.
  - reflexivity.
  - discriminate.
  - reflexivity.
  - reflexivity.
  - lia.
  - lia.
  - lia.
  - lia.
  - exists registered, token, response.
    destruct H as (_ & Htoken & _ & _ & _ & Hstatus & _).
    split; [exact Hsent|]. split; [exact Htoken | exact Hstatus].
Defined.

(** What the controller answers when the registry refuses to pair. *)
Lemma handlePairingRequestMessage_refuses tPair tMessage ent s connection
    devId token :
  deviceId connection = Some devId → devId ≠ "" → token ≠ "" →
  Registry.success
    (Registry.pairDevice tPair ent (deviceRegistry s) devId token).2 = false →
  let s' :=
    handlePairingRequestMessage tPair tMessage ent s connection (Some token) in
  ∃ reason,
    sent s'
    = sent s
      ++ [(connectionId connection,
           createErrorMessage tMessage (controllerId s) CONTROLLER
             ERROR_CODES.AUTHENTICATION_FAILED reason)]
    ∧ deviceRegistry s' = deviceRegistry s.
Proof.
  intros Hbound Hdev Htok Hfail s'.
  destruct (pairDevice_failure _ _ _ _ _ Hfail) as (Hr & reason & He & Hne).
  exists reason. subst s'. unfold handlePairingRequestMessage. rewrite Hbound.
  apply truthy_str_true in Hdev, Htok. rewrite Hdev, Htok. cbn [negb].
  destruct (Registry.pairDevice tPair ent (deviceRegistry s) devId token)
    as [r' result].
  cbn [fst snd] in Hfail, Hr, He. rewrite Hfail, He.
  cbn [negb errorOrDefault].
  apply truthy_str_true in Hne. rewrite Hne. subst r'. by split.
Qed.

(** X19.  A pairing request that the registry refuses is never reported to
    the caller of sendPairingRequest.  The controller answers with an
    error message; on it the target forgets its pairing token and its
    auth token, but the promise of sendPairingRequest is neither resolved
    nor rejected, and every later sendPairingRequest is rejected with
    "No pairing token available" without writing a frame. *)
Theorem refused_pairing_is_never_reported
    (tRequest tPair tMessage tNow tRetry : Z) (ent : Entropy)
    (run : Direction → Z → Z → option bool) (retryError : option string)
    (s : ControlServer) (connection : WebSocketWithId) (c : Target.Session)
    (token : string) :
  deviceId connection = Some (id (Target.deviceInfo c)) →
  id (Target.deviceInfo c) ≠ "" →
  Target.socketOpen c = true →
  Target.pairingToken c = Some token →
  token ≠ "" →
  controllerId s ≠ "" →
  tMessage ≠ 0 →
  Registry.success
    (Registry.pairDevice tPair ent (deviceRegistry s)
       (id (Target.deviceInfo c)) token).2 = false →
  let c1 := (Target.sendPairingRequest tRequest None c).1 in
  let s' :=
    handlePairingRequestMessage tPair tMessage ent s connection (Some token) in
  ∃ reply,
    (Target.sendPairingRequest tRequest None c).2 = None
    ∧ Target.outbox c1
      = Target.outbox c
        ++ [Target.createFrame tRequest MESSAGE_TYPES.PAIRING_REQUEST
              (id (Target.deviceInfo c)) (Target.PairingRequestData token)]
    ∧ sent s' = sent s ++ [(connectionId connection, reply)]
    ∧ msg_type reply = MESSAGE_TYPES.ERROR
    ∧ let c2 := Target.handleMessage tNow None run c1 reply in
      Target.waiters c2 = S (Target.waiters c)
      ∧ Target.settled c2 = Target.settled c
      ∧ Target.pairingToken c2 = None
      ∧ Target.authToken c2 = None
      ∧ Target.outbox c2 = Target.outbox c1
      ∧ Target.sendPairingRequest tRetry retryError c2
        = (c2, Some (Rejected "No pairing token available")).
Proof.
  intros Hbound Hid Hopen Htoken Hne Hctl Hclock Hfail c1 s'.
  destruct (handlePairingRequestMessage_refuses tPair tMessage ent s
              connection _ token Hbound Hid Hne Hfail) as (reason & Hsent & _).
  fold s' in Hsent. clearbody s'.
  exists (createErrorMessage tMessage (controllerId s) CONTROLLER
            ERROR_CODES.AUTHENTICATION_FAILED reason).
  destruct c as [info st auth ptok open out w setl em].
  cbn [Target.deviceInfo Target.socketOpen Target.pairingToken Target.outbox
       Target.waiters Target.settled] in *.
  subst open ptok.
  assert (Target.sendPairingRequest tRequest None
            {| Target.deviceInfo := info;
               Target.status := st;
               Target.authToken := auth;
               Target.pairingToken := Some token;
               Target.socketOpen := true;
               Target.outbox := out;
               Target.waiters := w;
               Target.settled := setl;
               Target.emitted := em |}
          = ({| Target.deviceInfo := info;
                Target.status := st;
                Target.authToken := auth;
                Target.pairingToken := Some token;
                Target.socketOpen := true;
                Target.outbox :=
                  out ++ [Target.createFrame tRequest
                            MESSAGE_TYPES.PAIRING_REQUEST (id info)
                            (Target.PairingRequestData token)];
                Target.waiters := S w;
                Target.settled := setl;
                Target.emitted := em |},
             None)) as Hrequest.
  { unfold Target.sendPairingRequest.
    cbn [Target.socketOpen Target.pairingToken negb].
    apply truthy_str_true in Hne. by rewrite Hne. }
  subst c1. rewrite Hrequest. cbn [fst snd Target.outbox].
  split; [reflexivity|]. split; [reflexivity|]. split; [exact Hsent|].
  split; [reflexivity|].
  unfold createErrorMessage.
  rewrite Target_handleMessage_error by done.
  unfold Target.handleErrorMessage.
  cbn [Z.eqb ERROR_CODES.AUTHENTICATION_FAILED Pos.eqb].
  unfold Target.emit, Target.with_tokens, Target.with_status.
  cbn [Target.deviceInfo Target.status Target.authToken Target.pairingToken
       Target.socketOpen Target.outbox Target.waiters Target.settled
       Target.emitted].
  destruct (bool_decide (st = PAIRED)); cbv zeta;
    unfold Target.sendPairingRequest;
    cbn [Target.deviceInfo Target.status Target.authToken Target.pairingToken
         Target.socketOpen Target.outbox Target.waiters Target.settled
         Target.emitted negb];
    done.
Qed.

Lemma refused_pairing_is_never_reported_witness :
  ∃ reply,
    msg_type reply = MESSAGE_TYPES.ERROR
    ∧ Target.settled
        (Target.handleMessage 2002 None Sample.pressed
           (Target.sendPairingRequest 1999 None
              (Target.with_tokens None (Some "abc") Sample.target_t1)).1
           reply)
      = [].
Proof.
  destruct (refused_pairing_is_never_reported 1999 2000 2001 2002 2003
              Sample.ones Sample.pressed None Sample.registered Sample.c1_t1
              (Target.with_tokens None (Some "abc") Sample.target_t1) "abc")
    as (reply & _ & _ & _ & Htype & H).
  - reflexivity.
  - discriminate.
  - reflexivity.
  - reflexivity.
  - discriminate.
  - discriminate.
  - lia.
  - vm_compute. reflexivity.
  - exists reply. destruct H as (_ & Hsettled & _).
    split; [exact Htype | exact Hsettled].
Defined.

Lemma numberOr_again (o : option Z) (fallback : Z) :
  numberOr (Some (numberOr o fallback)) fallback = numberOr o fallback.
Proof.
  unfold numberOr. destruct o as [n|].
  - destruct (Js.truthy_num n) eqn:Hn; [by rewrite Hn|].
    by destruct (Js.truthy_num fallback).
  - by destruct (Js.truthy_num fallback).
Qed.

(** X20.  An arrow command that the controller sends is executed by the
    target as requested.  When sendArrowCommand resolves, the frame it
    wrote, once handled by a target that supports the command, runs the
    executor with the requested direction, the requested repeat count (1
    when none or 0 was given) and hold time (0 when none was given), and
    the target writes one command_result frame that tells whether the
    executor succeeded; the target runs the command whatever its own
    status is. *)
Theorem arrow_command_is_executed (tCommand tNow : Z)
    (run : Direction → Z → Z → option bool)
    (s : ControlServer) (devId : string) (dir : Direction)
    (repeat holdTime : option Z) (c : Target.Session) :
  (sendArrowCommand tCommand s devId dir repeat holdTime None).2
  = Resolved true →
  controllerId s ≠ "" →
  tCommand ≠ 0 →
  Target.socketOpen c = true →
  commandTypeOf dir ∈ supportedCommands (Target.deviceInfo c) →
  let s' := (sendArrowCommand tCommand s devId dir repeat holdTime None).1 in
  let result := run dir (numberOr repeat 1) (numberOr holdTime 0) in
  ∃ target frame,
    target ∈ connections s
    ∧ deviceId target = Some devId
    ∧ sent s' = sent s ++ [(connectionId target, frame)]
    ∧ let c' := Target.handleMessage tNow None run c frame in
      Target.outbox c'
      = Target.outbox c
        ++ [Target.createFrame tNow MESSAGE_TYPES.COMMAND_RESULT
              (id (Target.deviceInfo c))
              (Target.CommandResultData (Some (commandTypeOf dir))
                 (bool_decide (result = Some true))
                 match result with
                 | Some true => None
                 | Some false => Some "Command execution failed"
                 | None => Some "Internal error"
                 end)]
      ∧ Target.status c' = Target.status c
      ∧ Target.authToken c' = Target.authToken c
      ∧ Target.pairingToken c' = Target.pairingToken c.
Proof.
  intros Hresolved Hctl Hclock Hopen Hsupported s' result.
  pose proof (sendArrowCommand_firstFailing tCommand s devId dir repeat
                holdTime None) as Hsend.
  destruct (firstFailing s devId dir) as [p|].
  { by rewrite Hsend in Hresolved. }
  destruct Hsend as (target & Hfind & Hsend).
  destruct (getConnectionByDeviceId_Some _ _ _ Hfind) as [Hin Hbound].
  exists target,
    (createBaseMessage tCommand MESSAGE_TYPES.COMMAND (controllerId s)
       CONTROLLER
       (CommandData (commandTypeOf dir) dir (numberOr repeat 1)
          (numberOr holdTime 0))).
  split; [done|]. split; [done|].
  split; [subst s'; by rewrite Hsend|].
  clear Hsend Hresolved s'.
  rewrite Target_handleMessage_command by done.
  unfold Target.handleCommandMessage.
  rewrite (bool_decide_eq_true_2 _ Hsupported). cbn [negb].
  rewrite !numberOr_again. fold result.
  destruct c as [info st auth ptok open out w setl em].
  cbn [Target.socketOpen Target.deviceInfo] in *. subst open.
  assert ((if String.eqb (commandTypeOf dir) COMMAND_TYPES.ARROW_LEFT
           then left else right) = dir) as -> by (by destruct dir).
  assert (String.eqb (commandTypeOf dir) COMMAND_TYPES.ARROW_LEFT
          || String.eqb (commandTypeOf dir) COMMAND_TYPES.ARROW_RIGHT = true)
    as -> by (by destruct dir).
  fold result. clearbody result.
  destruct result as [[|]|]; cbv zeta; repeat split; reflexivity.
Qed.

Lemma arrow_command_is_executed_witness :
  ∃ target frame,
    Server.deviceId target = Some "t1"
    ∧ Target.outbox
        (Target.handleMessage 4001 None Sample.pressed Sample.target_t1 frame)
      = [Target.createFrame 4001 MESSAGE_TYPES.COMMAND_RESULT "t1"
           (Target.CommandResultData (Some "arrow_left") true None)].
Proof.
  destruct (arrow_command_is_executed 4000 4001 Sample.pressed
              (handlePairingRequestMessage 2000 2001 Sample.ones
                 Sample.registered Sample.c1_t1
                 (Some (generateToken Sample.zeros)))
              "t1" left (Some 2) None Sample.target_t1)
    as (target & frame & _ & Hbound & _ & Hout & _).
  - vm_compute. reflexivity.
  - discriminate.
  - lia.
  - reflexivity.
  - vm_compute. apply list_elem_of_here.
  - exists target, frame. split; [exact Hbound | exact Hout].
Defined.

(** X21.  A paired device that comes back needs no new handshake.  When a
    target whose id the registry knows as paired registers on a new
    connection, the registered message tells it that no pairing is
    required, the target takes itself for paired at once, the registry
    has it paired and connected with its old auth token, and an arrow
    command for it resolves. *)
Theorem reregistration_needs_no_handshake
    (tRegister tConnect tRegistered tNow tCommand : Z) (ent : Entropy)
    (run : Direction → Z → Z → option bool)
    (s : ControlServer) (connection : WebSocketWithId) (c : Target.Session)
    (d : Registry.RegisteredDevice) (dir : Direction)
    (repeat holdTime : option Z) :
  let info := Target.deviceInfo c in
  connection ∈ connections s →
  Registry.devices (deviceRegistry s) !! id info = Some d →
  Registry.paired d = true →
  id info ≠ "" → type info = TARGET →
  controllerId s ≠ "" → tRegistered ≠ 0 →
  commandTypeOf dir ∈ supportedCommands info →
  let s1 :=
    handleRegisterMessage tRegister tConnect tRegistered ent s connection
      (Some info) in
  ∃ registered d',
    sent s1 = sent s ++ [(connectionId connection, registered)]
    ∧ data registered
      = RegisteredData (id info) false (Registry.pairingToken d)
    ∧ Target.status (Target.handleMessage tNow None run c registered) = PAIRED
    ∧ Target.authToken (Target.handleMessage tNow None run c registered)
      = Target.authToken c
    ∧ Registry.devices (deviceRegistry s1) !! id info = Some d'
    ∧ Registry.status d' = PAIRED
    ∧ Registry.paired d' = true
    ∧ Registry.authToken d' = Registry.authToken d
    ∧ (sendArrowCommand tCommand s1 (id info) dir repeat holdTime None).2
      = Resolved true.
Proof.
  intros info Hin Hd Hpaired Hid Htype Hctl Hclock Hsupported s1.
  destruct (handleRegisterMessage_record tRegister tConnect tRegistered ent s
              connection info Hid Htype) as (Hd1 & Hsent1 & Hconns1).
  fold s1 in Hd1, Hsent1, Hconns1.
  assert ((Registry.registerDevice tRegister ent (deviceRegistry s) info true).2
          = {| Registry.deviceInfo :=
                 spreadDeviceInfo (Registry.deviceInfo d) info;
               Registry.status := Registry.status d;
               Registry.lastSeen := tRegister;
               Registry.firstSeen := Registry.firstSeen d;
               Registry.connectionId := Registry.connectionId d;
               Registry.authToken := Registry.authToken d;
               Registry.paired := Registry.paired d;
               Registry.pairingToken := Registry.pairingToken d;
               Registry.pairingExpiration := Registry.pairingExpiration d |})
    as Hupdated.
  { unfold Registry.registerDevice. by rewrite Hd. }
  rewrite Hupdated in Hd1, Hsent1.
  cbn [Registry.deviceInfo Registry.paired Registry.firstSeen
       Registry.authToken Registry.pairingToken Registry.pairingExpiration]
    in Hd1, Hsent1.
  rewrite Hpaired in Hd1, Hsent1. cbn [negb] in Hsent1.
  set (d' := Registry.mkDevice _ _ _ _ _ _ _ _ _) in Hd1.
  exists (createBaseMessage tRegistered MESSAGE_TYPES.REGISTERED
            (controllerId s) CONTROLLER
            (RegisteredData (id info) false (Registry.pairingToken d))), d'.
  split; [exact Hsent1|]. split; [reflexivity|].
  assert (Target.handleMessage tNow None run c
            (createBaseMessage tRegistered MESSAGE_TYPES.REGISTERED
               (controllerId s) CONTROLLER
               (RegisteredData (id info) false (Registry.pairingToken d)))
          = Target.emit (Target.StatusChanged PAIRED)
              (Target.emit Target.Registered (Target.with_status PAIRED c)))
    as ->.
  { rewrite Target_handleMessage_created by done.
    cbn [String.eqb Ascii.eqb Bool.eqb MESSAGE_TYPES.REGISTERED].
    unfold Target.handleRegisteredMessage. fold info.
    by rewrite String.eqb_refl. }
  split; [reflexivity|]. split; [reflexivity|]. split; [exact Hd1|].
  split; [reflexivity|]. split; [reflexivity|]. split; [reflexivity|].
  pose proof (sendArrowCommand_firstFailing tCommand s1 (id info) dir
                repeat holdTime None) as Hsend.
  assert (firstFailing s1 (id info) dir = None) as Hnone.
  { unfold firstFailing, preconditions, whenKnown.
    cbn [List.find satisfied]. rewrite Hd1. subst d'.
    cbn [Registry.status Registry.paired Registry.deviceInfo spreadDeviceInfo
         supportedCommands].
    rewrite (bool_decide_eq_true_2 (PAIRED = CONNECTED ∨ PAIRED = PAIRED))
      by (by right).
    rewrite (bool_decide_eq_true_2 _ Hsupported).
    rewrite bool_decide_eq_true_2; [done|].
    rewrite Hconns1. apply Exists_exists.
    exists {| connectionId := connectionId connection;
              deviceId := Some (id info);
              isAlive := isAlive connection;
              lastActivity := lastActivity connection |}.
    split; [|done].
    apply list_elem_of_fmap. exists connection. by rewrite String.eqb_refl. }
  rewrite Hnone in Hsend. destruct Hsend as (target & _ & ->). done.
Qed.

Lemma reregistration_needs_no_handshake_witness :
  ∃ registered,
    Target.status
      (Target.handleMessage 5001 None Sample.pressed Sample.target_t1
         registered)
    = PAIRED
    ∧ (sendArrowCommand 6000
         (handleRegisterMessage 5000 5001 5002 Sample.zeros
            (handleClose 3000
               (handlePairingRequestMessage 2000 2001 Sample.ones
                  Sample.registered Sample.c1_t1
                  (Some (generateToken Sample.zeros)))
               Sample.c1_t1)
            Sample.c2 (Some Sample.t1))
         "t1" right None None None).2
      = Resolved true.
Proof.
  destruct (reregistration_needs_no_handshake 5000 5001 5002 5001 6000
              Sample.zeros Sample.pressed
              (handleClose 3000
                 (handlePairingRequestMessage 2000 2001 Sample.ones
                    Sample.registered Sample.c1_t1
                    (Some (generateToken Sample.zeros)))
                 Sample.c1_t1)
              Sample.c2 Sample.target_t1
              {| Registry.deviceInfo := Sample.t1;
                 Registry.status := DISCONNECTED;
                 Registry.lastSeen := 3000;
                 Registry.firstSeen := 1000;
                 Registry.connectionId := None;
                 Registry.authToken := Some (generateToken Sample.ones);
                 Registry.paired := true;
                 Registry.pairingToken := None;
                 Registry.pairingExpiration := None |}
              right None None)
    as (registered & d' & _ & _ & Hstatus & _ & _ & _ & _ & _ & Hsend).
  - vm_compute. apply list_elem_of_here.
  - vm_compute. reflexivity.
  - reflexivity.
  - discriminate.
  - reflexivity.
  - discriminate.
  - lia.
  - vm_compute. apply list_elem_of_further, list_elem_of_here.
  - exists registered. split; [exact Hstatus | exact Hsend].
Defined.

(** X22.  The target runs only the arrow commands it announced.  A command
    whose type is not among its supported commands, or is no arrow
    command, is answered with a command_result that reports a failure
    and its reason, and the executor is not consulted: the outcome is the
    same whatever the executor would have done. *)
Theorem unsupported_command_is_not_executed (tCommand tNow : Z)
    (run run' : Direction → Z → Z → option bool) (ctl : string)
    (c : Target.Session) (commandType : string) (dir : Direction)
    (repeat holdTime : Z) :
  ctl ≠ "" → tCommand ≠ 0 →
  Target.socketOpen c = true →
  commandType ∉ supportedCommands (Target.deviceInfo c)
  ∨ (commandType ≠ COMMAND_TYPES.ARROW_LEFT
     ∧ commandType ≠ COMMAND_TYPES.ARROW_RIGHT) →
  let frame :=
    createBaseMessage tCommand MESSAGE_TYPES.COMMAND ctl CONTROLLER
      (CommandData commandType dir repeat holdTime) in
  let c' := Target.handleMessage tNow None run c frame in
  c' = Target.handleMessage tNow None run' c frame
  ∧ Target.outbox c'
    = Target.outbox c
      ++ [Target.createFrame tNow MESSAGE_TYPES.COMMAND_RESULT
            (id (Target.deviceInfo c))
            (Target.CommandResultData (Some commandType) false
               (Some (if bool_decide
                           (commandType ∈ supportedCommands (Target.deviceInfo c))
                      then "Unhandled command"
                      else "Unsupported command")))]
  ∧ Target.emitted c' = Target.emitted c.
Proof.
  intros Hctl Hclock Hopen Hcase frame c'. subst c' frame.
  rewrite !Target_handleMessage_command by done.
  unfold Target.handleCommandMessage.
  destruct (bool_decide (commandType ∈ supportedCommands (Target.deviceInfo c)))
    eqn:Hsupported; cbn [negb].
  - destruct Hcase as [Hno|[Hleft Hright]].
    { by apply bool_decide_eq_true in Hsupported. }
    apply String.eqb_neq in Hleft, Hright. rewrite Hleft, Hright. cbn [orb].
    unfold Target.sendCommandResult. rewrite Hopen. by cbn.
  - unfold Target.sendCommandResult. rewrite Hopen. by cbn.
Qed.

Lemma unsupported_command_is_not_executed_witness :
  Target.outbox
    (Target.handleMessage 4001 None Sample.pressed Sample.target_t1
       (createBaseMessage 4000 MESSAGE_TYPES.COMMAND "controller" CONTROLLER
          (CommandData "arrow_up" left 1 0)))
  = [Target.createFrame 4001 MESSAGE_TYPES.COMMAND_RESULT "t1"
       (Target.CommandResultData (Some "arrow_up") false
          (Some "Unsupported command"))].
Proof.
  destruct (unsupported_command_is_not_executed 4000 4001 Sample.pressed
              Sample.pressed "controller" Sample.target_t1 "arrow_up" left 1 0)
    as (_ & Hout & _).
  - discriminate.
  - lia.
  - reflexivity.
  - left. vm_compute. intros H.
    repeat (apply elem_of_cons in H as [H|H]; [discriminate H|]).
    by apply elem_of_nil in H.
  - exact Hout.
Defined.

End Conversation.

(** ** Control client: sessions that end and resume *)

Section ClientSessions.

Import Client ClientSpec.

Ltac fields :=
  cbn [autoConnect heartbeatInterval controllerInfo ws heartbeatIntervalId
       reconnectTimeoutId reconnectAttempts maxReconnectAttempts status
       timers nextHandle sockets log].

(** The client right after the reconnect timer fired within the budget
    and [new WebSocket] returned. *)
Lemma fireTimer_connecting c a h :
  waiting c a → reconnectTimeoutId c = Some h →
  a + 1 ≤ maxReconnectAttempts c →
  fireTimer h false c
  = {| autoConnect := true;
       heartbeatInterval := heartbeatInterval c;
       controllerInfo := controllerInfo c;
       ws := Some (length (sockets c));
       heartbeatIntervalId := None;
       reconnectTimeoutId := Some h;
       reconnectAttempts := a + 1;
       maxReconnectAttempts := maxReconnectAttempts c;
       status := CONNECTING;
       timers := [];
       nextHandle := nextHandle c;
       sockets := sockets c ++ [ {| sock := length (sockets c);
                                    caller := ByReconnect;
                                    settled := false |} ];
       log := (log c ++ [ReconnectAttempt (a + 1)]) ++ [Connecting] |}.
Proof.
  intros (Hauto & [[ipAddr port] Hinfo] & Hws & Hst & Hhb & Ha & Hs & h' & Hh' & Ht)
    Hh Hmax.
  rewrite Hh in Hh'. injection Hh' as <-.
  unfold fireTimer. rewrite Ht. cbn [find handle]. rewrite Nat.eqb_refl.
  cbn [task].
  rewrite (clearTimer_owned h) by (constructor; [done|constructor]).
  unfold reconnectCallback. cbv zeta. fields. rewrite Ha.
  destruct (Z.ltb_spec (maxReconnectAttempts c) (a + 1)) as [?|_]; [lia|].
  unfold logged. fields. rewrite Hinfo.
  unfold connect. fields. rewrite Hws. cbv zeta. fields. cbv iota.
  by rewrite Hauto, Hhb, Hh.
Qed.

(** The client after the open event of a socket, when no heartbeat was
    running. *)
Lemma onOpen_idle k c :
  heartbeatIntervalId c = None →
  onOpen k c
  = {| autoConnect := autoConnect c;
       heartbeatInterval := heartbeatInterval c;
       controllerInfo := controllerInfo c;
       ws := ws c;
       heartbeatIntervalId := Some (nextHandle c);
       reconnectTimeoutId := reconnectTimeoutId c;
       reconnectAttempts := 0;
       maxReconnectAttempts := maxReconnectAttempts c;
       status := CONNECTED;
       timers := timers c ++ [ {| handle := nextHandle c;
                                  task := HeartbeatTask;
                                  delay := heartbeatInterval c |} ];
       nextHandle := S (nextHandle c);
       sockets := settle k (sockets c);
       log := log c ++ [Connected] |}.
Proof.
  intros Hhb. unfold onOpen, startHeartbeat, logged. cbv zeta. fields.
  by rewrite Hhb.
Qed.

(** X23.  When a reconnect attempt succeeds the client starts over: it is
    connected, its attempt counter is 0 again, its only pending timer is
    the heartbeat interval, and the next loss of the session, however it
    shows, makes it wait 1000 ms before it reconnects, as after the first
    loss. *)
Theorem reconnect_success_resets_backoff (c : ControlClient) (a : Z)
    (h : nat) (how : Loss) :
  waiting c a →
  reconnectTimeoutId c = Some h →
  a + 1 ≤ maxReconnectAttempts c →
  let k := length (sockets c) in
  let c1 := fireTimer h false c in
  let c2 := onOpen k c1 in
  (ws c1 = Some k ∧ status c1 = CONNECTING ∧ reconnectAttempts c1 = a + 1)
  ∧ (ws c2 = Some k ∧ status c2 = CONNECTED ∧ reconnectAttempts c2 = 0)
  ∧ (∃ hb, heartbeatIntervalId c2 = Some hb
           ∧ timers c2 = [ {| handle := hb; task := HeartbeatTask;
                              delay := heartbeatInterval c |} ])
  ∧ waiting (sessionLost how k c2) 0
  ∧ ∃ h', timers (sessionLost how k c2)
          = [ {| handle := h'; task := ReconnectTask; delay := 1000 |} ].
Proof.
  intros Hw Hh Hmax k c1 c2.
  pose proof (fireTimer_connecting c a h Hw Hh Hmax) as Hc1. fold c1 in Hc1.
  destruct Hw as (Hauto & Hinfo & Hws & Hst & Hhb & Ha & Hs & _).
  assert (tracked c2 ∧ autoConnect c2 = true ∧ is_Some (controllerInfo c2)
          ∧ reconnectAttempts c2 = 0 ∧ ws c2 = Some k ∧ status c2 = CONNECTED
          ∧ heartbeatIntervalId c2 = Some (nextHandle c)
          ∧ timers c2 = [ {| handle := nextHandle c; task := HeartbeatTask;
                             delay := heartbeatInterval c |} ])
    as (Htr & Hauto2 & Hinfo2 & Ha2 & Hws2 & Hst2 & Hhb2 & Ht2).
  { assert (heartbeatIntervalId c1 = None) as Hhb1 by (by rewrite Hc1).
    assert (timers c1 = []) as Ht1 by (by rewrite Hc1).
    assert (autoConnect c1 = true) as Hauto1 by (by rewrite Hc1).
    assert (controllerInfo c1 = controllerInfo c) as Hinfo1
      by (by rewrite Hc1).
    assert (ws c1 = Some k) as Hws1 by (by rewrite Hc1).
    assert (nextHandle c1 = nextHandle c) as Hnext1 by (by rewrite Hc1).
    assert (heartbeatInterval c1 = heartbeatInterval c) as Hhi1
      by (by rewrite Hc1).
    assert (sock <$> sockets c1 = seq 0 (length (sockets c1))) as Hs1.
    { rewrite Hc1. fields. by apply numbered_snoc. }
    subst c2. clearbody c1. rewrite (onOpen_idle k c1 Hhb1).
    unfold tracked. fields.
    rewrite Ht1, Hauto1, Hinfo1, Hws1, Hnext1, Hhi1. cbn [app].
    split; [split|done].
    - constructor; [by left|constructor].
    - by apply settle_numbered. }
  split; [by rewrite Hc1|]. split; [done|].
  split; [by exists (nextHandle c)|].
  assert (waiting (sessionLost how k c2) 0) as Hw0.
  { rewrite <-Ha2. destruct how; cbn [sessionLost].
    - by destruct (onClose_waiting k c2 Htr Hauto2 Hinfo2) as (? & _).
    - by destruct (onError_waiting k c2 Htr Hauto2 Hinfo2) as (? & _).
    - destruct (onError_waiting k c2 Htr Hauto2 Hinfo2) as (Hw & _).
      destruct (onClose_waiting k (onError k c2) (waiting_tracked _ _ Hw))
        as (Hw' & _); [apply Hw .. |].
      replace (reconnectAttempts (onError k c2)) with (reconnectAttempts c2)
        in Hw' by (symmetry; apply Hw).
      done. }
  split; [exact Hw0|].
  destruct Hw0 as (_ & _ & _ & _ & _ & _ & _ & h' & _ & Ht). by exists h'.
Qed.

Lemma reconnect_success_resets_backoff_witness :
  status (onOpen 2 (fireTimer 4 false (failedCycle (onClose 0 Sample.connected))))
  = CONNECTED
  ∧ ∃ h', timers
            (onClose 2
               (onOpen 2
                  (fireTimer 4 false (failedCycle (onClose 0 Sample.connected)))))
          = [ {| handle := h'; task := ReconnectTask; delay := 1000 |} ].
Proof.
  destruct (reconnect_success_resets_backoff
              (failedCycle (onClose 0 Sample.connected)) 1 4 ByClose)
    as (_ & (_ & Hst & _) & _ & _ & Hnext).
  - vm_compute. repeat split; eauto.
  - reflexivity.
  - vm_compute. discriminate.
  - split; [exact Hst | exact Hnext].
Defined.

(** The client right after the reconnect timer fired within the budget
    and [new WebSocket] threw. *)
Lemma fireTimer_throwing c a h :
  waiting c a → reconnectTimeoutId c = Some h →
  a + 1 ≤ maxReconnectAttempts c →
  fireTimer h true c
  = scheduleReconnect
      (logged ReconnectFailed
         (handleDisconnection
            (logged ErrorConnecting
               {| autoConnect := true;
                  heartbeatInterval := heartbeatInterval c;
                  controllerInfo := controllerInfo c;
                  ws := None;
                  heartbeatIntervalId := None;
                  reconnectTimeoutId := Some h;
                  reconnectAttempts := a + 1;
                  maxReconnectAttempts := maxReconnectAttempts c;
                  status := CONNECTING;
                  timers := [];
                  nextHandle := nextHandle c;
                  sockets := sockets c;
                  log := (log c ++ [ReconnectAttempt (a + 1)])
                         ++ [Connecting] |}))).
Proof.
  intros (Hauto & [[ipAddr port] Hinfo] & Hws & Hst & Hhb & Ha & Hs & h' & Hh' & Ht)
    Hh Hmax.
  rewrite Hh in Hh'. injection Hh' as <-.
  unfold fireTimer. rewrite Ht. cbn [find handle]. rewrite Nat.eqb_refl.
  cbn [task].
  rewrite (clearTimer_owned h) by (constructor; [done|constructor]).
  unfold reconnectCallback. cbv zeta. fields. rewrite Ha.
  destruct (Z.ltb_spec (maxReconnectAttempts c) (a + 1)) as [?|_]; [lia|].
  unfold logged at 1. fields. rewrite Hinfo.
  unfold connect. fields. rewrite Hws. cbv zeta. fields. cbv iota.
  unfold onRejected. by rewrite Hauto, Hhb, Hh.
Qed.

(** X24.  A reconnect attempt whose socket cannot even be constructed counts
    as a failed attempt: although the failure schedules the next attempt
    twice (once when the connection is torn down, once when the promise
    of connect is rejected), one reconnect timer is pending afterwards,
    set to the backoff of the attempts made so far, and no socket was
    added. *)
Theorem failed_construction_retries (c : ControlClient) (a : Z) (h : nat) :
  waiting c a →
  reconnectTimeoutId c = Some h →
  a + 1 ≤ maxReconnectAttempts c →
  let c' := fireTimer h true c in
  waiting c' (a + 1)
  ∧ sockets c' = sockets c
  ∧ maxReconnectAttempts c' = maxReconnectAttempts c
  ∧ log c'
    = log c
      ++ [ReconnectAttempt (a + 1); Connecting; ErrorConnecting;
          SchedulingReconnect (backoffTime (a + 1)); ReconnectFailed;
          SchedulingReconnect (backoffTime (a + 1))].
Proof.
  intros Hw Hh Hmax c'.
  pose proof (fireTimer_throwing c a h Hw Hh Hmax) as Hc'. fold c' in Hc'.
  destruct Hw as (Hauto & Hinfo & Hws & Hst & Hhb & Ha & Hs & _).
  set (torn := logged ErrorConnecting _) in Hc'.
  assert (tracked torn) as Htr by (split; [constructor | exact Hs]).
  destruct (handleDisconnection_waiting torn Htr eq_refl Hinfo)
    as (Hw1 & Hm1 & Hs1 & Hl1).
  change (reconnectAttempts torn) with (a + 1) in Hw1, Hl1.
  destruct (scheduleReconnect_waiting
              (logged ReconnectFailed (handleDisconnection torn)) (a + 1)
              (logged_waiting _ _ _ Hw1)) as (Hw2 & Hm2 & Hs2 & Hl2).
  rewrite <-Hc' in Hw2, Hm2, Hs2, Hl2. clearbody c'.
  split; [exact Hw2|]. split; [rewrite Hs2; exact Hs1|].
  split; [rewrite Hm2; exact Hm1|].
  rewrite Hl2. change (log (logged ReconnectFailed (handleDisconnection torn)))
    with (log (handleDisconnection torn) ++ [ReconnectFailed]).
  rewrite Hl1. subst torn. unfold logged. fields.
  by rewrite <-!app_assoc.
Qed.

Lemma failed_construction_retries_witness :
  ∃ h', timers (fireTimer 4 true (failedCycle (onClose 0 Sample.connected)))
        = [ {| handle := h'; task := ReconnectTask; delay := 4000 |} ].
Proof.
  destruct (failed_construction_retries
              (failedCycle (onClose 0 Sample.connected)) 1 4)
    as ((_ & _ & _ & _ & _ & _ & _ & h' & _ & Ht) & _).
  - vm_compute. repeat split; eauto.
  - reflexivity.
  - vm_compute. discriminate.
  - exists h'. exact Ht.
Defined.

Lemma clear_both_rev hb rt ts :
  Forall (λ t, hb = Some (handle t) ∨ rt = Some (handle t)) ts →
  match hb with
  | Some h => clearTimer h
  | None => λ ts, ts
  end (match rt with
       | Some h => clearTimer h ts
       | None => ts
       end) = [].
Proof.
  unfold clearTimer. induction 1 as [|t ts Ht _ IH]; [by destruct hb, rt|].
  destruct hb as [h1|], rt as [h2|]; simpl in *;
    rewrite ?filter_cons;
    repeat (match goal with |- context [decide ?P] => destruct (decide P) end;
            rewrite ?filter_cons);
    try exact IH; destruct Ht as [Ht|Ht]; congruence.
Qed.

(** The client after [disconnect()], when [ws.close()] does not throw. *)
Lemma disconnect_idle c :
  Forall (λ t, heartbeatIntervalId c = Some (handle t)
               ∨ reconnectTimeoutId c = Some (handle t)) (timers c) →
  disconnect false c
  = {| autoConnect := autoConnect c;
       heartbeatInterval := heartbeatInterval c;
       controllerInfo := controllerInfo c;
       ws := None;
       heartbeatIntervalId := None;
       reconnectTimeoutId := None;
       reconnectAttempts := reconnectAttempts c;
       maxReconnectAttempts := maxReconnectAttempts c;
       status := DISCONNECTED;
       timers := [];
       nextHandle := nextHandle c;
       sockets := sockets c;
       log := log c ++ [Disconnected] |}.
Proof.
  intros Htimers.
  pose proof (clear_both_rev _ _ _ Htimers) as Hclear.
  unfold disconnect, stopHeartbeat, logged. cbv zeta.
  destruct (reconnectTimeoutId c) as [h2|] eqn:Hrt; fields;
    destruct (heartbeatIntervalId c) as [h1|] eqn:Hhb; fields;
    cbn beta iota in Hclear; rewrite ?Hclear, ?Hrt, ?Hhb;
    by destruct (ws c).
Qed.

Lemma handleDisconnection_manual c :
  autoConnect c = false → heartbeatIntervalId c = None →
  timers (handleDisconnection c) = timers c
  ∧ ws (handleDisconnection c) = None
  ∧ status (handleDisconnection c) = DISCONNECTED.
Proof.
  intros Hauto Hhb. unfold handleDisconnection, stopHeartbeat.
  rewrite Hhb. cbv zeta. fields. by rewrite Hauto.
Qed.

(** X25.  disconnect() does not end the automatic reconnection.  It clears
    both timers and leaves the client disconnected, without a socket;
    but when the close event of the socket it closed arrives, a client
    that connects automatically schedules a reconnect as after any other
    loss, with the backoff of its attempt counter, and the attempt opens
    a new socket when the timer fires.  Only a client that does not
    connect automatically stays idle. *)
Theorem disconnect_does_not_stop_reconnecting (c : ControlClient) (k : nat) :
  tracked c →
  is_Some (controllerInfo c) →
  let c1 := disconnect false c in
  let c2 := onClose k c1 in
  (timers c1 = [] ∧ ws c1 = None ∧ status c1 = DISCONNECTED)
  ∧ (autoConnect c = true →
     waiting c2 (reconnectAttempts c)
     ∧ (reconnectAttempts c + 1 ≤ maxReconnectAttempts c →
        ∃ h, reconnectTimeoutId c2 = Some h
             ∧ is_Some (ws (fireTimer h false c2))))
  ∧ (autoConnect c = false →
     timers c2 = [] ∧ ws c2 = None ∧ status c2 = DISCONNECTED).
Proof.
  intros Htr Hinfo c1 c2.
  pose proof (disconnect_idle c (proj1 Htr)) as Hc1. fold c1 in Hc1.
  assert (timers c1 = []) as Ht1 by (by rewrite Hc1).
  assert (heartbeatIntervalId c1 = None) as Hhb1 by (by rewrite Hc1).
  assert (autoConnect c1 = autoConnect c) as Hauto1 by (by rewrite Hc1).
  assert (controllerInfo c1 = controllerInfo c) as Hinfo1 by (by rewrite Hc1).
  assert (reconnectAttempts c1 = reconnectAttempts c) as Ha1
    by (by rewrite Hc1).
  assert (maxReconnectAttempts c1 = maxReconnectAttempts c) as Hm1
    by (by rewrite Hc1).
  assert (sockets c1 = sockets c) as Hs1 by (by rewrite Hc1).
  split; [by rewrite Hc1|].
  assert (tracked c1) as Htr1.
  { split; [rewrite Ht1; constructor|]. rewrite Hs1. apply Htr. }
  clearbody c1. split.
  - intros Hauto.
    destruct (onClose_waiting k c1 Htr1) as (Hw & Hm & _);
      [congruence | by rewrite Hinfo1 |].
    fold c2 in Hw, Hm. rewrite Ha1 in Hw. split; [exact Hw|].
    intros Hbudget.
    destruct Hw as (Hauto2 & Hinfo2 & Hws2 & Hst2 & Hhb2 & Ha2 & Hs2 & h & Hh & Ht2).
    exists h. split; [exact Hh|].
    rewrite (fireTimer_connecting c2 (reconnectAttempts c) h);
      [by eexists | | exact Hh | lia].
    repeat split; try done. by exists h.
  - intros Hauto. subst c2. unfold onClose. cbv zeta.
    destruct (handleDisconnection_manual (logged Disconnected c1))
      as (Ht & Hws & Hst);
      [change (autoConnect c1 = false); congruence | exact Hhb1 |].
    unfold withSockets. fields. rewrite Ht, Hws, Hst. by split.
Qed.

Lemma disconnect_does_not_stop_reconnecting_witness :
  ∃ h, timers (onClose 0 (disconnect false Sample.connected))
       = [ {| handle := h; task := ReconnectTask; delay := 1000 |} ].
Proof.
  destruct (disconnect_does_not_stop_reconnecting Sample.connected 0)
    as (_ & Hauto & _).
  - split; [|reflexivity]. vm_compute. repeat constructor.
  - vm_compute. eauto.
  - destruct (Hauto eq_refl)
      as ((_ & _ & _ & _ & _ & _ & _ & h & _ & Ht) & _).
    exists h. exact Ht.
Defined.

(** *** No timer is ever lost *)

Lemma ownedBy_clear hb rt n ts h :
  ClientShape.ownedBy hb rt n ts →
  ClientShape.ownedBy hb rt n (clearTimer h ts).
Proof.
  intros (Hheld & Hnodup & Hfresh). unfold clearTimer.
  split; [|split].
  - intros t Ht. apply list_elem_of_filter in Ht as [_ Ht]. by apply Hheld.
  - eapply sublist_NoDup; [exact Hnodup|].
    apply fmap_sublist, sublist_filter.
  - intros t Ht. apply list_elem_of_filter in Ht as [_ Ht]. by apply Hfresh.
Qed.

Lemma ownedBy_drop_heartbeat hb hb' rt n ts :
  ClientShape.ownedBy hb rt n ts →
  ClientShape.ownedBy hb' rt n (ClientShape.cleared hb ts)
  ∧ ∀ t, t ∈ ClientShape.cleared hb ts → task t = ReconnectTask.
Proof.
  intros Howned.
  assert (∀ t, t ∈ ClientShape.cleared hb ts →
            task t = ReconnectTask ∧ rt = Some (handle t)) as Hrest.
  { destruct Howned as (Hheld & _). intros t Ht.
    destruct hb as [h|]; cbn [ClientShape.cleared] in Ht.
    - apply list_elem_of_filter in Ht as [Hne Ht].
      destruct (Hheld t Ht) as [[_ [= ->]]|?]; done.
    - destruct (Hheld t Ht) as [[_ [=]]|?]; done. }
  assert (ClientShape.ownedBy hb rt n (ClientShape.cleared hb ts))
    as (_ & Hnodup & Hfresh).
  { destruct hb; [by apply ownedBy_clear | done]. }
  split; [|by intros t Ht; apply Hrest].
  split; [|by split]. intros t Ht. right. by apply Hrest.
Qed.

Lemma ownedBy_drop_reconnect hb rt rt' n ts :
  ClientShape.ownedBy hb rt n ts →
  ClientShape.ownedBy hb rt' n (ClientShape.cleared rt ts)
  ∧ ∀ t, t ∈ ClientShape.cleared rt ts → task t = HeartbeatTask.
Proof.
  intros Howned.
  assert (∀ t, t ∈ ClientShape.cleared rt ts →
            task t = HeartbeatTask ∧ hb = Some (handle t)) as Hrest.
  { destruct Howned as (Hheld & _). intros t Ht.
    destruct rt as [h|]; cbn [ClientShape.cleared] in Ht.
    - apply list_elem_of_filter in Ht as [Hne Ht].
      destruct (Hheld t Ht) as [?|[_ [= ->]]]; done.
    - destruct (Hheld t Ht) as [?|[_ [=]]]; done. }
  assert (ClientShape.ownedBy hb rt n (ClientShape.cleared rt ts))
    as (_ & Hnodup & Hfresh).
  { destruct rt; [by apply ownedBy_clear | done]. }
  split; [|by intros t Ht; apply Hrest].
  split; [|by split]. intros t Ht. left. by apply Hrest.
Qed.

Lemma ownedBy_snoc hb rt n ts kind d :
  ClientShape.ownedBy hb rt n ts →
  (kind = HeartbeatTask ∧ hb = Some n ∨ kind = ReconnectTask ∧ rt = Some n) →
  ClientShape.ownedBy hb rt (S n)
    (ts ++ [ {| handle := n; task := kind; delay := d |} ]).
Proof.
  intros (Hheld & Hnodup & Hfresh) Hkind. split; [|split].
  - intros t Ht. apply elem_of_app in Ht as [Ht|Ht]; [by apply Hheld|].
    apply list_elem_of_singleton in Ht as ->. exact Hkind.
  - rewrite fmap_app. apply NoDup_app. split; [done|]. split.
    + intros x Hx Hn. apply list_elem_of_singleton in Hn as ->.
      apply list_elem_of_fmap in Hx as (t & Ht & Hin).
      specialize (Hfresh t Hin). cbn in Ht. lia.
    + apply NoDup_singleton.
  - intros t Ht. apply elem_of_app in Ht as [Ht|Ht].
    + specialize (Hfresh t Ht). lia.
    + apply list_elem_of_singleton in Ht as ->. cbn. lia.
Qed.

Lemma owned_stopHeartbeat c :
  ClientShape.owned c → ClientShape.owned (stopHeartbeat c).
Proof.
  intros Howned. unfold stopHeartbeat.
  destruct (heartbeatIntervalId c) as [h|] eqn:Hhb; [|done].
  unfold ClientShape.owned in *. fields. rewrite Hhb in Howned.
  by destruct (ownedBy_drop_heartbeat _ None _ _ _ Howned).
Qed.

Lemma owned_startHeartbeat c :
  ClientShape.owned c → ClientShape.owned (startHeartbeat c).
Proof.
  intros Howned. unfold startHeartbeat, ClientShape.owned in *. cbv zeta.
  fields. fold (ClientShape.cleared (heartbeatIntervalId c) (timers c)).
  destruct (ownedBy_drop_heartbeat _ (Some (nextHandle c)) _ _ _ Howned)
    as [Hrest _].
  apply ownedBy_snoc; [exact Hrest | by left].
Qed.

Lemma owned_scheduleReconnect c :
  ClientShape.owned c → ClientShape.owned (scheduleReconnect c).
Proof.
  intros Howned. unfold scheduleReconnect, ClientShape.owned in *. cbv zeta.
  fields. fold (ClientShape.cleared (reconnectTimeoutId c) (timers c)).
  destruct (ownedBy_drop_reconnect _ _ (Some (nextHandle c)) _ _ Howned)
    as [Hrest _].
  apply ownedBy_snoc; [exact Hrest | by right].
Qed.

Lemma owned_handleDisconnection c :
  ClientShape.owned c → ClientShape.owned (handleDisconnection c).
Proof.
  intros Howned. apply owned_stopHeartbeat in Howned.
  unfold handleDisconnection. cbv zeta. fields.
  destruct (autoConnect (stopHeartbeat c)
            && bool_decide (is_Some (controllerInfo (stopHeartbeat c))));
    [apply owned_scheduleReconnect|]; exact Howned.
Qed.

Lemma owned_onRejected who c :
  ClientShape.owned c → ClientShape.owned (onRejected who c).
Proof.
  intros Howned. destruct who; cbn [onRejected]; [|exact Howned].
  apply owned_scheduleReconnect. exact Howned.
Qed.

Lemma owned_connect who throws ipAddr port c :
  ClientShape.owned c → ClientShape.owned (connect who throws ipAddr port c).
Proof.
  intros Howned. unfold connect.
  destruct (ws c); [exact Howned|]. cbv zeta.
  destruct throws; [|exact Howned].
  apply owned_onRejected, owned_handleDisconnection. exact Howned.
Qed.

Lemma owned_reconnectCallback throws c :
  ClientShape.owned c → ClientShape.owned (reconnectCallback throws c).
Proof.
  intros Howned. unfold reconnectCallback. cbv zeta. fields.
  destruct (Z.ltb _ _); [exact Howned|].
  unfold logged at 1. fields.
  destruct (controllerInfo c) as [[ipAddr port]|]; [|exact Howned].
  apply owned_connect. exact Howned.
Qed.

Lemma owned_fireTimer h throws c :
  ClientShape.owned c → ClientShape.owned (fireTimer h throws c).
Proof.
  intros Howned. unfold fireTimer.
  destruct (find _ _) as [t|]; [|exact Howned].
  destruct (task t); [|exact Howned].
  apply owned_reconnectCallback.
  unfold ClientShape.owned in *. fields. by apply ownedBy_clear.
Qed.

Lemma owned_onOpen k c :
  ClientShape.owned c → ClientShape.owned (onOpen k c).
Proof.
  intros Howned. unfold onOpen. cbv zeta. unfold ClientShape.owned. fields.
  match goal with
  | |- context [startHeartbeat ?inner] =>
      apply (owned_startHeartbeat inner)
  end.
  exact Howned.
Qed.

Lemma owned_onClose k c :
  ClientShape.owned c → ClientShape.owned (onClose k c).
Proof.
  intros Howned. unfold onClose. cbv zeta.
  apply (owned_handleDisconnection (logged Disconnected c)) in Howned.
  exact Howned.
Qed.

Lemma owned_onError k c :
  ClientShape.owned c → ClientShape.owned (onError k c).
Proof.
  intros Howned. unfold onError. cbv zeta.
  apply (owned_handleDisconnection (logged WebSocketError c)) in Howned.
  destruct (find _ _) as [s|]; [|exact Howned].
  destruct (settled s); [exact Howned|].
  apply owned_onRejected. exact Howned.
Qed.

Lemma owned_disconnect closeThrows c :
  ClientShape.owned c → ClientShape.owned (disconnect closeThrows c).
Proof.
  intros Howned. unfold disconnect. cbv zeta.
  set (c1 := match reconnectTimeoutId c with Some _ => _ | None => _ end).
  assert (ClientShape.owned c1) as Howned1.
  { subst c1. destruct (reconnectTimeoutId c) as [h|] eqn:Hrt; [|done].
    unfold ClientShape.owned in *. fields. rewrite Hrt in Howned.
    by destruct (ownedBy_drop_reconnect _ _ None _ _ Howned). }
  clearbody c1. apply owned_stopHeartbeat in Howned1.
  exact Howned1.
Qed.

Lemma owned_run c events :
  ClientShape.owned c → ClientShape.owned (ClientShape.run c events).
Proof.
  unfold ClientShape.run. revert c.
  induction events as [|e events IH]; intros c Howned; [done|].
  cbn [foldl]. apply IH.
  destruct e; cbn [ClientShape.step];
    eauto using owned_fireTimer, owned_onOpen, owned_onClose, owned_onError,
      owned_connect, owned_disconnect.
Qed.

Lemma owned_pending kind c :
  ClientShape.owned c → (length (ClientShape.pending kind c) ≤ 1)%nat.
Proof.
  intros (Hheld & Hnodup & _). unfold ClientShape.pending.
  assert (NoDup (handle <$> filter (λ t, task t = kind) (timers c))) as Hnd.
  { eapply sublist_NoDup; [exact Hnodup|].
    apply fmap_sublist, sublist_filter. }
  destruct (filter (λ t, task t = kind) (timers c)) as [|t1 [|t2 rest]] eqn:Hf;
    [cbn; lia | cbn; lia |].
  assert (t1 ∈ filter (λ t, task t = kind) (timers c)) as H1
    by (rewrite Hf; apply list_elem_of_here).
  assert (t2 ∈ filter (λ t, task t = kind) (timers c)) as H2
    by (rewrite Hf; apply list_elem_of_further, list_elem_of_here).
  apply list_elem_of_filter in H1 as [Hk1 H1], H2 as [Hk2 H2].
  assert (handle t1 = handle t2) as Heq.
  { destruct (Hheld t1 H1) as [[Ht1 Hh1]|[Ht1 Hh1]],
      (Hheld t2 H2) as [[Ht2 Hh2]|[Ht2 Hh2]]; congruence. }
  csimpl in Hnd. rewrite Heq in Hnd.
  apply NoDup_cons in Hnd as [Hnotin _].
  exfalso. apply Hnotin, list_elem_of_here.
Qed.

(** X26.  The client never loses track of a timer.  Whatever the event loop
    and the application do to a client once it is constructed (timers
    fire, sockets open, close or fail, connect and disconnect are
    called, in any order and any number of times), at most one reconnect
    timeout and at most one heartbeat interval are pending, each is the
    one whose handle the client holds, and so [clearTimeout] and
    [clearInterval] can always reach every pending timer. *)
Theorem client_never_leaks_timers (autoConnect : bool) (controllerIp : string)
    (controllerPort : Z) (events : list ClientShape.Event) :
  let c :=
    ClientShape.run (initial autoConnect controllerIp controllerPort) events in
  (length (ClientShape.pending ReconnectTask c) ≤ 1)%nat
  ∧ (length (ClientShape.pending HeartbeatTask c) ≤ 1)%nat
  ∧ (∀ t, t ∈ ClientShape.pending ReconnectTask c →
          reconnectTimeoutId c = Some (handle t))
  ∧ (∀ t, t ∈ ClientShape.pending HeartbeatTask c →
          heartbeatIntervalId c = Some (handle t))
  ∧ timers (disconnect false c) = [].
Proof.
  intros c.
  assert (ClientShape.owned c) as Howned.
  { apply owned_run. split; [|split].
    - intros t Ht. by apply elem_of_nil in Ht.
    - constructor.
    - intros t Ht. by apply elem_of_nil in Ht. }
  clearbody c.
  split; [by apply owned_pending|]. split; [by apply owned_pending|].
  assert (∀ kind t, t ∈ ClientShape.pending kind c →
            task t = kind
            ∧ ((task t = HeartbeatTask ∧ heartbeatIntervalId c = Some (handle t))
               ∨ (task t = ReconnectTask
                  ∧ reconnectTimeoutId c = Some (handle t)))) as Hheld.
  { intros kind t Ht. apply list_elem_of_filter in Ht as [Hk Ht].
    split; [done|]. by apply Howned. }
  split; [|split].
  - intros t Ht. destruct (Hheld _ _ Ht) as [Hk [[? ?]|[_ ?]]]; congruence.
  - intros t Ht. destruct (Hheld _ _ Ht) as [Hk [[_ ?]|[? ?]]]; congruence.
  - rewrite (disconnect_idle c); [done|].
    apply Forall_forall. intros t Ht.
    destruct Howned as (Hh & _).
    destruct (Hh t Ht) as [[_ ?]|[_ ?]]; [by left | by right].
Qed.

End ClientSessions.

(** ** Tokens *)

Section Tokens.

Import TokenSpec.

Lemma hexDigit_hex (n : N) : hexDigit n ∈ hexDigits.
Proof.
  assert (∀ m, (m < 16)%N → hexDigit m ∈ hexDigits) as Hsmall.
  { intros m Hm.
    destruct m as [|p]; [apply list_elem_of_here|].
    do 4 (try destruct p as [p|p|]); try lia;
      cbn; repeat first [apply list_elem_of_here | apply list_elem_of_further]. }
  destruct (N.lt_ge_cases n 16) as [Hlt|Hge]; [by apply Hsmall|].
  replace (hexDigit n) with (hexDigit 15); [by apply Hsmall|].
  destruct n as [|p]; [lia|].
  do 4 (try destruct p as [p|p|]); try lia; try reflexivity;
    destruct p; reflexivity.
Qed.

Lemma hexValue_hexDigit (n : N) : (n < 16)%N → hexValue (hexDigit n) = n.
Proof.
  intros Hn. destruct n as [|p]; [reflexivity|].
  do 4 (try destruct p as [p|p|]); try lia; reflexivity.
Qed.

Lemma toHex_inj (bs bs' : list byte) : toHex bs = toHex bs' → bs = bs'.
Proof.
  revert bs'. induction bs as [|b bs IH]; intros [|b' bs']; cbn [toHex];
    try discriminate; [done|].
  intros [= Hhi Hlo Hrest]. f_equal; [|by apply IH].
  pose proof (Byte.to_N_bounded b) as Hb.
  pose proof (Byte.to_N_bounded b') as Hb'.
  apply (f_equal hexValue) in Hhi, Hlo.
  rewrite !hexValue_hexDigit in Hhi, Hlo
    by (try apply N.mod_lt; try apply N.Div0.div_lt_upper_bound; lia).
  assert (Byte.to_N b = Byte.to_N b') as Heq.
  { rewrite (N.div_mod (Byte.to_N b) 16), (N.div_mod (Byte.to_N b') 16) by lia.
    by rewrite Hhi, Hlo. }
  pose proof (Byte.of_to_N b) as H1. pose proof (Byte.of_to_N b') as H2.
  rewrite Heq in H1. congruence.
Qed.

Lemma toHex_hex (bs : list byte) (ch : ascii) :
  ch ∈ String.list_ascii_of_string (toHex bs) → ch ∈ hexDigits.
Proof.
  induction bs as [|b bs IH]; cbn [toHex String.list_ascii_of_string].
  - intros H. by apply elem_of_nil in H.
  - intros H. apply elem_of_cons in H as [->|H]; [apply hexDigit_hex|].
    apply elem_of_cons in H as [->|H]; [apply hexDigit_hex|]. by apply IH.
Qed.

(** X27.  A token is 64 lower-case hexadecimal digits that spell the 32 random
    bytes it was made of: two tokens are equal only when the generator
    handed out the same 32 bytes, so the encoding loses none of the
    randomness. *)
Theorem generateToken_spells_its_entropy (ent ent' : Entropy) :
  String.length (generateToken ent) = 64%nat
  ∧ (∀ ch, ch ∈ String.list_ascii_of_string (generateToken ent) → ch ∈ hexDigits)
  ∧ (generateToken ent = generateToken ent'
     ↔ ∀ i, (i < 32)%nat → ent i = ent' i).
Proof.
  split; [apply generateToken_length|]. split; [apply toHex_hex|].
  unfold generateToken, randomBytes, DEFAULT_AUTH_TOKEN_LENGTH. split.
  - intros Heq%toHex_inj i Hi.
    assert (map ent (seq 0 32) !! i = map ent' (seq 0 32) !! i) as Hi'
      by (by rewrite Heq).
    rewrite !list_lookup_fmap, !lookup_seq_lt in Hi' by lia.
    by injection Hi'.
  - intros Hall. f_equal. apply map_ext_in. intros i Hi%in_seq.
    apply Hall. lia.
Qed.

End Tokens.

(** ** Device registry: removing a device *)

Section RegistryRemoval.

Import Registry.

(** X28.  Removing a device forgets it altogether.  The device can no longer
    be found by id or address nor be paired, every other record stays as
    it was, and when the same device registers again it starts from
    scratch: unpaired, disconnected, without auth token, first seen at
    that moment, and with a new pairing token. *)
Theorem remove_then_register (now tPair : Z) (ent ent' : Entropy)
    (r : DeviceRegistry) (deviceId token : string) (d : RegisteredDevice) :
  devices r !! deviceId = Some d →
  id (deviceInfo d) = deviceId →
  let r1 := (removeDevice r deviceId).1 in
  (removeDevice r deviceId).2 = true
  ∧ getDeviceById r1 deviceId = None
  ∧ (ip (deviceInfo d) ≠ "" → getDeviceByIp r1 (ip (deviceInfo d)) = None)
  ∧ (∀ other, other ≠ deviceId →
       getDeviceById r1 other = getDeviceById r other)
  ∧ (pairDevice tPair ent' r1 deviceId token).2 = failure "Device not found"
  ∧ (removeDevice r1 deviceId).2 = false
  ∧ (registerDevice now ent r1 (deviceInfo d) true).2
    = {| deviceInfo := deviceInfo d;
         status := DISCONNECTED;
         lastSeen := now;
         firstSeen := now;
         connectionId := None;
         authToken := None;
         paired := false;
         pairingToken := Some (generateToken ent);
         pairingExpiration := Some (now + 5 * 60 * 1000) |}.
Proof.
  intros Hd Hid r1.
  assert (r1 = {| devices := delete deviceId (devices r);
                  ipToIdMap :=
                    index_delete (Some (ip (deviceInfo d))) (ipToIdMap r);
                  macToIdMap :=
                    index_delete (mac (deviceInfo d)) (macToIdMap r) |}) as Hr1.
  { subst r1. unfold removeDevice. by rewrite Hd. }
  assert (devices r1 !! deviceId = None) as Hgone.
  { rewrite Hr1. cbn [devices]. apply lookup_delete_eq. }
  split; [unfold removeDevice; by rewrite Hd|].
  split; [unfold getDeviceById; by rewrite Hgone|].
  split.
  { intros Hip. rewrite Hr1. unfold getDeviceByIp. cbn [ipToIdMap index_delete].
    apply truthy_str_true in Hip. rewrite Hip. by rewrite lookup_delete_eq. }
  split.
  { intros other Hother. unfold getDeviceById. rewrite Hr1. cbn [devices].
    by rewrite lookup_delete_ne. }
  split; [unfold pairDevice; by rewrite Hgone|].
  split; [unfold removeDevice; by rewrite Hgone|].
  assert (lookupExistingId r1 (deviceInfo d) = None) as Hnone.
  { rewrite Hr1. unfold lookupExistingId. cbn [ipToIdMap macToIdMap].
    assert (Js.truthy_str (ip (deviceInfo d))
            && bool_decide
                 (is_Some
                    (index_delete (Some (ip (deviceInfo d))) (ipToIdMap r)
                     !! ip (deviceInfo d))) = false) as ->.
    { cbn [index_delete].
      destruct (Js.truthy_str (ip (deviceInfo d))); [|done]. cbn [andb].
      rewrite lookup_delete_eq. by apply bool_decide_eq_false_2; intros [? ?]. }
    destruct (mac (deviceInfo d)) as [m|]; [|done]. cbn [index_delete].
    destruct (Js.truthy_str m); [|done]. cbn [andb].
    rewrite lookup_delete_eq.
    by rewrite bool_decide_eq_false_2 by (by intros [? ?]). }
  unfold registerDevice, lookupExisting. rewrite Hid, Hgone, Hnone. done.
Qed.

Lemma remove_then_register_witness :
  (pairDevice 5000 Sample.ones
     (removeDevice (History.run Sample.pairing) "t1").1 "t1" "abc").2
  = failure "Device not found"
  ∧ paired
      (registerDevice 6000 Sample.zeros
         (removeDevice (History.run Sample.pairing) "t1").1 Sample.t1 true).2
    = false.
Proof.
  destruct (remove_then_register 6000 5000 Sample.zeros Sample.ones
              (History.run Sample.pairing) "t1" "abc" Sample.paired_t1)
    as (_ & _ & _ & _ & Hpair & _ & Hfresh).
  - reflexivity.
  - reflexivity.
  - split; [exact Hpair|]. cbv zeta in Hfresh.
    change (deviceInfo Sample.paired_t1) with Sample.t1 in Hfresh.
    by rewrite Hfresh.
Defined.

End RegistryRemoval.

(** ** Controller application *)

Section Application.

Import Server CommandSpec.

(** X29.  The application never tells why a command failed.  Its
    sendArrowCommand answers true exactly when no precondition of the
    server fails and the socket reports no error for the write, and
    false in every other case, the reason being logged only; the command
    frame is written whenever the preconditions hold, also when the
    answer is false because of the transport. *)
Theorem app_sendArrowCommand_answers (now : Z) (s : ControlServer)
    (devId : string) (dir : Direction) (repeat holdTime : option Z)
    (transportError : option string) :
  let answer :=
    App.sendArrowCommand now s devId dir repeat holdTime transportError in
  (answer.2 = true ↔ firstFailing s devId dir = None ∧ transportError = None)
  ∧ (firstFailing s devId dir ≠ None → answer.1 = s)
  ∧ (firstFailing s devId dir = None →
     ∃ connection,
       getConnectionByDeviceId s devId = Some connection
       ∧ sent answer.1
         = sent s
           ++ [(connectionId connection,
                createBaseMessage now MESSAGE_TYPES.COMMAND (controllerId s)
                  CONTROLLER
                  (CommandData (commandTypeOf dir) dir (numberOr repeat 1)
                     (numberOr holdTime 0)))]).
Proof.
  intros answer. subst answer. unfold App.sendArrowCommand.
  pose proof (sendArrowCommand_firstFailing now s devId dir repeat holdTime
                transportError) as Hsend.
  destruct (firstFailing s devId dir) as [p|].
  - rewrite Hsend. cbn [fst snd].
    split; [split; [done | by intros [? _]]|]. split; done.
  - destruct Hsend as (connection & Hfind & ->). cbn [fst snd].
    split; [|split; [done | by exists connection]].
    destruct transportError; split; try done; by intros [_ ?].
Qed.

End Application.

(** ** Network scanner *)

Section NetworkScan.

Import Scanner.

Lemma map_has_set m k v : map_has (map_set m k v) k = true.
Proof.
  unfold map_has. induction m as [|[k' v'] m IH]; cbn.
  - by rewrite String.eqb_refl.
  - destruct (String.eqb_spec k' k) as [->|Hne]; cbn.
    + by rewrite String.eqb_refl.
    + destruct (String.eqb_spec k' k); [done|exact IH].
Qed.

Lemma map_get_set m k v k' :
  map_get (map_set m k v) k' = if String.eqb k k' then Some v else map_get m k'.
Proof.
  unfold map_get. induction m as [|[k0 v0] m IH]; cbn.
  - by destruct (String.eqb k k').
  - destruct (String.eqb_spec k0 k) as [->|Hne]; cbn.
    + by destruct (String.eqb k k').
    + destruct (String.eqb_spec k0 k') as [->|Hne'].
      * by destruct (String.eqb_spec k k'); [congruence|].
      * exact IH.
Qed.

Lemma map_set_key_in m k v x :
  x ∈ (map_set m k v).*1 → x = k ∨ x ∈ m.*1.
Proof.
  induction m as [|[k0 v0] m IH]; cbn; intros Hx.
  - apply list_elem_of_singleton in Hx. by left.
  - destruct (String.eqb_spec k0 k) as [->|Hne]; cbn in Hx.
    + right. exact Hx.
    + apply elem_of_cons in Hx as [->|Hx]; [right; apply list_elem_of_here|].
      destruct (IH Hx) as [?|?]; [by left|].
      right. by apply list_elem_of_further.
Qed.

Lemma map_set_keys m k v :
  NoDup m.*1 → NoDup (map_set m k v).*1.
Proof.
  induction m as [|[k0 v0] m IH]; cbn; intros Hnd.
  - apply NoDup_singleton.
  - apply NoDup_cons in Hnd as [Hnotin Hnd].
    destruct (String.eqb_spec k0 k) as [->|Hne]; cbn.
    + by apply NoDup_cons.
    + apply NoDup_cons. split; [|by apply IH].
      intros Hin. by destruct (map_set_key_in _ _ _ _ Hin).
Qed.

Lemma map_get_delete m k0 k :
  map_get (map_delete m k0) k
  = if String.eqb k0 k then None else map_get m k.
Proof.
  unfold map_get, map_delete. induction m as [|[k1 v1] m IH].
  - by destruct (String.eqb k0 k).
  - rewrite filter_cons. cbn [fst find].
    destruct (decide (k1 ≠ k0)) as [Hne|Heq].
    + cbn [find fst]. destruct (String.eqb_spec k1 k) as [->|Hne'].
      * by destruct (String.eqb_spec k0 k); [congruence|].
      * exact IH.
    + apply dec_stable in Heq as ->. rewrite IH.
      by destruct (String.eqb_spec k0 k).
Qed.

Lemma map_get_elem_of m k d :
  NoDup m.*1 → (k, d) ∈ m → map_get m k = Some d.
Proof.
  unfold map_get. induction m as [|[k1 v1] m IH]; intros Hnd Hin.
  - by apply elem_of_nil in Hin.
  - cbn in Hnd. apply NoDup_cons in Hnd as [Hnotin Hnd].
    cbn [find fst]. apply elem_of_cons in Hin as [[= <- <-]|Hin].
    + by rewrite String.eqb_refl.
    + destruct (String.eqb_spec k1 k) as [->|Hne]; [|by apply IH].
      exfalso. apply Hnotin. apply list_elem_of_fmap. by exists (k, d).
Qed.

Lemma map_get_Some m k d :
  map_get m k = Some d → (k, d) ∈ m.
Proof.
  unfold map_get. induction m as [|[k1 v1] m IH]; [done|].
  cbn [find fst]. destruct (String.eqb_spec k1 k) as [->|Hne].
  - intros [= <-]. apply list_elem_of_here.
  - intros H. apply list_elem_of_further. by apply IH.
Qed.

(** What the first loop of scanNetwork leaves. *)
Lemma recordHosts now found m evs :
  let r := foldl (recordHost now) (m, evs) found in
  r.2 = evs
  ∧ (NoDup m.*1 → NoDup r.1.*1)
  ∧ ∀ k,
      (k ∈ host_ip <$> found →
       ∃ d, map_get r.1 k = Some d ∧ lastSeen d = now)
      ∧ (k ∉ host_ip <$> found → map_get r.1 k = map_get m k).
Proof.
  revert m evs. induction found as [|h found IH]; intros m evs; cbn [foldl];
    cbv zeta.
  - split; [done|]. split; [done|]. intros k. split; [|done].
    intros Hk. by apply elem_of_nil in Hk.
  - set (d := {| ip := host_ip h;
                 mac := Some (default "" (host_mac h));
                 name := if negb (String.eqb (default "" (host_name h)) "?")
                         then Some (default "" (host_name h)) else None;
                 lastSeen := now |}).
    assert (recordHost now (m, evs) h = (map_set m (host_ip h) d, evs))
      as ->.
    { unfold recordHost. cbv zeta. cbn [fst snd]. fold d.
      by rewrite map_has_set. }
    destruct (IH (map_set m (host_ip h) d) evs) as (IHe & IHn & IHk).
    split; [exact IHe|]. split; [intros Hnd; by apply IHn, map_set_keys|].
    intros k. destruct (IHk k) as [IHin IHout].
    destruct (decide (k ∈ host_ip <$> found)) as [Hin|Hout].
    + split; [intros _; by apply IHin|].
      intros Hk. exfalso. apply Hk. rewrite fmap_cons.
      by apply list_elem_of_further.
    + rewrite (IHout Hout), map_get_set. split.
      * rewrite fmap_cons. intros [->|?]%elem_of_cons; [|done].
        rewrite String.eqb_refl. by exists d.
      * rewrite fmap_cons. intros Hk.
        destruct (String.eqb_spec (host_ip h) k) as [<-|?]; [|done].
        exfalso. apply Hk, list_elem_of_here.
Qed.

(** What the clean-up loop of scanNetwork leaves. *)
Lemma expireEntries exp entries m evs :
  let r := foldl (expire exp) (m, evs) entries in
  let lost := filter (λ e, lastSeen e.2 < exp) entries in
  r.2 = evs ++ ((λ e, DeviceLost e.1 (mac e.2) (name e.2)) <$> lost)
  ∧ (NoDup m.*1 → NoDup r.1.*1)
  ∧ ∀ k, map_get r.1 k
         = if bool_decide (k ∈ lost.*1) then None else map_get m k.
Proof.
  revert m evs. induction entries as [|[k0 d0] entries IH]; intros m evs;
    cbn [foldl]; cbv zeta.
  - split; [by rewrite app_nil_r|]. split; [done|]. intros k.
    by rewrite bool_decide_eq_false_2 by apply not_elem_of_nil.
  - rewrite filter_cons. cbn [fst snd].
    destruct (Z.ltb_spec (lastSeen d0) exp) as [Hlt|Hge].
    + assert (expire exp (m, evs) (k0, d0)
              = (map_delete m k0, evs ++ [DeviceLost k0 (mac d0) (name d0)]))
        as ->.
      { unfold expire. cbn [fst snd].
        by destruct (Z.ltb_spec (lastSeen d0) exp); [|lia]. }
      rewrite decide_True by done.
      destruct (IH (map_delete m k0) (evs ++ [DeviceLost k0 (mac d0) (name d0)]))
        as (IHe & IHn & IHk).
      split; [by rewrite IHe, fmap_cons, <-app_assoc|]. split.
      * intros Hnd. apply IHn. eapply sublist_NoDup; [exact Hnd|].
        apply fmap_sublist, sublist_filter.
      * intros k. rewrite IHk, map_get_delete, fmap_cons. cbn [fst].
        destruct (decide (k ∈ (filter (λ e, lastSeen e.2 < exp) entries).*1))
          as [Hin|Hout].
        -- rewrite !bool_decide_eq_true_2;
             [done | by apply list_elem_of_further | done].
        -- rewrite (bool_decide_eq_false_2 _ Hout).
           destruct (String.eqb_spec k0 k) as [->|Hne].
           ++ by rewrite bool_decide_eq_true_2 by apply list_elem_of_here.
           ++ rewrite bool_decide_eq_false_2; [done|].
              intros [?|?]%elem_of_cons; congruence.
    + assert (expire exp (m, evs) (k0, d0) = (m, evs)) as ->.
      { unfold expire. cbn [fst snd].
        by destruct (Z.ltb_spec (lastSeen d0) exp); [lia|]. }
      rewrite decide_False by lia. apply IH.
Qed.

(** X30.  A scan of the network.  Every host that the scan found is in the
    map afterwards, seen at the time of the scan; a device that the scan
    did not find is dropped, with a deviceLost event, exactly when it was
    last seen more than five minutes before the scan, and is kept as it
    was otherwise; the keys of the map stay distinct.  The newDevice
    event is never emitted, not even for a host that was not in the map
    before: the map is asked whether it has the host only after the host
    has been stored. *)
Theorem scanNetwork_effect (currentTime : Z) (found : list Host)
    (m : Discovered) :
  NoDup m.*1 →
  let m' := (scanNetwork currentTime found m).1 in
  let events := (scanNetwork currentTime found m).2 in
  NoDup m'.*1
  ∧ (∀ i a n, NewDevice i a n ∉ events)
  ∧ (∀ h, h ∈ found →
       ∃ d, map_get m' (host_ip h) = Some d ∧ lastSeen d = currentTime)
  ∧ (∀ k d, map_get m k = Some d → k ∉ host_ip <$> found →
       (lastSeen d < currentTime - 300000 →
        map_get m' k = None ∧ DeviceLost k (mac d) (name d) ∈ events)
       ∧ (currentTime - 300000 ≤ lastSeen d → map_get m' k = Some d)).
Proof.
  intros Hnd m' events. subst m' events. unfold scanNetwork. cbv zeta.
  destruct (recordHosts currentTime found m []) as (He & Hn & Hk).
  set (recorded := foldl (recordHost currentTime) (m, []) found) in *.
  specialize (Hn Hnd).
  destruct (expireEntries (currentTime - 5 * 60 * 1000) recorded.1 recorded.1
              (recorded.2 ++ [DevicesUpdated (getDiscoveredDevices recorded.1)]))
    as (He' & Hn' & Hk').
  set (r := foldl (expire _) _ _) in *.
  set (lost := filter _ recorded.1) in *.
  assert (∀ k d, map_get recorded.1 k = Some d →
            (k ∈ lost.*1 ↔ lastSeen d < currentTime - 5 * 60 * 1000))
    as Hlost.
  { intros k d Hd. split.
    - intros ([k1 d1] & -> & Hin)%list_elem_of_fmap.
      apply list_elem_of_filter in Hin as [Hlt Hin]. cbn [fst snd] in *.
      apply (map_get_elem_of _ _ _ Hn) in Hin. congruence.
    - intros Hlt. apply list_elem_of_fmap. exists (k, d). split; [done|].
      apply list_elem_of_filter. split; [done|]. by apply map_get_Some. }
  split; [by apply Hn'|]. split; [|split].
  - intros i a n Hin. rewrite He', He in Hin. cbn [app] in Hin.
    apply elem_of_cons in Hin as [?|Hin]; [done|].
    by apply list_elem_of_fmap in Hin as (? & ? & _).
  - intros h Hh.
    destruct (Hk (host_ip h)) as [Hin _].
    destruct Hin as (d & Hd & Hseen).
    { apply list_elem_of_fmap. by exists h. }
    exists d. split; [|done]. rewrite Hk'.
    rewrite bool_decide_eq_false_2; [done|].
    rewrite (Hlost _ _ Hd). lia.
  - intros k d Hd Hout. destruct (Hk k) as [_ Hkeep].
    specialize (Hkeep Hout). rewrite Hd in Hkeep.
    split.
    + intros Hlt. split.
      * rewrite Hk'. rewrite bool_decide_eq_true_2; [done|].
        rewrite (Hlost _ _ Hkeep). lia.
      * rewrite He'. apply elem_of_app. right.
        apply list_elem_of_fmap. exists (k, d). split; [done|].
        apply list_elem_of_filter. split; [cbn; lia|].
        by apply map_get_Some.
    + intros Hge. rewrite Hk'. rewrite bool_decide_eq_false_2; [done|].
      rewrite (Hlost _ _ Hkeep). lia.
Qed.

Lemma scanNetwork_effect_witness :
  ∃ d, map_get
         (scanNetwork 400000
            [ {| host_ip := "192.168.1.20"; host_mac := None;
                 host_name := Some "?" |} ]
            [ ("192.168.1.9",
               {| ip := "192.168.1.9"; mac := Some ""; name := None;
                  lastSeen := 1000 |}) ]).1
         "192.168.1.20" = Some d
       ∧ lastSeen d = 400000.
Proof.
  destruct (scanNetwork_effect 400000
              [ {| host_ip := "192.168.1.20"; host_mac := None;
                   host_name := Some "?" |} ]
              [ ("192.168.1.9",
                 {| ip := "192.168.1.9"; mac := Some ""; name := None;
                    lastSeen := 1000 |}) ])
    as (_ & _ & Hfound & _).
  - cbn. apply NoDup_singleton.
  - apply (Hfound {| host_ip := "192.168.1.20"; host_mac := None;
                     host_name := Some "?" |}).
    apply list_elem_of_here.
Defined.

End NetworkScan.
